(** * Circe: the statement parser (src/parser.py)

    A shallow embedding of the field-extraction and validation engine of
    [src/parser.py]: the pattern catalog, the ordered fallback matcher, the
    date and amount normalizers, the date validator and [analyze_pdf].
    After the parser come its text extraction, the search of the mailbox
    ([src/gmail_auth.py]) and the table of bills and the loop over the
    messages of a user ([src/main.py]); the PDF libraries, the Gmail
    service and the file system are parameters of these.

    Conventions of the embedding.

    - A Python [str] is a list of Unicode code points ([list N]).  String
      literals of this file are UTF-8 and are decoded by [txt].
    - [None] is [None]; a call that can raise returns an [outcome] whose
      [Raise] stands for the exception, and every [try/except] of the source
      is a [match] on it.
    - [datetime.now()] is an argument [now] of the functions that read it.
    - The Python library functions the parser calls ([re.search], [re.sub],
      [datetime.strptime], [strftime], [float], [str.lower], [str.upper]) are
      modelled at the top of the file.  Their character classes follow
      CPython on the ASCII range, and [\s] on all of Unicode; digits, word
      characters and case folding of code points above 127 are not modelled
      (such a code point is no digit, no word character and folds to itself).
      The locale is the C locale (English month names). *)

From Stdlib Require Import List NArith ZArith String Ascii Bool Arith Lia.
Import ListNotations.


(* ================================================================== *)
(** * Python values: text, exceptions *)
(* ================================================================== *)

Module Py.

(** A code point, and Python's [str]. *)
Definition char := N.
Definition str := list N.

Fixpoint bytes_of (s : string) : list N :=
  match s with
  | EmptyString => []
  | String a r => N_of_ascii a :: bytes_of r
  end.

(** UTF-8 decoding of the literals of this file (well-formed input). *)
Fixpoint utf8_decode (bs : list N) : str :=
  match bs with
  | [] => []
  | b :: r =>
      if (b <? 128)%N then b :: utf8_decode r
      else if (b <? 224)%N then
        match r with
        | b1 :: r1 => ((b - 192) * 64 + (b1 - 128))%N :: utf8_decode r1
        | [] => [b]
        end
      else if (b <? 240)%N then
        match r with
        | b1 :: b2 :: r2 =>
            ((b - 224) * 4096 + (b1 - 128) * 64 + (b2 - 128))%N
              :: utf8_decode r2
        | _ => [b]
        end
      else
        match r with
        | b1 :: b2 :: b3 :: r3 =>
            ((b - 240) * 262144 + (b1 - 128) * 4096
             + (b2 - 128) * 64 + (b3 - 128))%N :: utf8_decode r3
        | _ => [b]
        end
  end.

Definition txt (s : string) : str := utf8_decode (bytes_of s).

(** The code point of an ASCII character. *)
Definition chr (a : ascii) : N := N_of_ascii a.

Fixpoint str_eqb (a b : str) : bool :=
  match a, b with
  | [], [] => true
  | x :: a', y :: b' => (x =? y)%N && str_eqb a' b'
  | _, _ => false
  end.

(** ** Character classes *)

Definition in_range (lo hi c : N) : bool := ((lo <=? c) && (c <=? hi))%N.

Definition is_digit (c : N) : bool := in_range 48 57 c.
Definition is_upper (c : N) : bool := in_range 65 90 c.
Definition is_lower (c : N) : bool := in_range 97 122 c.
Definition is_alpha (c : N) : bool := is_upper c || is_lower c.
(** [\w]: alphanumerics and the underscore. *)
Definition is_word (c : N) : bool := is_alpha c || is_digit c || (c =? 95)%N.

(** [\s] and [str.isspace]: the Unicode white space of CPython
    ([_PyUnicode_IsWhitespace]). *)
Definition is_space (c : N) : bool :=
  in_range 9 13 c || in_range 28 32 c || (c =? 133)%N || (c =? 160)%N
  || (c =? 5760)%N || in_range 8192 8202 c || (c =? 8232)%N
  || (c =? 8233)%N || (c =? 8239)%N || (c =? 8287)%N || (c =? 12288)%N.

Definition lower_char (c : N) : N := if is_upper c then (c + 32)%N else c.
Definition upper_char (c : N) : N := if is_lower c then (c - 32)%N else c.

(** [str.lower], [str.upper]. *)
Definition lower (s : str) : str := map lower_char s.
Definition upper (s : str) : str := map upper_char s.

(** Equality of characters under [re.IGNORECASE]. *)
Definition ieqb (a b : N) : bool := (lower_char a =? lower_char b)%N.

(** [needle in hay] for strings. *)
Fixpoint starts_with (p s : str) : bool :=
  match p, s with
  | [], _ => true
  | a :: p', b :: s' => (a =? b)%N && starts_with p' s'
  | _ :: _, [] => false
  end.

Fixpoint contains (needle hay : str) : bool :=
  starts_with needle hay
  || match hay with
     | [] => false
     | _ :: hay' => contains needle hay'
     end.

(** [int(s)] for a string of ASCII digits (white space around them is
    skipped, as [int] does); [None] is [ValueError]. *)
Definition digit_val (c : N) : Z := Z.of_N c - 48.

Fixpoint int_digits (acc : Z) (s : str) : option Z :=
  match s with
  | [] => Some acc
  | c :: r => if is_digit c then int_digits (10 * acc + digit_val c) r else None
  end.

Fixpoint lstrip (s : str) : str :=
  match s with
  | c :: r => if is_space c then lstrip r else s
  | [] => []
  end.

Definition strip (s : str) : str := rev (lstrip (rev (lstrip s))).

Definition int_of_str (s : str) : option Z :=
  match strip s with
  | [] => None
  | d => int_digits 0 d
  end.

(** The outcome of a call that may raise. *)
Inductive outcome (A : Type) : Type :=
| Ok (a : A)
| Raise.
Arguments Ok {A} a.
Arguments Raise {A}.

End Py.

Import Py.

(* ================================================================== *)
(** * [re]: the regular expressions of the catalog *)
(* ================================================================== *)

(** The subset of Python's [re] syntax the catalog is written in: literals,
    escapes, [.], [$], character sets, capturing and [(?:...)] groups,
    alternation, and the greedy and lazy quantifiers.  Matching is
    backtracking, leftmost, with the alternatives tried in the order [sre]
    tries them, under the flags [IGNORECASE | MULTILINE | DOTALL] every
    call of the parser passes. *)

Module Re.

Inductive citem : Type :=
| CChar (c : N)
| CRange (lo hi : N)
| CDigit
| CSpace
| CWord
| CNotDigit
| CNotSpace
| CNotWord.

Inductive regex : Type :=
| Eps
| Chr (c : N)
| Any
| CSet (neg : bool) (items : list citem)
| Eol
| Seq (a b : regex)
| Alt (a b : regex)
| Group (n : nat) (a : regex)
| Rep (lo : nat) (hi : option nat) (greedy : bool) (a : regex).

(** ** Parsing a pattern *)

Definition class_escape (c : N) : option citem :=
  if (c =? chr "d")%N then Some CDigit
  else if (c =? chr "s")%N then Some CSpace
  else if (c =? chr "w")%N then Some CWord
  else if (c =? chr "D")%N then Some CNotDigit
  else if (c =? chr "S")%N then Some CNotSpace
  else if (c =? chr "W")%N then Some CNotWord
  else None.

(** An escape that stands for one character: the control escapes, and any
    escaped character that is no ASCII letter or digit. *)
Definition char_escape (c : N) : option N :=
  if (c =? chr "n")%N then Some 10%N
  else if (c =? chr "r")%N then Some 13%N
  else if (c =? chr "t")%N then Some 9%N
  else if (c =? chr "f")%N then Some 12%N
  else if (c =? chr "v")%N then Some 11%N
  else if is_alpha c || is_digit c then None
  else Some c.

Definition escape_item (c : N) : option citem :=
  match class_escape c with
  | Some i => Some i
  | None => option_map CChar (char_escape c)
  end.

(** One member of a set, without the range it may open. *)
Definition set_atom (s : str) : option (citem * str) :=
  match s with
  | [] => None
  | c :: r =>
      if (c =? chr "\")%N then
        match r with
        | e :: r' => option_map (fun i => (i, r')) (escape_item e)
        | [] => None
        end
      else Some (CChar c, r)
  end.

(** The members of a set up to its closing bracket. *)
Fixpoint parse_set (fuel : nat) (s : str) : option (list citem * str) :=
  match fuel with
  | O => None
  | S fuel' =>
      match s with
      | [] => None
      | c :: r =>
          if (c =? chr "]")%N then Some ([], r)
          else
            match set_atom s with
            | None => None
            | Some (i, s1) =>
                match i, s1 with
                | CChar lo, d :: s2 =>
                    if (d =? chr "-")%N
                       && negb (starts_with [chr "]"] s2)
                    then
                      match set_atom s2 with
                      | Some (CChar hi, s3) =>
                          if (lo <=? hi)%N then
                            option_map
                              (fun '(its, s') => (CRange lo hi :: its, s'))
                              (parse_set fuel' s3)
                          else None
                      | _ => None
                      end
                    else
                      option_map (fun '(its, s') => (i :: its, s'))
                                 (parse_set fuel' s1)
                | _, _ =>
                    option_map (fun '(its, s') => (i :: its, s'))
                               (parse_set fuel' s1)
                end
            end
      end
  end.

Fixpoint parse_nat (acc : nat) (s : str) : nat * str :=
  match s with
  | c :: r =>
      if is_digit c then parse_nat (10 * acc + N.to_nat (c - 48)) r
      else (acc, s)
  | [] => (acc, [])
  end.

(** A quantifier: its bounds and what follows it. *)
Definition parse_bounds (s : str) : option (nat * option nat * str) :=
  match s with
  | [] => None
  | c :: r =>
      if (c =? chr "*")%N then Some (0, None, r)
      else if (c =? chr "+")%N then Some (1, None, r)
      else if (c =? chr "?")%N then Some (0, Some 1, r)
      else if (c =? chr "{")%N then
        match r with
        | d :: _ =>
            if is_digit d then
              let '(lo, r1) := parse_nat 0 r in
              match r1 with
              | x :: r2 =>
                  if (x =? chr "}")%N then Some (lo, Some lo, r2)
                  else if (x =? chr ",")%N then
                    match r2 with
                    | y :: r3 =>
                        if (y =? chr "}")%N then Some (lo, None, r3)
                        else if is_digit y then
                          let '(hi, r4) := parse_nat 0 r2 in
                          match r4 with
                          | z :: r5 =>
                              if (z =? chr "}")%N && (lo <=? hi)
                              then Some (lo, Some hi, r5) else None
                          | [] => None
                          end
                        else None
                    | [] => None
                    end
                  else None
              | [] => None
              end
            else None
        | [] => None
        end
      else None
  end.

Definition is_quant_char (c : N) : bool :=
  (c =? chr "*")%N || (c =? chr "+")%N || (c =? chr "?")%N
  || (c =? chr "{")%N.

(** [Some (wrap, rest)]: the quantifier that follows an atom, if any;
    [None]: a malformed or unsupported quantifier. *)
Definition parse_quant (s : str) : option ((regex -> regex) * str) :=
  match s with
  | [] => Some (fun a => a, [])
  | c :: _ =>
      if is_quant_char c then
        match parse_bounds s with
        | None => None
        | Some (lo, hi, r) =>
            match r with
            | q :: r' =>
                if (q =? chr "?")%N then Some (Rep lo hi false, r')
                else if (q =? chr "*")%N || (q =? chr "+")%N then None
                else Some (Rep lo hi true, r)
            | [] => Some (Rep lo hi true, [])
            end
        end
      else Some (fun a => a, s)
  end.

(** Recursive descent; [g] is the number of capturing groups opened so
    far. *)
Fixpoint parse_alt (fuel : nat) (s : str) (g : nat)
  : option (regex * str * nat) :=
  match fuel with
  | O => None
  | S fuel' =>
      match parse_seq fuel' s g with
      | None => None
      | Some (a, s1, g1) =>
          match s1 with
          | c :: s2 =>
              if (c =? chr "|")%N then
                match parse_alt fuel' s2 g1 with
                | Some (b, s3, g2) => Some (Alt a b, s3, g2)
                | None => None
                end
              else Some (a, s1, g1)
          | [] => Some (a, s1, g1)
          end
      end
  end
with parse_seq (fuel : nat) (s : str) (g : nat)
  : option (regex * str * nat) :=
  match fuel with
  | O => None
  | S fuel' =>
      match s with
      | [] => Some (Eps, [], g)
      | c :: _ =>
          if (c =? chr "|")%N || (c =? chr ")")%N then Some (Eps, s, g)
          else
            match parse_atom fuel' s g with
            | None => None
            | Some (a, s1, g1) =>
                match parse_quant s1 with
                | None => None
                | Some (q, s2) =>
                    match parse_seq fuel' s2 g1 with
                    | Some (Eps, s3, g2) => Some (q a, s3, g2)
                    | Some (b, s3, g2) => Some (Seq (q a) b, s3, g2)
                    | None => None
                    end
                end
            end
      end
  end
with parse_atom (fuel : nat) (s : str) (g : nat)
  : option (regex * str * nat) :=
  match fuel with
  | O => None
  | S fuel' =>
      match s with
      | [] => None
      | c :: r =>
          if (c =? chr "(")%N then
            if starts_with [chr "?"; chr ":"] r then
              match parse_alt fuel' (skipn 2 r) g with
              | Some (a, d :: s1, g1) =>
                  if (d =? chr ")")%N then Some (a, s1, g1) else None
              | _ => None
              end
            else if starts_with [chr "?"] r then None
            else
              match parse_alt fuel' r (S g) with
              | Some (a, d :: s1, g1) =>
                  if (d =? chr ")")%N then Some (Group (S g) a, s1, g1)
                  else None
              | _ => None
              end
          else if (c =? chr "[")%N then
            match r with
            | d :: r1 =>
                if (d =? chr "^")%N then
                  option_map (fun '(its, s1) => (CSet true its, s1, g))
                             (parse_set (S (List.length r1)) r1)
                else
                  option_map (fun '(its, s1) => (CSet false its, s1, g))
                             (parse_set (S (List.length r)) r)
            | [] => None
            end
          else if (c =? chr "\")%N then
            match r with
            | e :: r1 =>
                match class_escape e with
                | Some i => Some (CSet false [i], r1, g)
                | None =>
                    option_map (fun x => (Chr x, r1, g)) (char_escape e)
                end
            | [] => None
            end
          else if (c =? chr ".")%N then Some (Any, r, g)
          else if (c =? chr "$")%N then Some (Eol, r, g)
          else if (c =? chr "^")%N || is_quant_char c then None
          else Some (Chr c, r, g)
      end
  end.

(** [re.compile]: the expression and its number of groups; [None] is
    [re.error] (or a construct outside the subset). *)
Definition compile (pattern : str) : option (regex * nat) :=
  match parse_alt (3 * List.length pattern + 3) pattern 0 with
  | Some (a, [], g) => Some (a, g)
  | _ => None
  end.

(** ** Matching *)

Definition item_mem (c : N) (i : citem) : bool :=
  match i with
  | CChar x => (c =? x)%N
  | CRange lo hi => in_range lo hi c
  | CDigit => is_digit c
  | CSpace => is_space c
  | CWord => is_word c
  | CNotDigit => negb (is_digit c)
  | CNotSpace => negb (is_space c)
  | CNotWord => negb (is_word c)
  end.

(** Membership in a set under [IGNORECASE]: the character, its lower case
    or its upper case is a member. *)
Definition set_mem (items : list citem) (c : N) : bool :=
  existsb (fun i => item_mem c i || item_mem (lower_char c) i
                    || item_mem (upper_char c) i) items.

(** The text each group matched last. *)
Definition captures := list (nat * str).

Fixpoint cap_get (n : nat) (cs : captures) : option str :=
  match cs with
  | [] => None
  | (k, v) :: r => if Nat.eqb k n then Some v else cap_get n r
  end.

Definition cap_set (n : nat) (v : str) (cs : captures) : captures :=
  (n, v) :: cs.

Definition orelse {A} (x y : option A) : option A :=
  match x with
  | Some _ => x
  | None => y
  end.

(** [exec a s cs k]: match [a] at the head of [s], then run the
    continuation [k] on what is left; a failure of [k] backtracks into
    [a].  A repetition whose body matched the empty string is not iterated
    again. *)
Fixpoint exec (a : regex) (s : str) (cs : captures)
         (k : str -> captures -> option (str * captures))
  : option (str * captures) :=
  match a with
  | Eps => k s cs
  | Chr c =>
      match s with
      | x :: s' => if ieqb x c then k s' cs else None
      | [] => None
      end
  | Any =>
      match s with
      | _ :: s' => k s' cs
      | [] => None
      end
  | CSet neg items =>
      match s with
      | x :: s' => if xorb neg (set_mem items x) then k s' cs else None
      | [] => None
      end
  | Eol =>
      match s with
      | [] => k s cs
      | x :: _ => if (x =? 10)%N then k s cs else None
      end
  | Seq a1 a2 => exec a1 s cs (fun s1 c1 => exec a2 s1 c1 k)
  | Alt a1 a2 => orelse (exec a1 s cs k) (exec a2 s cs k)
  | Group n a1 =>
      exec a1 s cs
           (fun s1 c1 =>
              k s1 (cap_set n (firstn (List.length s - List.length s1) s) c1))
  | Rep lo hi greedy a1 =>
      (fix loop (fuel : nat) (count : nat) (s : str) (cs : captures)
         {struct fuel} : option (str * captures) :=
         match fuel with
         | O => None
         | S fuel' =>
             let again :=
               match hi with
               | Some h => Nat.ltb count h
               | None => true
               end in
             let iterate :=
               if again then
                 exec a1 s cs
                      (fun s1 c1 =>
                         if Nat.ltb (List.length s1) (List.length s)
                         then loop fuel' (S count) s1 c1
                         else if Nat.leb lo (S count) then k s1 c1 else None)
               else None in
             let leave := if Nat.leb lo count then k s cs else None in
             if greedy then orelse iterate leave else orelse leave iterate
         end) (S (List.length s)) 0 s cs
  end.

(** A match object: the text of each group ([None] for a group that took
    no part in the match). *)
Record Match : Type := mkMatch { groups : list (option str) }.

(** [m.group(i)], for [i >= 1]; [Raise] is [IndexError]. *)
Definition group (m : Match) (i : nat) : outcome (option str) :=
  match i with
  | O => Raise
  | S j =>
      match nth_error (groups m) j with
      | Some g => Ok g
      | None => Raise
      end
  end.

Definition match_here (a : regex) (ngroups : nat) (s : str) : option Match :=
  match exec a s [] (fun s1 c1 => Some (s1, c1)) with
  | Some (_, cs) =>
      Some (mkMatch (map (fun i => cap_get i cs) (seq 1 ngroups)))
  | None => None
  end.

(** The leftmost match. *)
Fixpoint scan (a : regex) (ngroups : nat) (s : str) : option Match :=
  match match_here a ngroups s with
  | Some m => Some m
  | None =>
      match s with
      | [] => None
      | _ :: s' => scan a ngroups s'
      end
  end.

(** [re.search(pattern, text, re.IGNORECASE | re.MULTILINE | re.DOTALL)]:
    [Raise] for a pattern that does not compile, [Ok None] for no match. *)
Definition search (pattern text : str) : outcome (option Match) :=
  match compile pattern with
  | None => Raise
  | Some (a, n) => Ok (scan a n text)
  end.

(** [re.sub(pattern, '', text)] for a pattern that is one character set:
    every character of the set is deleted. *)
Definition sub_empty (pattern text : str) : outcome str :=
  match compile pattern with
  | Some (CSet neg items, _) =>
      Ok (filter (fun c => negb (xorb neg (set_mem items c))) text)
  | _ => Raise
  end.

End Re.

(* ================================================================== *)
(** * [datetime] *)
(* ================================================================== *)

Module Datetime.

Local Open Scope Z_scope.

Record datetime : Type := mkDatetime {
  year : Z; month : Z; day : Z;
  hour : Z; minute : Z; second : Z; microsecond : Z
}.

Definition is_leap (y : Z) : bool :=
  (y mod 4 =? 0) && (negb (y mod 100 =? 0) || (y mod 400 =? 0)).

Definition days_in_month (y m : Z) : Z :=
  if m =? 2 then (if is_leap y then 29 else 28)
  else if (m =? 4) || (m =? 6) || (m =? 9) || (m =? 11) then 30
  else 31.

(** [_DAYS_BEFORE_MONTH]. *)
Definition days_before_month_table (m : Z) : Z :=
  nth (Z.to_nat m) [0; 0; 31; 59; 90; 120; 151; 181; 212; 243; 273; 304; 334] 0.

Definition days_before_year (y : Z) : Z :=
  let y1 := y - 1 in y1 * 365 + y1 / 4 - y1 / 100 + y1 / 400.

Definition days_before_month (y m : Z) : Z :=
  days_before_month_table m + (if (2 <? m) && is_leap y then 1 else 0).

(** [_ymd2ord]: the proleptic Gregorian ordinal, 0001-01-01 being day 1. *)
Definition ymd2ord (y m d : Z) : Z :=
  days_before_year y + days_before_month y m + d.

Definition toordinal (t : datetime) : Z := ymd2ord (year t) (month t) (day t).

(** The check of the [date] constructor: [MINYEAR <= year <= MAXYEAR],
    a month of the year, a day of the month. *)
Definition valid_ymd (y m d : Z) : bool :=
  (1 <=? y) && (y <=? 9999) && (1 <=? m) && (m <=? 12)
  && (1 <=? d) && (d <=? days_in_month y m).

(** The duration [a - b], normalized as [timedelta] does: only [days] may
    be negative. *)
Record timedelta : Type := mkTimedelta {
  days : Z; seconds : Z; microseconds : Z
}.

Definition day_us : Z := 86400 * 1000000.

Definition time_us (t : datetime) : Z :=
  (second t + minute t * 60 + hour t * 3600) * 1000000 + microsecond t.

Definition sub (a b : datetime) : timedelta :=
  let us := time_us a - time_us b in
  let carry := us / day_us in
  let rest := us mod day_us in
  mkTimedelta (toordinal a - toordinal b + carry)
              (rest / 1000000) (rest mod 1000000).

(** The order of [datetime]s: that of their field tuples. *)
Fixpoint lex_ltb (a b : list Z) : bool :=
  match a, b with
  | x :: a', y :: b' => (x <? y) || ((x =? y) && lex_ltb a' b')
  | _, _ => false
  end.

Definition fields (t : datetime) : list Z :=
  [year t; month t; day t; hour t; minute t; second t; microsecond t].

Definition ltb (a b : datetime) : bool := lex_ltb (fields a) (fields b).

(** *** [strftime('%Y-%m-%d')]

    The year is written with four digits, as the documentation of [%Y]
    has it.  (For a year below 1000 some C libraries leave the leading
    zeros out; the model does not follow them.) *)
Definition digit_chr (d : Z) : N := Z.to_N (48 + d mod 10).

Definition pad2 (n : Z) : str := [digit_chr (n / 10); digit_chr n].

Definition pad4 (n : Z) : str :=
  [digit_chr (n / 1000); digit_chr (n / 100); digit_chr (n / 10); digit_chr n].

Definition strftime_iso (t : datetime) : str :=
  pad4 (year t) ++ [chr "-"] ++ pad2 (month t) ++ [chr "-"] ++ pad2 (day t).

(** *** [strptime]

    [_strptime] turns the format into a regular expression (a run of white
    space of the format becomes [\s+], a directive becomes the expression
    below, anything else stands for itself), matches it at the start of
    the data ignoring case, refuses data left over, and builds the date
    from the groups.  The directives are those of [DATE_FORMATS]:

    - [%d]: [3[0-1]|[1-2]\d|0[1-9]|[1-9]| [1-9]]
    - [%m]: [1[0-2]|0[1-9]|[1-9]]
    - [%Y]: [\d\d\d\d]
    - [%b], [%B]: the abbreviated and the full month names, the longest
      first. *)
Inductive tok : Type :=
| TDay
| TMonth
| TYear
| TAbbr
| TFull
| TSpaces
| TLit (c : N).

(** [TimeRE.pattern]; [None] is the [ValueError] of a directive that the
    model does not know. *)
Fixpoint compile_format (f : str) : option (list tok) :=
  match f with
  | [] => Some []
  | c :: r =>
      if (c =? chr "%")%N then
        match r with
        | d :: r' =>
            let t :=
              if (d =? chr "d")%N then Some TDay
              else if (d =? chr "m")%N then Some TMonth
              else if (d =? chr "Y")%N then Some TYear
              else if (d =? chr "b")%N then Some TAbbr
              else if (d =? chr "B")%N then Some TFull
              else None in
            match t, compile_format r' with
            | Some t, Some ts => Some (t :: ts)
            | _, _ => None
            end
        | [] => None
        end
      else if is_space c then
        match compile_format r with
        | Some (TSpaces :: ts) => Some (TSpaces :: ts)
        | Some ts => Some (TSpaces :: ts)
        | None => None
        end
      else option_map (cons (TLit c)) (compile_format r)
  end.

(** [locale_time.a_month] and [f_month] with the month numbers, in the
    order the expression lists them (by decreasing length). *)
Definition a_month : list (str * Z) :=
  [(txt "jan", 1); (txt "feb", 2); (txt "mar", 3); (txt "apr", 4);
   (txt "may", 5); (txt "jun", 6); (txt "jul", 7); (txt "aug", 8);
   (txt "sep", 9); (txt "oct", 10); (txt "nov", 11); (txt "dec", 12)].

Definition f_month : list (str * Z) :=
  [(txt "september", 9); (txt "february", 2); (txt "november", 11);
   (txt "december", 12); (txt "january", 1); (txt "october", 10);
   (txt "august", 8); (txt "march", 3); (txt "april", 4);
   (txt "june", 6); (txt "july", 7); (txt "may", 5)].

Definition month_index (names : list (str * Z)) (p : str) : option Z :=
  option_map snd (find (fun e => str_eqb (fst e) (lower p)) names).

(** The ways a prefix of [s] can match one or two characters. *)
Definition take1 (ok : N -> bool) (s : str) : list (str * str) :=
  match s with
  | a :: r => if ok a then [([a], r)] else []
  | [] => []
  end.

Definition take2 (ok1 ok2 : N -> bool) (s : str) : list (str * str) :=
  match s with
  | a :: b :: r => if ok1 a && ok2 b then [([a; b], r)] else []
  | _ => []
  end.

Definition is_char (a : ascii) (c : N) : bool := (c =? chr a)%N.

Definition take_name (s : str) (name : str) : list (str * str) :=
  let n := List.length name in
  if str_eqb (lower (firstn n s)) name then [(firstn n s, skipn n s)] else [].

(** The prefixes of the leading white space of [s], the longest first. *)
Fixpoint take_spaces (s : str) : list (str * str) :=
  match s with
  | c :: r =>
      if is_space c then
        map (fun '(p, rest) => (c :: p, rest)) (take_spaces r) ++ [([c], r)]
      else []
  | [] => []
  end.

(** The matches of one directive at the head of [s], in the order the
    expression tries them: the text matched and what is left. *)
Definition alts (t : tok) (s : str) : list (str * str) :=
  match t with
  | TDay =>
      take2 (is_char "3") (in_range 48 49) s
      ++ take2 (in_range 49 50) is_digit s
      ++ take2 (is_char "0") (in_range 49 57) s
      ++ take1 (in_range 49 57) s
      ++ take2 (is_char " ") (in_range 49 57) s
  | TMonth =>
      take2 (is_char "1") (in_range 48 50) s
      ++ take2 (is_char "0") (in_range 49 57) s
      ++ take1 (in_range 49 57) s
  | TYear =>
      match s with
      | a :: b :: c :: d :: r =>
          if is_digit a && is_digit b && is_digit c && is_digit d
          then [([a; b; c; d], r)] else []
      | _ => []
      end
  | TAbbr => flat_map (fun e => take_name s (fst e)) a_month
  | TFull => flat_map (fun e => take_name s (fst e)) f_month
  | TSpaces => take_spaces s
  | TLit c => take1 (fun x => ieqb x c) s
  end.

Fixpoint first_some {A B} (f : A -> option B) (l : list A) : option B :=
  match l with
  | [] => None
  | x :: r =>
      match f x with
      | Some y => Some y
      | None => first_some f r
      end
  end.

(** The match of the whole expression: the text of each directive, and the
    data left over. *)
Fixpoint run (ts : list tok) (s : str) : option (list str * str) :=
  match ts with
  | [] => Some ([], s)
  | t :: ts' =>
      first_some
        (fun '(p, r) =>
           match run ts' r with
           | Some (ps, rest) => Some (p :: ps, rest)
           | None => None
           end)
        (alts t s)
  end.

(** The date fields read from the groups; a format without a year, month or
    day leaves 1900, 1 and 1. *)
Fixpoint read_fields (ts : list tok) (ps : list str) (ymd : Z * Z * Z)
  : option (Z * Z * Z) :=
  match ts, ps with
  | t :: ts', p :: ps' =>
      let '(y, m, d) := ymd in
      let next :=
        match t with
        | TDay => option_map (fun v => (y, m, v)) (int_of_str p)
        | TMonth => option_map (fun v => (y, v, d)) (int_of_str p)
        | TYear => option_map (fun v => (v, m, d)) (int_of_str p)
        | TAbbr => option_map (fun v => (y, v, d)) (month_index a_month p)
        | TFull => option_map (fun v => (y, v, d)) (month_index f_month p)
        | TSpaces | TLit _ => Some ymd
        end in
      match next with
      | Some n => read_fields ts' ps' n
      | None => None
      end
  | _, _ => Some ymd
  end.

(** [datetime.strptime(data, format)]; [Raise] is [ValueError]. *)
Definition strptime (data format : str) : outcome datetime :=
  match compile_format format with
  | None => Raise
  | Some ts =>
      match run ts data with
      | None => Raise
      | Some (ps, rest) =>
          match rest with
          | _ :: _ => Raise
          | [] =>
              match read_fields ts ps (1900, 1, 1) with
              | Some (y, m, d) =>
                  if valid_ymd y m d then Ok (mkDatetime y m d 0 0 0 0)
                  else Raise
              | None => Raise
              end
          end
      end
  end.

End Datetime.

(* ================================================================== *)
(** * [float] *)
(* ================================================================== *)

Module Float.

(** The value [float(s)] denotes.  Python returns the binary64 number
    nearest to it; the embedding keeps the decimal itself,
    [(-1)^negative * digits * 10^exponent], of which that number is a
    function. *)
Inductive pyfloat : Type :=
| Finite (negative : bool) (digits : Z) (exponent : Z)
| Inf (negative : bool)
| NaN.

(** [digit (["_"] digit)*]: the digits read and what is left. *)
Fixpoint digit_run (s : str) : str * str :=
  match s with
  | d :: r =>
      if is_digit d then
        match r with
        | u :: r' =>
            if (u =? chr "_")%N then
              match r' with
              | d2 :: _ =>
                  if is_digit d2
                  then let '(ds, rest) := digit_run r' in (d :: ds, rest)
                  else ([d], r)
              | [] => ([d], r)
              end
            else let '(ds, rest) := digit_run r in (d :: ds, rest)
        | [] => ([d], [])
        end
      else ([], s)
  | [] => ([], [])
  end.

Definition take_sign (s : str) : bool * str :=
  match s with
  | c :: r =>
      if (c =? chr "-")%N then (true, r)
      else if (c =? chr "+")%N then (false, r)
      else (false, s)
  | [] => (false, [])
  end.

Definition int_or_zero (ds : str) : Z :=
  match int_digits 0 ds with
  | Some v => v
  | None => 0
  end.

(** [[sign] digitpart] after the [e] of an exponent. *)
Definition parse_exponent (s : str) : option Z :=
  let '(neg, s1) := take_sign s in
  match digit_run s1 with
  | (d :: ds, []) =>
      let e := int_or_zero (d :: ds) in Some (if neg then (- e)%Z else e)
  | _ => None
  end.

(** [floatnumber]: [[digitpart] "." digitpart | digitpart ["."]], then an
    optional exponent. *)
Definition parse_number (neg : bool) (s : str) : option pyfloat :=
  let '(ip, s1) := digit_run s in
  let '(fp, s2) :=
    match s1 with
    | c :: r => if (c =? chr ".")%N then digit_run r else ([], s1)
    | [] => ([], [])
    end in
  match ip ++ fp with
  | [] => None
  | ds =>
      let scale := Z.of_nat (List.length fp) in
      match s2 with
      | [] => Some (Finite neg (int_or_zero ds) (- scale))
      | c :: r =>
          if (c =? chr "e")%N || (c =? chr "E")%N then
            option_map (fun e => Finite neg (int_or_zero ds) (e - scale))
                       (parse_exponent r)
          else None
      end
  end.

(** [float(s)] for a string; [Raise] is [ValueError]. *)
Definition float_of_str (s : str) : outcome pyfloat :=
  let '(neg, body) := take_sign (strip s) in
  let word := lower body in
  if str_eqb word (txt "inf") || str_eqb word (txt "infinity")
  then Ok (Inf neg)
  else if str_eqb word (txt "nan") then Ok NaN
  else
    match parse_number neg body with
    | Some f => Ok f
    | None => Raise
    end.

Definition is_zero (f : pyfloat) : bool :=
  match f with
  | Finite _ d _ => (d =? 0)%Z
  | _ => false
  end.

End Float.

(* ================================================================== *)
(** * The parser *)
(* ================================================================== *)

Module Parser.

Import Datetime Float.

(** ** Dictionaries *)

(** What the fields of a record hold. *)
Inductive value : Type :=
| VNone
| VStr (s : str)
| VFloat (f : pyfloat).

(** A [dict] with string keys, in insertion order. *)
Definition dict (V : Type) : Type := list (str * V).

Fixpoint dict_lookup {V} (d : dict V) (k : str) : option V :=
  match d with
  | [] => None
  | (k', v) :: r => if str_eqb k' k then Some v else dict_lookup r k
  end.

(** [d[k] = v]. *)
Fixpoint dict_set {V} (d : dict V) (k : str) (v : V) : dict V :=
  match d with
  | [] => [(k, v)]
  | (k', v') :: r =>
      if str_eqb k' k then (k', v) :: r else (k', v') :: dict_set r k v
  end.

(** [d.get(k)]. *)
Definition dict_get (d : dict value) (k : str) : value :=
  match dict_lookup d k with
  | Some v => v
  | None => VNone
  end.

(** The truth value of an object. *)
Definition truthy (v : value) : bool :=
  match v with
  | VNone => false
  | VStr s => negb (str_eqb s [])
  | VFloat f => negb (is_zero f)
  end.

(** A group of a match, as an object. *)
Definition of_group (g : option str) : value :=
  match g with
  | Some s => VStr s
  | None => VNone
  end.

(** A normalized field, as an object. *)
Definition of_date (d : option str) : value :=
  match d with
  | Some s => VStr s
  | None => VNone
  end.

Definition of_amount (a : option pyfloat) : value :=
  match a with
  | Some f => VFloat f
  | None => VNone
  end.

(** ** The pattern catalog *)

Local Open Scope string_scope.

Definition COMPREHENSIVE_BANK_PATTERNS : list (string * list (string * list string)) :=
  [
  ("sbi", [
     ("card_number", [
        "XXXX XXXX XXXX (\w+)";
        "XXXX XXXX XXXX (\w{2,4})";
        "Credit Card Number.*?XXXX XXXX XXXX (\w+)";
        "XXXX\s+XXXX\s+XXXX\s+XX(\d{2,4})"
      ]);
     ("statement_date", [
        "Statement\s*Date\s*[:\-]?\s*(\d{2}\s+[A-Za-z]{3}\s+\d{4})";
        "Statement\s*Date\s*[:\-]?\s*(\d{1,2}\s+[A-Za-z]+\s+\d{4})";
        "Statement.*?Date.*?(\d{2}/\d{2}/\d{4})";
        "Statement.*?(\d{2}-\d{2}-\d{4})"
      ]);
     ("total_due", [
        "Total Payment Due\s*[:\-]?\s*₹?\s*([\d,]+\.\d{2})";
        "Total Amount Due\s*[:\-]?\s*₹?\s*([\d,]+\.\d{2})";
        "\*Total Amount Due.*?([\d,]+\.\d{2})"
      ]);
     ("due_date", [
        "Payment\s+Due\s+Date[\s:\-.]*?(?:\r?\n|\s)+.*?([0-3]?\d\s+[A-Za-z]{3}\s+\d{4})";
        "Payment\s+Due\s+Date[\s:\-.]*?(?:\r?\n|\s)+.*?(\d{2}/\d{2}/\d{4})";
        "Payment\s+Due\s+Date[\s:\-.]*?(?:\r?\n|\s)+.*?(\d{2}-[A-Za-z]{3}-\d{4})";
        "(?:Total\s+)?Payment\s+Due\s+Date\s*[:\-]?\s*([0-3]?\d\s+[A-Za-z]{3}\s+\d{4})";
        "Payment\s+Due\s+Date\s*[:\-]?\s*(\d{2}-[A-Za-z]{3}-\d{4})";
        "Payment\s+Due\s+Date\s*[:\-]?\s*(\d{2}/\d{2}/\d{4})"
      ]);
     ("min_due", [
        "Minimum\s+(?:Amount|Payment)\s+Due\s*[:\-]?\s*₹?\s*([\d,]+\.\d{2})";
        "\*\*Minimum Amount Due.*?([\d,]+\.\d{2})"
      ]);
     ("credit_limit", [
        "Credit\s+Limit\s*\(.*?\)\s*[:\-]?\s*₹?\s*([\d,]+\.\d{2})";
        "Credit\s+Limit.*?₹?\s*([\d,]+\.\d{2})"
      ]);
     ("available_limit", [
        "Available\s+Credit\s+Limit\s*[:\-]?\s*₹?\s*([\d,]+\.\d{2})";
        "Available.*?Limit.*?₹?\s*([\d,]+\.\d{2})"
      ])
   ]);
  ("indusind", [
     ("card_number", [
        "Credit Card No\. (\d{4})XXXXXXXX(\d{4})";
        "Credit Card No\.\s+\d{4}X+(\d{4})";
        "Card.*?No.*?(\d{4})XXXXXXXX(\d{4})";
        "(\d{4})\*+(\d{4})"
      ]);
     ("statement_date", [
        "Statement Date\s+(\d{2}/\d{2}/\d{4})";
        "Statement.*?Date.*?(\d{2}/\d{2}/\d{4})";
        "Statement.*?(\d{2}-\d{2}-\d{4})"
      ]);
     ("total_due", [
        "Total Amount Due[\s\S]*?([\d,]+\.\d{2}) DR";
        "Total Amount Due\s+([\d,]+\.\d{2})\s+DR";
        "Total.*?Due.*?([\d,]+\.\d{2})";
        "Amount Due.*?([\d,]+\.\d{2})"
      ]);
     ("due_date", [
        "Payment Due Date\s+(\d{2}/\d{2}/\d{4})";
        "Due Date.*?(\d{2}/\d{2}/\d{4})";
        "Pay.*?by.*?(\d{2}/\d{2}/\d{4})"
      ]);
     ("min_due", [
        "Minimum Amount Due\s+([\d,]+\.\d{2})";
        "Min.*?Due.*?([\d,]+\.\d{2})";
        "MAD.*?([\d,]+\.\d{2})"
      ]);
     ("credit_limit", [
        "Credit.*?Credit Limit\s+([\d,]+\.\d{2})";
        "Total.*?Limit.*?([\d,]+\.\d{2})";
        "Credit Limit.*?([\d,]+\.\d{2})"
      ]);
     ("available_limit", [
        "Available Credit Limit\s+([\d,]+\.\d{2})";
        "Available.*?Limit.*?([\d,]+\.\d{2})"
      ])
   ]);
  ("axis", [
     ("card_number", [
        "(\d{6})\*+(\d{4})";
        "(\d{4})\*+(\d{4})";
        "Card.*?(\d{6})\*+(\d{4})";
        "Neo.*?(\d{6})\*+(\d{4})"
      ]);
     ("statement_date", [
        "Statement\s*Date\s*[:\-]?\s*(\d{2}/\d{2}/\d{4})";
        "Generation\s*Date\s*[:\-]?\s*(\d{2}/\d{2}/\d{4})"
      ]);
     ("total_due", [
        "([\d,]+\.\d{2}) Dr\s+([\d,]+\.\d{2}) Dr";
        "Total Payment Due.*?([\d,]+\.\d{2})";
        "Total.*?Due.*?([\d,]+\.\d{2}) Dr";
        "Amount Due.*?([\d,]+\.\d{2})"
      ]);
     ("due_date", [
        "(\d{2}/\d{2}/\d{4})\s+(\d{2}/\d{2}/\d{4})\s*$";
        "Payment Due Date.*?(\d{2}/\d{2}/\d{4})";
        "Due.*?(\d{2}/\d{2}/\d{4})"
      ]);
     ("min_due", [
        "([\d,]+\.\d{2}) Dr\s+([\d,]+\.\d{2}) Dr";
        "Minimum Payment Due.*?([\d,]+\.\d{2})";
        "Min.*?Due.*?([\d,]+\.\d{2})"
      ]);
     ("credit_limit", [
        "Credit Limit\s+([\d,]+\.\d{2})";
        "Total.*?Limit.*?([\d,]+\.\d{2})"
      ]);
     ("available_limit", [
        "Available Credit Limit\s+([\d,]+\.\d{2})";
        "Available.*?Limit.*?([\d,]+\.\d{2})"
      ])
   ]);
  ("icici", [
     ("card_number", [
        "(\d{4})XXXXXXXX(\d{4})";
        "(\d{4})\*+(\d{4})";
        "Card.*?(\d{4})XXXXXXXX(\d{4})";
        "Credit Card.*?(\d{4})\*+(\d{4})"
      ]);
     ("statement_date", [
        "SSTTAATTEEMMEENNTT DDAATTEE\s+(\w+ \d{1,2}, \d{4})";
        "Statement.*?Date.*?(\w+ \d{1,2}, \d{4})";
        "Statement.*?(\d{2}/\d{2}/\d{4})";
        "STATEMENT.*?(\d{2}/\d{2}/\d{4})"
      ]);
     ("total_due", [
        "Total Amount due\s+-\s+`([\d,]+\.\d{2})";
        "Total.*?due.*?`([\d,]+\.\d{2})";
        "Total Amount.*?([\d,]+\.\d{2})";
        "Amount due.*?([\d,]+\.\d{2})";
        "TOTAL\s+([\d,]+\.\d{2})"
      ]);
     ("due_date", [
        "PPAAYYMMEENNTT DDUUEE DDAATTEE\s+(\w+ \d{1,2}, \d{4})";
        "Payment.*?Due.*?Date.*?(\w+ \d{1,2}, \d{4})";
        "Due Date.*?(\d{2}/\d{2}/\d{4})";
        "PAYMENT.*?DUE.*?(\d{2}/\d{2}/\d{4})"
      ]);
     ("min_due", [
        "Minimum Amount due.*?`([\d,]+\.\d{2})";
        "Minimum.*?due.*?([\d,]+\.\d{2})";
        "Min.*?Amount.*?([\d,]+\.\d{2})"
      ]);
     ("credit_limit", [
        "Credit Limit \(Including cash\).*?`([\d,]+\.\d{2})";
        "Credit Limit.*?`([\d,]+\.\d{2})";
        "Total.*?Limit.*?([\d,]+\.\d{2})"
      ]);
     ("available_limit", [
        "Available Credit \(Including cash\).*?`([\d,]+\.\d{2})";
        "Available.*?Credit.*?`([\d,]+\.\d{2})";
        "Available.*?([\d,]+\.\d{2})"
      ])
   ]);
  ("kotak", [
     ("card_number", [
        "(\d{4})XXXXXXXX(\d{4})";
        "(\d{4})\*+(\d{4})";
        "Card.*?(\d{4})XXXXXXXX(\d{4})"
      ]);
     ("statement_date", [
        "Statement Date (\d{2}-\w{3}-\d{4})";
        "Statement.*?Date.*?(\d{2}-\w{3}-\d{4})";
        "Statement.*?(\d{2}/\d{2}/\d{4})"
      ]);
     ("total_due", [
        "Total Amount Due \(TAD\) Rs\.([\d,]+\.\d{2})";
        "Total.*?Due.*?Rs\.([\d,]+\.\d{2})";
        "TAD.*?Rs\.([\d,]+\.\d{2})";
        "Amount Due.*?([\d,]+\.\d{2})"
      ]);
     ("due_date", [
        "Remember to pay by (\d{2}-\w{3}-\d{4})";
        "Pay by (\d{2}-\w{3}-\d{4})";
        "Due.*?(\d{2}-\w{3}-\d{4})";
        "Payment.*?(\d{2}/\d{2}/\d{4})"
      ]);
     ("min_due", [
        "Minimum Amount Due \(MAD\) Rs\.([\d,]+\.\d{2})";
        "MAD.*?Rs\.([\d,]+\.\d{2})";
        "Minimum.*?Rs\.([\d,]+\.\d{2})"
      ]);
     ("credit_limit", [
        "Total Credit Limit \(incl\.cash\): Rs\.([\d,]+\.\d{2})";
        "Credit Limit.*?Rs\.([\d,]+\.\d{2})";
        "Total.*?Limit.*?Rs\.([\d,]+\.\d{2})"
      ]);
     ("available_limit", [
        "Available Credit Limit: Rs\.([\d,]+\.\d{2})";
        "Available.*?Rs\.([\d,]+\.\d{2})";
        "Available.*?Limit.*?([\d,]+\.\d{2})"
      ])
   ]);
  ("rbl", [
     ("card_number", [
        "XXXXXXXXXXXXXX(\d{2})";
        "(\d{4})\*+(\d{4})";
        "Card.*?(\d{4})\*+(\d{4})";
        "XXXX.*?(\d{4})"
      ]);
     ("statement_date", [
        "Statement Date\s+(\d{2}-\d{2}-\d{4})";
        "Statement.*?Date.*?(\d{2}-\d{2}-\d{4})";
        "Statement.*?(\d{2}/\d{2}/\d{4})"
      ]);
     ("total_due", [
        "Total Amount Due\s+([\d,]+\.\d{2})";
        "Total.*?Due.*?([\d,]+\.\d{2})";
        "Amount Due.*?([\d,]+\.\d{2})"
      ]);
     ("due_date", [
        "Payment Due Date\s+(\d{2} \w{3} \d{4})";
        "Due Date.*?(\d{2} \w{3} \d{4})";
        "Payment.*?(\d{2}/\d{2}/\d{4})"
      ]);
     ("min_due", [
        "Min\. Amt\. Due\s+([\d,]+\.\d{2})";
        "Minimum.*?Due.*?([\d,]+\.\d{2})";
        "Min.*?Due.*?([\d,]+\.\d{2})"
      ]);
     ("credit_limit", [
        "Total Credit Limit\s+([\d,]+\.\d{2})";
        "Credit Limit.*?([\d,]+\.\d{2})";
        "Total.*?Limit.*?([\d,]+\.\d{2})"
      ]);
     ("available_limit", [
        "Available Credit Limit\s+([\d,]+\.\d{2})";
        "Available.*?Limit.*?([\d,]+\.\d{2})"
      ])
   ]);
  ("hdfc", [
     ("card_number", [
        "(\d{4})\s*\*+\s*(\d{4})";
        "(\d{4})XXXXXXXX(\d{4})";
        "Card.*?(\d{4})\*+(\d{4})";
        "HDFC.*?(\d{4})\*+(\d{4})"
      ]);
     ("statement_date", [
        "Statement Date\s*:?\s*(\d{2}/\d{2}/\d{4})";
        "Statement.*?(\d{2}-\d{2}-\d{4})";
        "Date.*?(\d{2}/\d{2}/\d{4})"
      ]);
     ("total_due", [
        "Total Amount Due\s*:?\s*Rs\.?\s*([\d,]+\.\d{2})";
        "Total.*?Due.*?Rs\.?\s*([\d,]+\.\d{2})";
        "Amount Due.*?([\d,]+\.\d{2})"
      ]);
     ("due_date", [
        "Payment Due Date\s*:?\s*(\d{2}/\d{2}/\d{4})";
        "Due Date.*?(\d{2}/\d{2}/\d{4})";
        "Pay.*?by.*?(\d{2}/\d{2}/\d{4})"
      ]);
     ("min_due", [
        "Minimum Amount Due\s*:?\s*Rs\.?\s*([\d,]+\.\d{2})";
        "Min.*?Due.*?Rs\.?\s*([\d,]+\.\d{2})";
        "Minimum.*?([\d,]+\.\d{2})"
      ]);
     ("credit_limit", [
        "Credit Limit\s*:?\s*Rs\.?\s*([\d,]+\.\d{2})";
        "Total.*?Limit.*?Rs\.?\s*([\d,]+\.\d{2})"
      ]);
     ("available_limit", [
        "Available Credit\s*:?\s*Rs\.?\s*([\d,]+\.\d{2})";
        "Available.*?Rs\.?\s*([\d,]+\.\d{2})"
      ])
   ]);
  ("bob", [
     ("card_number", [
        "(\d{4})\s*\*+\s*(\d{4})";
        "(\d{4})XXXXXXXX(\d{4})";
        "Card.*?(\d{4})\*+(\d{4})"
      ]);
     ("statement_date", [
        "Statement Date\s*:?\s*(\d{2}/\d{2}/\d{4})";
        "Statement.*?(\d{2}-\d{2}-\d{4})";
        "Date.*?(\d{2}/\d{2}/\d{4})"
      ]);
     ("total_due", [
        "Total Amount Due\s*:?\s*([\d,]+\.\d{2})";
        "Total.*?Due.*?([\d,]+\.\d{2})";
        "Amount Due.*?([\d,]+\.\d{2})"
      ]);
     ("due_date", [
        "Payment Due Date\s*:?\s*(\d{2}/\d{2}/\d{4})";
        "Due Date.*?(\d{2}/\d{2}/\d{4})";
        "Pay.*?by.*?(\d{2}/\d{2}/\d{4})"
      ]);
     ("min_due", [
        "Minimum Amount Due\s*:?\s*([\d,]+\.\d{2})";
        "Min.*?Due.*?([\d,]+\.\d{2})";
        "Minimum.*?([\d,]+\.\d{2})"
      ]);
     ("credit_limit", [
        "Credit Limit\s*:?\s*([\d,]+\.\d{2})";
        "Total.*?Limit.*?([\d,]+\.\d{2})"
      ]);
     ("available_limit", [
        "Available Credit\s*:?\s*([\d,]+\.\d{2})";
        "Available.*?([\d,]+\.\d{2})"
      ])
   ])
  ].

Definition profile : Type := dict (list str).

(** The catalog as the dictionary of dictionaries it is. *)
Definition catalog : dict profile :=
  map (fun b =>
         (txt (fst b),
          map (fun f => (txt (fst f), map txt (snd f))) (snd b)))
      COMPREHENSIVE_BANK_PATTERNS.

(** ** Date formats *)

Definition DATE_FORMATS : list string :=
  [ "%d %b %Y";
    "%d/%m/%Y";
    "%d-%m-%Y";
    "%d-%b-%Y";
    "%B %d, %Y";
    "%d %B %Y";
    "%Y-%m-%d";
    "%m/%d/%Y";
    "%d.%m.%Y" ].

Local Close Scope string_scope.

(** ** Utility functions *)

(** [datetime.strptime(date_str, fmt).strftime('%Y-%m-%d')] under
    [try ... except (ValueError, TypeError)]: [None] when it raised. *)
Definition try_format (date_str : str) (fmt : str) : option str :=
  match strptime date_str fmt with
  | Ok t => Some (strftime_iso t)
  | Raise => None
  end.

Fixpoint try_formats (date_str : str) (fmts : list string) : option str :=
  match fmts with
  | [] => None
  | fmt :: rest =>
      match try_format date_str (txt fmt) with
      | Some iso => Some iso
      | None => try_formats date_str rest
      end
  end.

Definition _clean_and_convert_date (date_str : value)
           (date_format : option str) : option str :=
  match date_str with
  | VStr s =>
      if negb (truthy date_str) then None
      else
        let specific :=
          match date_format with
          | Some fmt => if str_eqb fmt [] then None else try_format s fmt
          | None => None
          end in
        match specific with
        | Some iso => Some iso
        | None => try_formats s DATE_FORMATS
        end
  | VNone => None
  | VFloat f =>
      (* a number is no string: [strptime] raises [TypeError] everywhere *)
      None
  end.

Definition _clean_and_convert_amount (amount_str : value) : option pyfloat :=
  match amount_str with
  | VStr s =>
      if negb (truthy amount_str) then None
      else
        match Re.sub_empty (txt "[₹$,\s]") s with
        | Ok cleaned =>
            match float_of_str cleaned with
            | Ok f => Some f
            | Raise => None
            end
        | Raise => None
        end
  | VNone => None
  | VFloat f =>
      (* [str(amount_str)] prints the number and [float] reads it back *)
      if is_zero f then None else Some f
  end.

(** [datetime.strptime] of an object: [TypeError] for one that is no
    string. *)
Definition strptime_value (v : value) (fmt : str) : outcome datetime :=
  match v with
  | VStr s => strptime s fmt
  | _ => Raise
  end.

Definition _is_valid_date (now : datetime) (date_str : value)
           (statement_date_str : value) : bool :=
  if negb (truthy date_str) then false
  else
    match strptime_value date_str (txt "%Y-%m-%d") with
    | Raise => false
    | Ok parsed_date =>
        let current_date := now in
        if (year current_date + 2 <? year parsed_date)%Z then false
        else if (550 <? days (sub current_date parsed_date))%Z then false
        else if truthy statement_date_str then
          match strptime_value statement_date_str (txt "%Y-%m-%d") with
          | Raise => false
          | Ok stmt_date => if ltb parsed_date stmt_date then false else true
          end
        else true
    end.

Fixpoint _extract_with_multiple_patterns (text : str) (patterns : list str)
  : option Re.Match :=
  match patterns with
  | [] => None
  | pattern :: rest =>
      match Re.search pattern text with
      | Ok (Some m) => Some m
      | Ok None => _extract_with_multiple_patterns text rest
      | Raise => _extract_with_multiple_patterns text rest
      end
  end.

(** ** Parsing the text of a statement *)

Definition bind {A B} (x : outcome A) (f : A -> outcome B) : outcome B :=
  match x with
  | Ok a => f a
  | Raise => Raise
  end.

Notation "x <- e ;; k" := (bind e (fun x => k))
  (at level 61, e at next level, right associativity).

(** [patterns[k]]; [Raise] is [KeyError]. *)
Definition subscript {V} (d : dict V) (k : str) : outcome V :=
  match dict_lookup d k with
  | Some v => Ok v
  | None => Raise
  end.

(** [groups[i]] for [i >= 0]; [Raise] is [IndexError]. *)
Definition item (groups : list (option str)) (i : nat)
  : outcome (option str) :=
  match nth_error groups i with
  | Some g => Ok g
  | None => Raise
  end.

(** [groups[-1]]; [Raise] is [IndexError]. *)
Definition last_group (groups : list (option str)) : outcome (option str) :=
  match rev groups with
  | g :: _ => Ok g
  | [] => Raise
  end.

(** [groups[0] if len(groups) == 1 else groups[-1]]. *)
Definition select_group (groups : list (option str)) : outcome (option str) :=
  if Nat.eqb (List.length groups) 1 then item groups 0
  else last_group groups.

(** The loop over the optional amounts. *)
Fixpoint parse_optional (pdf_text : str) (patterns : profile)
         (fields : list str) (result : dict value) : outcome (dict value) :=
  match fields with
  | [] => Ok result
  | field :: rest =>
      match dict_lookup patterns field with
      | Some field_patterns =>
          match _extract_with_multiple_patterns pdf_text field_patterns with
          | Some m =>
              amount_group <- select_group (Re.groups m) ;;
              parse_optional pdf_text patterns rest
                (dict_set result field
                   (of_amount
                      (_clean_and_convert_amount (of_group amount_group))))
          | None => parse_optional pdf_text patterns rest result
          end
      | None => parse_optional pdf_text patterns rest result
      end
  end.

Definition parse_pdf_content (pdf_text bank_name : str)
  : outcome (dict value) :=
  let bank_key := lower bank_name in
  match dict_lookup catalog bank_key with
  | None => Ok []
  | Some [] => Ok []
  | Some patterns =>
      let result := [(txt "bank_name", VStr (upper bank_name))] in
      (* card number *)
      card_patterns <- subscript patterns (txt "card_number") ;;
      let card_match :=
        _extract_with_multiple_patterns pdf_text card_patterns in
      result <-
        match card_match with
        | Some m =>
            let groups := Re.groups m in
            if Nat.eqb (List.length groups) 1 then
              g <- item groups 0 ;;
              Ok (dict_set result (txt "card_last4") (of_group g))
            else if Nat.ltb 1 (List.length groups) then
              g <- last_group groups ;;
              Ok (dict_set result (txt "card_last4") (of_group g))
            else Ok result
        | None => Ok result
        end ;;
      (* dates *)
      let stmt_patterns :=
        match dict_lookup patterns (txt "statement_date") with
        | Some l => l
        | None => []
        end in
      let stmt_match :=
        _extract_with_multiple_patterns pdf_text stmt_patterns in
      due_patterns <- subscript patterns (txt "due_date") ;;
      let due_match :=
        _extract_with_multiple_patterns pdf_text due_patterns in
      result <-
        match stmt_match with
        | Some m =>
            g <- Re.group m 1 ;;
            Ok (dict_set result (txt "statement_date")
                  (of_date (_clean_and_convert_date (of_group g) None)))
        | None => Ok result
        end ;;
      result <-
        match due_match with
        | Some m =>
            due_group <- select_group (Re.groups m) ;;
            Ok (dict_set result (txt "due_date")
                  (of_date (_clean_and_convert_date (of_group due_group) None)))
        | None => Ok result
        end ;;
      (* amounts *)
      total_patterns <- subscript patterns (txt "total_due") ;;
      result <-
        match _extract_with_multiple_patterns pdf_text total_patterns with
        | Some m =>
            total_group <- select_group (Re.groups m) ;;
            Ok (dict_set result (txt "total_due")
                  (of_amount
                     (_clean_and_convert_amount (of_group total_group))))
        | None => Ok result
        end ;;
      (* optional fields *)
      parse_optional pdf_text patterns
        [txt "min_due"; txt "credit_limit"; txt "available_limit"] result
  end.

(** ** The orchestrator *)

Section Analyze.

(** [_extract_text_from_pdf(pdf_path, password)]: the text the PDF
    libraries recover, [None] when they fail.  It catches every exception
    of theirs. *)
Variable _extract_text_from_pdf : str -> str -> option str.

(** The second chronology check of [analyze_pdf]: [true] when it rejects.
    An exception inside it is passed over. *)
Definition due_before_statement (stmt_str due_str : value) : bool :=
  if truthy stmt_str && truthy due_str then
    match strptime_value stmt_str (txt "%Y-%m-%d") with
    | Raise => false
    | Ok stmt =>
        match strptime_value due_str (txt "%Y-%m-%d") with
        | Raise => false
        | Ok due => ltb due stmt
        end
    end
  else false.

Definition analyze_pdf (now : datetime) (pdf_path password bank_name : str)
  : outcome (option (dict value)) :=
  match _extract_text_from_pdf pdf_path password with
  | None => Ok None
  | Some [] => Ok None
  | Some pdf_text =>
      if str_eqb (lower bank_name) (txt "icici")
         && contains (txt "amortization schedule") (lower pdf_text)
      then Ok None
      else
        parsed_data <- parse_pdf_content pdf_text bank_name ;;
        let essential_fields := [txt "card_last4"; txt "due_date"] in
        let missing_fields :=
          filter (fun field => negb (truthy (dict_get parsed_data field)))
                 essential_fields in
        match missing_fields with
        | _ :: _ => Ok None
        | [] =>
            if negb (_is_valid_date now
                       (dict_get parsed_data (txt "due_date"))
                       (dict_get parsed_data (txt "statement_date")))
            then Ok None
            else
              let stmt_str := dict_get parsed_data (txt "statement_date") in
              let due_str := dict_get parsed_data (txt "due_date") in
              if due_before_statement stmt_str due_str then Ok None
              else Ok (Some parsed_data)
        end
  end.

End Analyze.

End Parser.
(* ================================================================== *)
(** * Text extraction ([_extract_text_from_pdf]) *)
(* ================================================================== *)

(** [_extract_text_from_pdf] drives two PDF libraries.  What they do with
    a document is a parameter: opening a document gives its pages or
    raises, and the text of a page is a string, nothing, or an
    exception. *)

Module Adapter.

Import Parser.

(** [page.extract_text(...)]. *)
Definition page : Type := outcome (option str).

(** A [PyPDF2.PdfReader]: whether the document is encrypted, whether
    [decrypt(password)] raises, and the pages as they read after
    [decrypt] was called with a password, or was not called. *)
Record PdfReader : Type := mkPdfReader {
  is_encrypted : bool;
  decrypt : str -> outcome unit;
  pages : option str -> outcome (list page)
}.

(** The loop [for page in pages: ... text += page_text + "\n"]: the text
    when it ends, and whether a page raised. *)
Fixpoint read_pages (ps : list page) (text : str) : str * bool :=
  match ps with
  | [] => (text, false)
  | Raise :: _ => (text, true)
  | Ok page_text :: rest =>
      match page_text with
      | Some (c :: t) => read_pages rest (text ++ (c :: t) ++ [chr "010"])
      | _ => read_pages rest text
      end
  end.

Section Libraries.

(** [pdfplumber.open(pdf_path, password=password)] and its [pages]. *)
Variable pdfplumber_open : str -> str -> outcome (list page).

(** [PyPDF2.PdfReader(open(pdf_path, 'rb'))]. *)
Variable PyPDF2_PdfReader : str -> outcome PdfReader.

(** The first method: the text gathered, and whether it is returned. *)
Definition method_1 (pdf_path password : str) (text : str) : str * bool :=
  match pdfplumber_open pdf_path password with
  | Raise => (text, false)
  | Ok ps =>
      let '(text, raised) := read_pages ps text in
      if raised then (text, false)
      else
        match strip text with
        | _ :: _ => (text, true)
        | [] => (text, false)
        end
  end.

(** The second method, which goes on with the text gathered so far. *)
Definition method_2 (pdf_path password : str) (text : str) : option str :=
  match PyPDF2_PdfReader pdf_path with
  | Raise => None
  | Ok pdf_reader =>
      let decrypted :=
        if is_encrypted pdf_reader
        then match decrypt pdf_reader password with
             | Ok _ => Ok (Some password)
             | Raise => Raise
             end
        else Ok None in
      match decrypted with
      | Raise => None
      | Ok key =>
          match pages pdf_reader key with
          | Raise => None
          | Ok ps =>
              let '(text, raised) := read_pages ps text in
              if raised then None else Some text
          end
      end
  end.

Definition _extract_text_from_pdf (pdf_path password : str) : option str :=
  let text := [] in
  let '(text, returned) := method_1 pdf_path password text in
  if returned then Some text else method_2 pdf_path password text.

End Libraries.

End Adapter.

(* ================================================================== *)
(** * The mailbox ([gmail_auth.py]) *)
(* ================================================================== *)

Module Gmail.

Import Datetime.

Local Open Scope Z_scope.

(** ** Dates a number of days ago *)

(** [_DAYS_IN_MONTH] and [_DAYS_BEFORE_MONTH]. *)
Definition DAYS_IN_MONTH (m : Z) : Z :=
  nth (Z.to_nat m) [-1; 31; 28; 31; 30; 31; 30; 31; 31; 30; 31; 30; 31] 0.

Definition DI400Y : Z := 146097.
Definition DI100Y : Z := 36524.
Definition DI4Y : Z := 1461.

(** [_ord2ymd]: the date of a proleptic Gregorian ordinal. *)
Definition ord2ymd (n : Z) : Z * Z * Z :=
  let n := n - 1 in
  let n400 := n / DI400Y in
  let n := n mod DI400Y in
  let year := n400 * 400 + 1 in
  let n100 := n / DI100Y in
  let n := n mod DI100Y in
  let n4 := n / DI4Y in
  let n := n mod DI4Y in
  let n1 := n / 365 in
  let n := n mod 365 in
  let year := year + n100 * 100 + n4 * 4 + n1 in
  if (n1 =? 4) || (n100 =? 4) then (year - 1, 12, 31)
  else
    let leapyear := (n1 =? 3) && (negb (n4 =? 24) || (n100 =? 3)) in
    let month := Z.shiftr (n + 50) 5 in
    let preceding :=
      days_before_month_table month
      + (if (2 <? month) && leapyear then 1 else 0) in
    let '(month, preceding) :=
      if n <? preceding then
        (month - 1,
         preceding
         - (DAYS_IN_MONTH (month - 1)
            + (if (month - 1 =? 2) && leapyear then 1 else 0)))
      else (month, preceding) in
    (year, month, n - preceding + 1).

(** The largest ordinal, that of 9999-12-31. *)
Definition MAXORDINAL : Z := 3652059.

(** [t - timedelta(days=n)]; [Raise] is [OverflowError]. *)
Definition minus_days (t : datetime) (n : Z) : outcome datetime :=
  if (999999999 <? Z.abs n) then Raise
  else
    let o := toordinal t - n in
    if (1 <=? o) && (o <=? MAXORDINAL) then
      let '(y, m, d) := ord2ymd o in
      Ok (mkDatetime y m d (hour t) (minute t) (second t) (microsecond t))
    else Raise.

(** [strftime('%Y/%m/%d')], the year with four digits as in
    [strftime_iso]. *)
Definition strftime_slashes (t : datetime) : str :=
  pad4 (year t) ++ [chr "/"] ++ pad2 (month t) ++ [chr "/"] ++ pad2 (day t).

(** ** The search *)

(** [sep.join(items)]. *)
Fixpoint join (sep : str) (items : list str) : str :=
  match items with
  | [] => []
  | [x] => x
  | x :: rest => x ++ sep ++ join sep rest
  end.

Definition search_query (sender_list : list str) (search_date : str) : str :=
  let from_query :=
    join (txt " OR ") (map (fun sender => txt "from:" ++ sender) sender_list) in
  txt "(" ++ from_query ++ txt ") has:attachment filename:pdf after:"
  ++ search_date.

(** ** Messages *)

(** A part of a message: its [filename], when it has one, and the
    [attachmentId] of its body, when it has one. *)
Record part : Type := mkPart {
  part_filename : option str;
  part_attachment_id : option str
}.

(** The payload of a message: the headers (name and value) and the
    parts. *)
Record message : Type := mkMessage {
  headers : list (str * str);
  parts : list part
}.

(** What [get_statement_emails] returns for an attachment. *)
Record email : Type := mkEmail {
  pdf_data : list N;
  filename : str;
  sender : str;
  message_id : str
}.

(** [s.endswith(suffix)]. *)
Definition ends_with (suffix s : str) : bool :=
  starts_with (rev suffix) (rev s).

(** The value of the first header named [From], whatever its case. *)
Fixpoint sender_of (hs : list (str * str)) : str :=
  match hs with
  | [] => []
  | (name, value) :: rest =>
      if str_eqb (lower name) (txt "from") then value else sender_of rest
  end.

Section Service.

(** [service.users().messages().list(userId='me', q=query).execute()]:
    the ids of the messages found. *)
Variable list_messages : str -> outcome (list str).

(** [service.users().messages().get(userId='me', id=...).execute()]. *)
Variable get_message : str -> outcome message.

(** The [data] of
    [service.users().messages().attachments().get(...).execute()]. *)
Variable get_attachment : str -> str -> outcome str.

(** [base64.urlsafe_b64decode]. *)
Variable urlsafe_b64decode : str -> outcome (list N).

(** The loop over the parts of one message: the attachments appended,
    and whether an exception ended it. *)
Fixpoint read_parts (msg_id sender : str) (ps : list part)
         (emails : list email) : list email * bool :=
  match ps with
  | [] => (emails, false)
  | p :: rest =>
      let filename :=
        match part_filename p with
        | Some f => f
        | None => []
        end in
      if ends_with (txt ".pdf") (lower filename) then
        match part_attachment_id p with
        | Some (c :: a) =>
            match get_attachment msg_id (c :: a) with
            | Raise => (emails, true)
            | Ok data =>
                match urlsafe_b64decode data with
                | Raise => (emails, true)
                | Ok pdf =>
                    read_parts msg_id sender rest
                      (emails ++ [mkEmail pdf filename sender msg_id])
                end
            end
        | _ => read_parts msg_id sender rest emails
        end
      else read_parts msg_id sender rest emails
  end.

(** The loop over the messages; a message that raises is left. *)
Fixpoint read_messages (ids : list str) (emails : list email) : list email :=
  match ids with
  | [] => emails
  | msg_id :: rest =>
      match get_message msg_id with
      | Raise => read_messages rest emails
      | Ok msg_data =>
          let sender := sender_of (headers msg_data) in
          read_messages rest
            (fst (read_parts msg_id sender (parts msg_data) emails))
      end
  end.

Definition get_statement_emails (now : datetime) (sender_list : list str)
           (days_to_search : Z) : outcome (list email) :=
  match minus_days now days_to_search with
  | Raise => Raise
  | Ok since =>
      let search_date := strftime_slashes since in
      let query := search_query sender_list search_date in
      match list_messages query with
      | Raise => Ok []
      | Ok messages => Ok (read_messages messages [])
      end
  end.

End Service.

End Gmail.

(* ================================================================== *)
(** * The tracker ([main.py]) *)
(* ================================================================== *)

Module Main.

Import Datetime Float Parser.

(** ** The database *)

(** What a column of affinity REAL holds. *)
Inductive sqlvalue : Type :=
| SNull
| SText (s : str)
| SReal (f : pyfloat).

(** A row of the table [bills].  The columns declared TEXT hold a text or
    NULL ([None]). *)
Record bill : Type := mkBill {
  id : Z;
  user : str;
  bank_name : option str;
  card_last4 : option str;
  statement_date : option str;
  total_due : sqlvalue;
  due_date : option str;
  min_due : sqlvalue;
  credit_limit : sqlvalue;
  available_limit : sqlvalue
}.

(** The table and the counter of its AUTOINCREMENT key. *)
Record database : Type := mkDatabase {
  bills : list bill;
  sequence : Z
}.

(** [init_db]: the table is created, empty, unless the file has it. *)
Definition init_db (file : option database) : database :=
  match file with
  | Some conn => conn
  | None => mkDatabase [] 0
  end.

(** Equality of two TEXT values in a UNIQUE constraint: NULL is equal to
    nothing. *)
Definition same_text (a b : option str) : bool :=
  match a, b with
  | Some x, Some y => str_eqb x y
  | _, _ => false
  end.

(** [UNIQUE(user, card_last4, statement_date)]. *)
Definition conflicts (a b : bill) : bool :=
  str_eqb (user a) (user b)
  && same_text (card_last4 a) (card_last4 b)
  && same_text (statement_date a) (statement_date b).

(** The row id a new row gets: one more than the largest id given so
    far. *)
Definition next_id (conn : database) : Z :=
  (fold_left Z.max (map id (bills conn)) (sequence conn) + 1)%Z.

(** [INSERT OR IGNORE INTO bills ...]: the row is added unless it is in
    conflict with a row of the table; either way an id is used up. *)
Definition insert_or_ignore (conn : database) (row : Z -> bill) : database :=
  let new := row (next_id conn) in
  if existsb (conflicts new) (bills conn)
  then mkDatabase (bills conn) (next_id conn)
  else mkDatabase (bills conn ++ [new]) (next_id conn).

Section Sqlite.

(** How SQLite stores a number in a TEXT column, and a text in a REAL
    column. *)
Variable real_as_text : pyfloat -> str.
Variable text_as_real : str -> sqlvalue.

(** A number as SQLite keeps it: NaN is NULL.  (A negative zero is kept
    as zero; the decimal of the embedding stays as it is.) *)
Definition store_real (f : pyfloat) : sqlvalue :=
  match f with
  | NaN => SNull
  | _ => SReal f
  end.

Definition to_text (v : value) : option str :=
  match v with
  | VNone => None
  | VStr s => Some s
  | VFloat f =>
      match store_real f with
      | SReal r => Some (real_as_text r)
      | _ => None
      end
  end.

Definition to_real (v : value) : sqlvalue :=
  match v with
  | VNone => SNull
  | VStr s => text_as_real s
  | VFloat f => store_real f
  end.

(** [a or b]. *)
Definition or_else (a b : value) : value := if truthy a then a else b.

Definition insert_bill (conn : database) (bill_data : dict value)
           (user : str) : database :=
  let statement_date :=
    or_else (dict_get bill_data (txt "statement_date"))
            (dict_get bill_data (txt "due_date")) in
  insert_or_ignore conn
    (fun new_id =>
       mkBill new_id user
         (to_text (dict_get bill_data (txt "bank_name")))
         (to_text (dict_get bill_data (txt "card_last4")))
         (to_text statement_date)
         (to_real (dict_get bill_data (txt "total_due")))
         (to_text (dict_get bill_data (txt "due_date")))
         (to_real (dict_get bill_data (txt "min_due")))
         (to_real (dict_get bill_data (txt "credit_limit")))
         (to_real (dict_get bill_data (txt "available_limit")))).

End Sqlite.

(** ** Configuration *)

(** An entry of [passwords.json]: one password, or a list to try. *)
Inductive secret : Type :=
| One (password : str)
| Several (passwords : list str).

Definition secret_truthy (p : secret) : bool :=
  match p with
  | One [] => false
  | Several [] => false
  | _ => true
  end.

(** [[line.strip() for line in f if line.strip()]]. *)
Definition statement_senders_of (lines : list str) : list str :=
  map strip (filter (fun line => negb (str_eqb (strip line) [])) lines).

(** The loops that fill [domain_to_bank]. *)
Definition domain_to_bank (banks statement_senders : list str) : dict str :=
  fold_left
    (fun d bank =>
       fold_left
         (fun d domain =>
            if contains bank domain || starts_with bank domain
            then dict_set d domain bank
            else d)
         statement_senders d)
    banks [].

(** The bank of the first domain found in the sender. *)
Fixpoint find_bank (items : dict str) (sender_lower : str) : option str :=
  match items with
  | [] => None
  | (domain, bank) :: rest =>
      if contains domain sender_lower then Some bank
      else find_bank rest sender_lower
  end.

(** ** One user's messages *)

Section Run.

Variable real_as_text : pyfloat -> str.
Variable text_as_real : str -> sqlvalue.

(** The temporary file: [open(path, 'wb')] with [f.write(data)], and
    [os.remove(path)]; either may raise. *)
Variable write_file : str -> list N -> outcome unit.
Variable remove_file : str -> outcome unit.

(** [_extract_text_from_pdf] on the temporary file, which holds the bytes
    of the attachment when [analyze_pdf] runs. *)
Variable read_document : list N -> str -> str -> option str.

Variable now : datetime.

(** [if parsed_data:]. *)
Definition accepted (parsed_data : option (dict value)) : bool :=
  match parsed_data with
  | Some (_ :: _) => true
  | _ => false
  end.

(** The loop over the passwords. *)
Fixpoint try_passwords (e : Gmail.email) (bank_name : str)
         (passwords_to_try : list str) (parsed_data : option (dict value))
  : outcome (option (dict value)) :=
  match passwords_to_try with
  | [] => Ok parsed_data
  | pwd :: rest =>
      let temp_pdf_path := txt "temp_" ++ Gmail.filename e in
      written <- write_file temp_pdf_path (Gmail.pdf_data e) ;;
      parsed_data <-
        analyze_pdf (read_document (Gmail.pdf_data e))
          now temp_pdf_path pwd bank_name ;;
      removed <- remove_file temp_pdf_path ;;
      if accepted parsed_data then Ok parsed_data
      else try_passwords e bank_name rest parsed_data
  end.

(** [d.get(k, default)]. *)
Definition get_default (d : dict value) (k : str) (default : value) : value :=
  match dict_lookup d k with
  | Some v => v
  | None => default
  end.

(** The body of the loop over the messages: the database and the cards
    parsed so far. *)
Definition process_email (domains : dict str) (user_passwords : dict secret)
           (user : str) (state : database * list (value * value))
           (e : Gmail.email) : outcome (database * list (value * value)) :=
  let '(conn, successful_cards) := state in
  let sender_lower := lower (Gmail.sender e) in
  match find_bank domains sender_lower with
  | None => Ok state
  | Some [] => Ok state
  | Some bank_name =>
      match dict_lookup user_passwords bank_name with
      | None => Ok state
      | Some password =>
          if negb (secret_truthy password) then Ok state
          else
            let passwords_to_try :=
              match password with
              | Several l => l
              | One p => [p]
              end in
            parsed_data <- try_passwords e bank_name passwords_to_try None ;;
            match parsed_data with
            | Some (entry :: entries) =>
                let parsed := entry :: entries in
                let card_num :=
                  get_default parsed (txt "card_last4") (VStr (txt "Unknown")) in
                let bank :=
                  get_default parsed (txt "bank_name") (VStr (txt "Unknown")) in
                Ok (insert_bill real_as_text text_as_real conn parsed user,
                    successful_cards ++ [(bank, card_num)])
            | _ => Ok state
            end
      end
  end.

Fixpoint process_emails (domains : dict str) (user_passwords : dict secret)
         (user : str) (state : database * list (value * value))
         (emails : list Gmail.email)
  : outcome (database * list (value * value)) :=
  match emails with
  | [] => Ok state
  | e :: rest =>
      state <- process_email domains user_passwords user state e ;;
      process_emails domains user_passwords user state rest
  end.

End Run.

End Main.

Import Datetime Float Parser.

(* ================================================================== *)
(** * Vocabulary of the properties *)
(* ================================================================== *)

(** The characters amount normalization deletes: the rupee and dollar
    signs, the comma and white space. *)
Definition rupee : N := 8377.

Definition strippable (c : N) : bool :=
  (c =? rupee)%N || (c =? chr "$")%N || (c =? chr ",")%N || is_space c.

(** [float(cleaned)] under [try ... except]. *)
Definition parse_decimal (cleaned : str) : option pyfloat :=
  match float_of_str cleaned with
  | Ok f => Some f
  | Raise => None
  end.

(** The date-only [datetime] [strptime] builds. *)
Definition date (y m d : Z) : datetime := mkDatetime y m d 0 0 0 0.

(** The keys of a record. *)
Definition k_card_last4 : str := txt "card_last4".
Definition k_statement_date : str := txt "statement_date".
Definition k_due_date : str := txt "due_date".
Definition k_total_due : str := txt "total_due".

(** The canonical format. *)
Definition iso_format : str := txt "%Y-%m-%d".

(** A pattern with at least one group (a pattern that does not compile
    never matches). *)
Definition pattern_has_group (p : str) : bool :=
  match Re.compile p with
  | Some (_, n) => Nat.leb 1 n
  | None => true
  end.

Definition has_key {V} (d : dict V) (k : str) : bool :=
  match dict_lookup d k with
  | Some _ => true
  | None => false
  end.

(** What [parse_pdf_content] relies on in a profile: it is not empty, it
    has the strategies it subscripts, and every strategy has a group. *)
Definition profile_ok (patterns : profile) : bool :=
  negb (Nat.eqb (List.length patterns) 0)
  && has_key patterns (txt "card_number")
  && has_key patterns (txt "due_date")
  && has_key patterns (txt "total_due")
  && forallb (fun f => forallb pattern_has_group (snd f)) patterns.

(** The strategies of a field, none when the profile has no such field. *)
Definition strategies (patterns : profile) (field : str) : list str :=
  match dict_lookup patterns field with
  | Some l => l
  | None => []
  end.

(** The record [parse_pdf_content] builds for a known institution, field
    by field: every field takes the last group of its match, the statement
    date the first. *)
Definition set_field (key : str) (m : option Re.Match)
           (pick : list (option str) -> option str)
           (norm : value -> value) (d : dict value) : dict value :=
  match m with
  | Some m => dict_set d key (norm (of_group (pick (Re.groups m))))
  | None => d
  end.

Definition first_of (gs : list (option str)) : option str := nth 0 gs None.
Definition last_of (gs : list (option str)) : option str := last gs None.

Definition norm_date (v : value) : value :=
  of_date (_clean_and_convert_date v None).
Definition norm_amount (v : value) : value :=
  of_amount (_clean_and_convert_amount v).

Definition record_of (text bank : str) (patterns : profile) : dict value :=
  let found field :=
    _extract_with_multiple_patterns text (strategies patterns field) in
  set_field (txt "available_limit") (found (txt "available_limit"))
    last_of norm_amount
  (set_field (txt "credit_limit") (found (txt "credit_limit"))
    last_of norm_amount
  (set_field (txt "min_due") (found (txt "min_due")) last_of norm_amount
  (set_field (txt "total_due") (found (txt "total_due")) last_of norm_amount
  (set_field (txt "due_date") (found (txt "due_date")) last_of norm_date
  (set_field (txt "statement_date") (found (txt "statement_date"))
    first_of norm_date
  (set_field (txt "card_last4") (found (txt "card_number"))
    last_of (fun v => v)
    [(txt "bank_name", VStr (upper bank))])))))).

(** The fields whose value is picked by the group-selection rule: the
    strategy list, the key of the record and the normalizer. *)
Definition selected_fields : list (str * str * (value -> value)) :=
  [ (txt "card_number", txt "card_last4", fun v => v);
    (txt "due_date", txt "due_date", norm_date);
    (txt "total_due", txt "total_due", norm_amount);
    (txt "min_due", txt "min_due", norm_amount);
    (txt "credit_limit", txt "credit_limit", norm_amount);
    (txt "available_limit", txt "available_limit", norm_amount) ].

(** The profile the catalog lookup finds for an identifier. *)
Definition profile_of (bank : str) : profile :=
  match dict_lookup catalog (lower bank) with
  | Some patterns => patterns
  | None => []
  end.

(** A field that is there and is not empty. *)
Definition present (record : dict value) (key : str) : Prop :=
  exists s, dict_lookup record key = Some (VStr s) /\ s <> [].

(** The content guard of [analyze_pdf] for ICICI. *)
Definition icici_guard (bank text : str) : bool :=
  str_eqb (lower bank) (txt "icici")
  && contains (txt "amortization schedule") (lower text).

(** The plausibility window as [_is_valid_date] computes it. *)
Definition in_window (now d : datetime) : Prop :=
  (year d <= year now + 2)%Z /\ (days (sub now d) <= 550)%Z.

(** A text reader that recovers [text] from every document. *)
Definition reads (text : str) : str -> str -> option str :=
  fun _ _ => Some text.

(** A statement of HDFC, and the time it is analyzed at. *)
Definition hdfc_statement (statement_date due_date : string) : str :=
  txt "HDFC Bank Credit Card 1234********5678 Statement Date "
  ++ txt statement_date ++ txt " Payment Due Date " ++ txt due_date
  ++ txt " Total Amount Due Rs.12,345.00".

Definition mid_january_2024 : datetime := mkDatetime 2024 1 15 10 0 0 0.

(** The separators of the date formats: [, - . /]. *)
Definition is_punct (c : N) : bool := in_range 44 47 c.

(** What a string keeps of each class of characters. *)
Definition digits_of (s : str) : str := filter is_digit s.
Definition letters_of (s : str) : str := filter is_alpha s.
Definition puncts_of (s : str) : str := filter is_punct s.

(** The text one directive of a format can match. *)
Definition piece (t : tok) (p : str) : Prop :=
  match t with
  | TDay | TMonth =>
      (exists a b, p = [a; b] /\ is_digit a = true /\ is_digit b = true)
      \/ (exists a, p = [a] /\ is_digit a = true)
      \/ (exists b, p = [chr " "; b] /\ is_digit b = true)
  | TYear => List.length p = 4%nat /\ forallb is_digit p = true
  | TAbbr => In (lower p) (map fst a_month)
  | TFull => In (lower p) (map fst f_month)
  | TSpaces => forallb is_space p = true
  | TLit c => exists x, p = [x] /\ ieqb x c = true
  end.

(** The separators a format asks for, in order. *)
Fixpoint separators (ts : list tok) : str :=
  match ts with
  | [] => []
  | TLit c :: ts' => c :: separators ts'
  | _ :: ts' => separators ts'
  end.

Definition literal_is_punct (t : tok) : bool :=
  match t with
  | TLit c => is_punct c
  | _ => true
  end.

(** The two formats that read a date with slashes. *)
Definition day_first : string := "%d/%m/%Y".
Definition month_first : string := "%m/%d/%Y".

(** Whether a format has a month name. *)
Definition has_name (ts : list tok) : bool :=
  existsb (fun t => match t with TAbbr | TFull => true | _ => false end) ts.

(** What tells the formats apart on a string they parse: the separators
    and the presence of letters. *)
Definition signature (ts : list tok) : str * bool :=
  (separators ts, has_name ts).

Definition signature_of (s : str) : str * bool :=
  (puncts_of s, negb (str_eqb (letters_of s) [])).


(** ** Vocabulary of the further properties *)

(** A calendar date at midnight, as [strptime] returns them. *)
Definition is_date (t : datetime) : Prop :=
  valid_ymd (year t) (month t) (day t) = true
  /\ t = date (year t) (month t) (day t).

(** The integers from [lo] to [lo + n - 1]. *)
Definition zrange (lo : Z) (n : nat) : list Z :=
  map (fun i => (lo + Z.of_nat i)%Z) (seq 0 n).

(** Whether [strptime] reads the month and the day back from the tail
    [-MM-DD] of a canonical date. *)
Definition tail_reads_back (m d : Z) : bool :=
  match run [TLit (chr "-"); TMonth; TLit (chr "-"); TDay]
            ([chr "-"] ++ pad2 m ++ [chr "-"] ++ pad2 d) with
  | Some ([_; pm; _; pd], []) =>
      match int_of_str pm, int_of_str pd with
      | Some vm, Some vd => (vm =? m)%Z && (vd =? d)%Z
      | _, _ => false
      end
  | _ => false
  end.

(** A time of day. *)
Definition valid_time (t : datetime) : Prop :=
  (0 <= hour t < 24 /\ 0 <= minute t < 60 /\ 0 <= second t < 60
   /\ 0 <= microsecond t < 1000000)%Z.

(** The keys of the amounts, and what each key of a record may hold. *)
Definition amount_keys : list str :=
  [txt "total_due"; txt "min_due"; txt "credit_limit"; txt "available_limit"].

Definition date_keys : list str := [txt "statement_date"; txt "due_date"].

Definition well_typed_entry (bank : str) (k : str) (v : value) : Prop :=
  (k = txt "bank_name" /\ v = VStr (upper bank))
  \/ (k = txt "card_last4" /\ (v = VNone \/ exists s, v = VStr s))
  \/ (In k date_keys
      /\ (v = VNone \/ exists t, is_date t /\ v = VStr (strftime_iso t)))
  \/ (In k amount_keys /\ (v = VNone \/ exists f, v = VFloat f)).

(** [analyze_pdf] without its second comparison of the two dates. *)
Definition accept_or_reject (now : datetime) (parsed : dict value)
  : option (dict value) :=
  if truthy (dict_get parsed k_card_last4)
     && truthy (dict_get parsed k_due_date)
     && _is_valid_date now (dict_get parsed k_due_date)
          (dict_get parsed k_statement_date)
  then Some parsed else None.

(** A record with distinct keys whose entries are well typed. *)
Definition typed_record (bank : str) (d : dict value) : Prop :=
  NoDup (map fst d) /\ forall k v, In (k, v) d -> well_typed_entry bank k v.

(** The text a run over pages gathers: each text that is not empty,
    followed by a new line, up to the first page that raises. *)
Fixpoint lines_of (ps : list Adapter.page) : str :=
  match ps with
  | Ok (Some (c :: t)) :: rest => (c :: t) ++ [chr "010"] ++ lines_of rest
  | Ok _ :: rest => lines_of rest
  | _ => []
  end.

Fixpoint raises (ps : list Adapter.page) : bool :=
  match ps with
  | [] => false
  | Raise :: _ => true
  | Ok _ :: rest => raises rest
  end.

(** The last bank of [banks] that occurs in a domain. *)
Definition last_bank_in (banks : list str) (domain : str) : option str :=
  find (fun bank => contains bank domain) (rev banks).

(** No two rows of a table have the same key [(user, card_last4,
    statement_date)]. *)
Definition unique_keys (rows : list Main.bill) : Prop :=
  ForallOrdPairs (fun a b => Main.conflicts a b = false) rows.

(** The key columns of the row [insert_bill] writes. *)
Definition card_of (real_as_text : pyfloat -> str) (bill_data : dict value)
  : option str :=
  Main.to_text real_as_text (dict_get bill_data (txt "card_last4")).

Definition statement_of (real_as_text : pyfloat -> str)
           (bill_data : dict value) : option str :=
  Main.to_text real_as_text
    (Main.or_else (dict_get bill_data (txt "statement_date"))
                  (dict_get bill_data (txt "due_date"))).

(** A REAL column that holds a number or NULL, no text. *)
Definition is_number (v : Main.sqlvalue) : Prop :=
  match v with
  | Main.SText _ => False
  | _ => True
  end.

(** A row of a user with a bank, a card, a due date and a statement
    date that is not after it, and numbers for amounts. *)
Definition complete_row (user : str) (b : Main.bill) : Prop :=
  Main.user b = user
  /\ (exists bank, Main.bank_name b = Some (upper bank))
  /\ (exists card, Main.card_last4 b = Some card /\ card <> [])
  /\ (exists due statement,
        is_date due /\ is_date statement
        /\ Main.due_date b = Some (strftime_iso due)
        /\ Main.statement_date b = Some (strftime_iso statement)
        /\ ltb due statement = false)
  /\ Forall is_number
       [Main.total_due b; Main.min_due b; Main.credit_limit b;
        Main.available_limit b].

(** [insert_bill] for each record of a list, in its order. *)
Definition insert_all (real_as_text : pyfloat -> str)
           (text_as_real : str -> Main.sqlvalue) (user : str)
           (records : list (dict value)) (conn : Main.database)
  : Main.database :=
  fold_left
    (fun conn bill_data =>
       Main.insert_bill real_as_text text_as_real conn bill_data user)
    records conn.

(** What the summary of a run shows for a record. *)
Definition shown (parsed : dict value) : value * value :=
  (Main.get_default parsed (txt "bank_name") (VStr (txt "Unknown")),
   Main.get_default parsed (txt "card_last4") (VStr (txt "Unknown"))).

(** The shape of a record that [analyze_pdf] accepts. *)
Definition accepted_shape (bank : str) (parsed : dict value) : Prop :=
  dict_get parsed (txt "bank_name") = VStr (upper bank)
  /\ (exists card,
        dict_get parsed (txt "card_last4") = VStr card /\ card <> [])
  /\ (exists due,
        is_date due
        /\ dict_get parsed (txt "due_date") = VStr (strftime_iso due)
        /\ (dict_get parsed (txt "statement_date") = VNone
            \/ exists statement,
                 is_date statement
                 /\ dict_get parsed (txt "statement_date")
                    = VStr (strftime_iso statement)
                 /\ ltb due statement = false))
  /\ (forall k, In k amount_keys ->
        dict_get parsed k = VNone \/ exists f, dict_get parsed k = VFloat f).

(** A row of the user with the card and the statement date of a record
    is in the table. *)
Definition stored (real_as_text : pyfloat -> str) (user : str)
           (bill_data : dict value) (rows : list Main.bill) : bool :=
  existsb
    (fun b =>
       str_eqb user (Main.user b)
       && Main.same_text (card_of real_as_text bill_data) (Main.card_last4 b)
       && Main.same_text (statement_of real_as_text bill_data)
            (Main.statement_date b))
    rows.

(** A reader that recovers [text] with one password only. *)
Definition locked (password text : str)
  : list N -> str -> str -> option str :=
  fun _ _ pwd => if str_eqb pwd password then Some text else None.

(** A message of HDFC with a statement attached, and a configuration
    for it. *)
Definition hdfc_message : Gmail.email :=
  Gmail.mkEmail [] (txt "statement.pdf")
    (txt "HDFC Bank <Statements@hdfcbank.net>") (txt "18c2").

Definition hdfc_domains : dict str :=
  Main.domain_to_bank [txt "hdfc"] [txt "hdfcbank.net"].

Definition hdfc_passwords : dict Main.secret :=
  [(txt "hdfc", Main.Several [txt "wrong"; txt "secret"])].

(** The attachments one message gives when it is read alone. *)
Definition attachments_of (get_message : str -> outcome Gmail.message)
           (get_attachment : str -> str -> outcome str)
           (urlsafe_b64decode : str -> outcome (list N)) (msg_id : str)
  : list Gmail.email :=
  match get_message msg_id with
  | Raise => []
  | Ok msg_data =>
      fst (Gmail.read_parts get_attachment urlsafe_b64decode msg_id
             (Gmail.sender_of (Gmail.headers msg_data))
             (Gmail.parts msg_data) [])
  end.

(** Where an attachment comes from: a part of a message found by the
    search, with a file name in [.pdf] and a body that was fetched and
    decoded. *)
Definition fetched_from (get_message : str -> outcome Gmail.message)
           (get_attachment : str -> str -> outcome str)
           (urlsafe_b64decode : str -> outcome (list N))
           (ids : list str) (e : Gmail.email) : Prop :=
  In (Gmail.message_id e) ids
  /\ Gmail.ends_with (txt ".pdf") (lower (Gmail.filename e)) = true
  /\ exists msg_data p attachment_id data,
       get_message (Gmail.message_id e) = Ok msg_data
       /\ Gmail.sender e = Gmail.sender_of (Gmail.headers msg_data)
       /\ In p (Gmail.parts msg_data)
       /\ Gmail.part_filename p = Some (Gmail.filename e)
       /\ Gmail.part_attachment_id p = Some attachment_id
       /\ attachment_id <> []
       /\ get_attachment (Gmail.message_id e) attachment_id = Ok data
       /\ urlsafe_b64decode data = Ok (Gmail.pdf_data e).

(** A mailbox with one message that can be fetched: it has a statement
    and a picture attached, and a second statement whose body cannot be
    fetched. *)
Definition inbox (msg_id : str) : outcome Gmail.message :=
  if str_eqb msg_id (txt "m1") then
    Ok (Gmail.mkMessage
          [(txt "To", txt "rahul@example.com");
           (txt "FROM", txt "HDFC Bank <statements@hdfcbank.net>")]
          [Gmail.mkPart (Some (txt "Statement.PDF")) (Some (txt "a1"));
           Gmail.mkPart (Some (txt "logo.png")) (Some (txt "a2"));
           Gmail.mkPart (Some (txt "old.pdf")) (Some (txt "a3"))])
  else Raise.

Definition inbox_attachment (msg_id attachment_id : str) : outcome str :=
  if str_eqb attachment_id (txt "a1") then Ok (txt "JVBERi0=") else Raise.

Definition inbox_decode (data : str) : outcome (list N) :=
  Ok [37; 80; 68; 70; 45]%N.

(** The month and the day of the day [n] (from 0) of a year, as
    [_ord2ymd] finds them. *)
Definition month_day (n : Z) (leapyear : bool) : Z * Z :=
  (let month := Z.shiftr (n + 50) 5 in
   let preceding :=
     days_before_month_table month
     + (if (2 <? month) && leapyear then 1 else 0) in
   let '(month, preceding) :=
     if n <? preceding then
       (month - 1,
        preceding
        - (Gmail.DAYS_IN_MONTH (month - 1)
           + (if (month - 1 =? 2) && leapyear then 1 else 0)))
     else (month, preceding) in
   (month, n - preceding + 1))%Z.

(** Whether [month_day] gives a day of a month of the year, the one
    with [n] days of the year before it. *)
Definition month_day_ok (n : Z) (leapyear : bool) : bool :=
  (let '(m, d) := month_day n leapyear in
   (1 <=? m) && (m <=? 12) && (1 <=? d)
   && (d <=? (if m =? 2 then (if leapyear then 29 else 28)
              else if (m =? 4) || (m =? 6) || (m =? 9) || (m =? 11) then 30
              else 31))
   && (days_before_month_table m
       + (if (2 <? m) && leapyear then 1 else 0) + d =? n + 1))%Z.

(** A pair of the summary that names a bank and a card. *)
Definition names_a_card (pair : value * value) : Prop :=
  exists bank card,
    pair = (VStr (upper bank), VStr card) /\ card <> [].

(* ================================================================== *)
(** * Properties *)
(* ================================================================== *)

(** ** Strings and dictionaries *)

Lemma str_eqb_eq (a b : str) : str_eqb a b = true <-> a = b.
Proof.
  revert b; induction a as [|x a IH]; intros [|y b]; simpl;
    try (split; [discriminate | congruence]); try tauto.
  rewrite andb_true_iff, N.eqb_eq, IH.
  split; [intros [-> ->]; reflexivity | intros H; inversion H; auto].
Qed.

Lemma str_eqb_refl (a : str) : str_eqb a a = true.
Proof. apply str_eqb_eq; reflexivity. Qed.

Lemma str_eqb_neq (a b : str) : str_eqb a b = false <-> a <> b.
Proof.
  rewrite <- str_eqb_eq. destruct (str_eqb a b); split; congruence.
Qed.

Lemma dict_lookup_set {V} (d : dict V) (k k' : str) (v : V) :
  dict_lookup (dict_set d k v) k'
  = if str_eqb k k' then Some v else dict_lookup d k'.
Proof.
  induction d as [|[k0 v0] d IH]; simpl.
  - reflexivity.
  - destruct (str_eqb k0 k) eqn:E0; simpl.
    + apply str_eqb_eq in E0; subst k0.
      destruct (str_eqb k k'); reflexivity.
    + destruct (str_eqb k0 k') eqn:E1.
      * apply str_eqb_eq in E1; subst k0.
        destruct (str_eqb k k') eqn:E2; [|reflexivity].
        apply str_eqb_eq in E2; subst k'.
        rewrite str_eqb_refl in E0; discriminate.
      * exact IH.
Qed.

Lemma dict_lookup_In {V} (d : dict V) (k : str) (v : V) :
  dict_lookup d k = Some v -> In v (map snd d).
Proof.
  induction d as [|[k0 v0] d IH]; simpl; [discriminate|].
  destruct (str_eqb k0 k); [intros [= ->]; now left | auto].
Qed.

(** ** The fallback matcher *)

Lemma extract_app_skip (text : str) (before after : list str) :
  (forall q, In q before -> forall m, Re.search q text <> Ok (Some m)) ->
  _extract_with_multiple_patterns text (before ++ after)
  = _extract_with_multiple_patterns text after.
Proof.
  induction before as [|q before IH]; simpl; intros H; [reflexivity|].
  destruct (Re.search q text) as [[m|]|] eqn:E.
  - exfalso. exact (H q (or_introl eq_refl) m E).
  - apply IH. intros; apply H; now right.
  - apply IH. intros; apply H; now right.
Qed.

Lemma extract_found (text : str) (patterns : list str) (m : Re.Match) :
  _extract_with_multiple_patterns text patterns = Some m ->
  exists before p after,
    patterns = before ++ p :: after
    /\ (forall q, In q before -> forall m', Re.search q text <> Ok (Some m'))
    /\ Re.search p text = Ok (Some m).
Proof.
  induction patterns as [|q ps IH]; simpl; [discriminate|].
  destruct (Re.search q text) as [[m'|]|] eqn:E.
  - intros [= ->]. exists [], q, ps.
    split; [reflexivity|]. split; [intros ? []|assumption].
  - intros H. destruct (IH H) as (b & p & a & -> & Hb & Hp).
    exists (q :: b), p, a. repeat split; auto.
    intros q' [<-|Hin] m'; [congruence | now apply Hb].
  - intros H. destruct (IH H) as (b & p & a & -> & Hb & Hp).
    exists (q :: b), p, a. repeat split; auto.
    intros q' [<-|Hin] m'; [congruence | now apply Hb].
Qed.

(** C6.  [_extract_with_multiple_patterns] tries the strategies of a field
    in the listed order and keeps the first that matches: when no strategy
    listed before [p] matches the text and [p] does, the match returned for
    the whole list is the match of [p], whatever is listed after it (so a
    later, more generic strategy that also matches has no say), and it is
    what [p] alone produces. *)
Theorem C6_first_matching_strategy_wins
        (text : str) (before after : list str) (p : str) (m : Re.Match) :
  (forall q, In q before -> forall m', Re.search q text <> Ok (Some m')) ->
  Re.search p text = Ok (Some m) ->
  _extract_with_multiple_patterns text (before ++ p :: after) = Some m
  /\ _extract_with_multiple_patterns text [p] = Some m.
Proof.
  intros Hbefore Hp.
  rewrite extract_app_skip by exact Hbefore.
  simpl. rewrite Hp. split; reflexivity.
Qed.

(** ** Arithmetic of character classes *)

Ltac nbool :=
  repeat (rewrite ?orb_true_iff, ?orb_false_iff, ?andb_true_iff,
           ?andb_false_iff, ?negb_true_iff, ?negb_false_iff,
           ?N.eqb_eq, ?N.eqb_neq, ?N.leb_le, ?N.leb_gt in *).

Lemma upper_not_space (c : N) :
  is_upper c = true -> is_space c = false /\ is_space (c + 32) = false.
Proof.
  unfold is_upper, is_space, in_range. intros H. nbool. lia.
Qed.

Lemma lower_not_space (c : N) :
  is_lower c = true -> is_space c = false /\ is_space (c - 32) = false.
Proof.
  unfold is_lower, is_space, in_range. intros H. nbool. lia.
Qed.

Lemma is_space_lower_char (c : N) : is_space (lower_char c) = is_space c.
Proof.
  unfold lower_char. destruct (is_upper c) eqn:E; [|reflexivity].
  destruct (upper_not_space c E) as [-> ->]. reflexivity.
Qed.

Lemma is_space_upper_char (c : N) : is_space (upper_char c) = is_space c.
Proof.
  unfold upper_char. destruct (is_lower c) eqn:E; [|reflexivity].
  destruct (lower_not_space c E) as [-> ->]. reflexivity.
Qed.

(** Folding the case of [c] cannot reach a character that is no letter. *)
Lemma lower_char_eqb (c x : N) :
  is_alpha x = false -> (lower_char c =? x)%N = (c =? x)%N.
Proof.
  unfold lower_char, is_alpha, is_upper, is_lower, in_range. intros H.
  destruct ((65 <=? c)%N && (c <=? 90)%N) eqn:E; [|reflexivity].
  destruct (N.eqb_spec (c + 32) x), (N.eqb_spec c x); try reflexivity;
    exfalso; nbool; lia.
Qed.

Lemma upper_char_eqb (c x : N) :
  is_alpha x = false -> (upper_char c =? x)%N = (c =? x)%N.
Proof.
  unfold upper_char, is_alpha, is_upper, is_lower, in_range. intros H.
  destruct ((97 <=? c)%N && (c <=? 122)%N) eqn:E; [|reflexivity].
  destruct (N.eqb_spec (c - 32) x), (N.eqb_spec c x); try reflexivity;
    exfalso; nbool; lia.
Qed.

(** ** Amount normalization *)

Lemma amount_set_mem (c : N) :
  Re.set_mem [Re.CChar rupee; Re.CChar (chr "$"); Re.CChar (chr ","); Re.CSpace] c
  = strippable c.
Proof.
  unfold Re.set_mem, strippable; simpl.
  rewrite !lower_char_eqb, !upper_char_eqb by reflexivity.
  rewrite is_space_lower_char, is_space_upper_char.
  destruct (is_space c);
    repeat match goal with
           | |- context [(c =? ?x)%N] => destruct (c =? x)%N
           end; reflexivity.
Qed.

Lemma sub_empty_amount (s : str) :
  Re.sub_empty (txt "[₹$,\s]") s = Ok (filter (fun c => negb (strippable c)) s).
Proof.
  unfold Re.sub_empty.
  replace (Re.compile (txt "[₹$,\s]"))
    with (Some (Re.CSet false [Re.CChar rupee; Re.CChar (chr "$");
                               Re.CChar (chr ","); Re.CSpace], 0%nat))
    by (vm_compute; reflexivity).
  f_equal. apply filter_ext. intros c.
  now rewrite xorb_false_l, amount_set_mem.
Qed.

Lemma clean_amount_str (c : N) (s : str) :
  _clean_and_convert_amount (VStr (c :: s))
  = parse_decimal (filter (fun x => negb (strippable x)) (c :: s)).
Proof.
  unfold _clean_and_convert_amount, parse_decimal.
  change (negb (truthy (VStr (c :: s)))) with false. cbv iota.
  rewrite sub_empty_amount. reflexivity.
Qed.

(** C9.  [_clean_and_convert_amount] deletes the currency glyphs, the
    thousands separators and all white space and reads what is left as a
    number with [float] (decimal digits with an optional point and
    exponent, and the words [float] knows): the three spellings of
    123456.78 give the same value, which is 123456.78 (12345678
    hundredths); and a string whose remainder [float] does not read gives
    [None].  The function is total: the [ValueError] of [float] is the
    [None] of the result. *)
Theorem C9_amount_normalization :
  (forall s, s <> [] ->
     _clean_and_convert_amount (VStr s)
     = parse_decimal (filter (fun c => negb (strippable c)) s))
  /\ _clean_and_convert_amount (VStr (txt "₹1,23,456.78"))
     = Some (Finite false 12345678 (-2))
  /\ _clean_and_convert_amount (VStr (txt "1,23,456.78"))
     = Some (Finite false 12345678 (-2))
  /\ _clean_and_convert_amount (VStr (txt "123456.78"))
     = Some (Finite false 12345678 (-2))
  /\ float_of_str (txt "123456.78") = Ok (Finite false 12345678 (-2))
  /\ (forall s,
        float_of_str (filter (fun c => negb (strippable c)) s) = Raise ->
        _clean_and_convert_amount (VStr s) = None).
Proof.
  split; [|repeat split; try (vm_compute; reflexivity)].
  - intros [|c s] H; [congruence | apply clean_amount_str].
  - intros [|c s] H; [reflexivity|].
    rewrite clean_amount_str. unfold parse_decimal. now rewrite H.
Qed.

(** A string of the second kind, and one of the first. *)
Lemma C9_amount_normalization_witness :
  _clean_and_convert_amount (VStr (txt "Rs.12,345.00")) = None
  /\ _clean_and_convert_amount (VStr (txt "$ 1,000.50"))
     = parse_decimal (txt "1000.50").
Proof.
  destruct C9_amount_normalization as (Hclean & _ & _ & _ & _ & Hnone).
  split.
  - apply Hnone. vm_compute. reflexivity.
  - rewrite Hclean by discriminate. vm_compute. reflexivity.
Defined.

(** ** Unknown institutions *)

Lemma parse_unknown (text bank : str) :
  dict_lookup catalog (lower bank) = None ->
  parse_pdf_content text bank = Ok [].
Proof. unfold parse_pdf_content. intros ->. reflexivity. Qed.

(** C7.  For an institution identifier the catalog lookup does not know
    (the lookup is by the lower-cased identifier), [parse_pdf_content]
    returns the empty mapping and [analyze_pdf] returns [None], whatever
    the text says. *)
Theorem C7_unknown_institution_rejected (bank : str) :
  dict_lookup catalog (lower bank) = None ->
  (forall text, parse_pdf_content text bank = Ok [])
  /\ (forall extract now pdf_path password,
        analyze_pdf extract now pdf_path password bank = Ok None).
Proof.
  intros Hunknown. split.
  - intros text. now apply parse_unknown.
  - intros extract now pdf_path password. unfold analyze_pdf.
    destruct (extract pdf_path password) as [[|c text]|]; try reflexivity.
    destruct (str_eqb (lower bank) (txt "icici")
              && contains (txt "amortization schedule") (lower (c :: text)));
      [reflexivity|].
    rewrite (parse_unknown (c :: text) bank Hunknown). reflexivity.
Qed.

Lemma C7_unknown_institution_rejected_witness :
  parse_pdf_content
    (txt "Card 1234********5678 Payment Due Date 05/02/2024") (txt "Amex")
  = Ok []
  /\ analyze_pdf
       (fun _ _ => Some (txt "Card 1234********5678 Payment Due Date 05/02/2024"))
       (mkDatetime 2024 1 20 9 0 0 0) (txt "amex.pdf") (txt "secret")
       (txt "Amex")
     = Ok None.
Proof.
  assert (H : dict_lookup catalog (lower (txt "Amex")) = None)
    by (vm_compute; reflexivity).
  destruct (C7_unknown_institution_rejected (txt "Amex") H) as [Hp Ha].
  split; [apply Hp | apply Ha].
Defined.

(** The due-date strategies of Kotak on a text that the second and the
    third strategy match with different dates: the second wins. *)
Lemma C6_first_matching_strategy_wins_witness :
  let text := txt "Pay by 05-Feb-2024. Due 06-Mar-2024" in
  let m := Re.mkMatch [Some (txt "05-Feb-2024")] in
  Re.search (txt "Due.*?(\d{2}-\w{3}-\d{4})") text
  = Ok (Some (Re.mkMatch [Some (txt "06-Mar-2024")]))
  /\ _extract_with_multiple_patterns text
       ([txt "Remember to pay by (\d{2}-\w{3}-\d{4})"]
          ++ txt "Pay by (\d{2}-\w{3}-\d{4})"
          :: [txt "Due.*?(\d{2}-\w{3}-\d{4})";
              txt "Payment.*?(\d{2}/\d{2}/\d{4})"]) = Some m
  /\ _extract_with_multiple_patterns text
       [txt "Pay by (\d{2}-\w{3}-\d{4})"] = Some m.
Proof.
  intros text m. split; [vm_compute; reflexivity|].
  apply C6_first_matching_strategy_wins.
  - intros q [<-|[]] m'. vm_compute. discriminate.
  - vm_compute. reflexivity.
Defined.

(** ** Date normalization: the ordered formats *)

Lemma try_formats_skip (s : str) (before after : list string) :
  (forall g, In g before -> strptime s (txt g) = Raise) ->
  try_formats s (before ++ after) = try_formats s after.
Proof.
  induction before as [|g before IH]; simpl; intros H; [reflexivity|].
  unfold try_format at 1. rewrite (H g (or_introl eq_refl)).
  apply IH. intros; apply H; now right.
Qed.

Lemma try_formats_none (s : str) (fmts : list string) :
  (forall g, In g fmts -> strptime s (txt g) = Raise) ->
  try_formats s fmts = None.
Proof.
  intros H. rewrite <- (app_nil_r fmts). now rewrite try_formats_skip.
Qed.

Lemma strptime_empty (g : string) :
  In g DATE_FORMATS -> strptime [] (txt g) = Raise.
Proof.
  unfold DATE_FORMATS. intros H.
  repeat (destruct H as [<-|H]; [vm_compute; reflexivity|]). destruct H.
Qed.

Lemma clean_date_str (c : N) (s : str) :
  _clean_and_convert_date (VStr (c :: s)) None
  = try_formats (c :: s) DATE_FORMATS.
Proof. reflexivity. Qed.

(** C8.  [_clean_and_convert_date] tries [DATE_FORMATS] in order and
    returns the [YYYY-MM-DD] rendering of the date that the first format
    that parses the string reads; when no format parses it the result is
    [None].  Every [ValueError] of [strptime] is caught: the function
    returns for every string. *)
Theorem C8_first_parsing_format (raw : str) :
  (forall before fmt after t,
     DATE_FORMATS = before ++ fmt :: after ->
     (forall g, In g before -> strptime raw (txt g) = Raise) ->
     strptime raw (txt fmt) = Ok t ->
     _clean_and_convert_date (VStr raw) None = Some (strftime_iso t))
  /\ ((forall g, In g DATE_FORMATS -> strptime raw (txt g) = Raise) ->
      _clean_and_convert_date (VStr raw) None = None).
Proof.
  split.
  - intros before fmt after t Hsplit Hbefore Hfmt.
    destruct raw as [|c s].
    + rewrite strptime_empty in Hfmt; [discriminate|].
      rewrite Hsplit. apply in_elt.
    + rewrite clean_date_str, Hsplit, try_formats_skip by exact Hbefore.
      simpl. unfold try_format. now rewrite Hfmt.
  - intros Hnone. destruct raw as [|c s]; [reflexivity|].
    rewrite clean_date_str. now apply try_formats_none.
Qed.

(** A date that only the fourth format reads, and a string that none
    reads. *)
Lemma C8_first_parsing_format_witness :
  _clean_and_convert_date (VStr (txt "15-Jan-2024")) None
  = Some (txt "2024-01-15")
  /\ _clean_and_convert_date (VStr (txt "15 Xyz 2024")) None = None.
Proof.
  split.
  - apply (proj1 (C8_first_parsing_format (txt "15-Jan-2024"))
             ["%d %b %Y"; "%d/%m/%Y"; "%d-%m-%Y"]%string
             "%d-%b-%Y"%string
             ["%B %d, %Y"; "%d %B %Y"; "%Y-%m-%d"; "%m/%d/%Y"; "%d.%m.%Y"]%string
             (date 2024 1 15)).
    + reflexivity.
    + intros g H.
      repeat (destruct H as [<-|H]; [vm_compute; reflexivity|]). destruct H.
    + vm_compute. reflexivity.
  - apply (proj2 (C8_first_parsing_format (txt "15 Xyz 2024"))).
    intros g H. unfold DATE_FORMATS in H.
    repeat (destruct H as [<-|H]; [vm_compute; reflexivity|]). destruct H.
Defined.

(** ** The catalog and the groups of a match *)

Lemma catalog_ok : forallb (fun b => profile_ok (snd b)) catalog = true.
Proof. vm_compute. reflexivity. Qed.

Lemma known_profile_ok (key : str) (patterns : profile) :
  dict_lookup catalog key = Some patterns -> profile_ok patterns = true.
Proof.
  intros H. apply dict_lookup_In in H. apply in_map_iff in H.
  destruct H as (b & <- & Hb).
  pose proof catalog_ok as Hok. rewrite forallb_forall in Hok.
  now apply Hok.
Qed.

Lemma scan_groups (a : Re.regex) (n : nat) (s : str) (m : Re.Match) :
  Re.scan a n s = Some m -> List.length (Re.groups m) = n.
Proof.
  assert (Hhere : forall s', Re.match_here a n s' = Some m ->
                         List.length (Re.groups m) = n).
  { intros s'. unfold Re.match_here.
    destruct (Re.exec a s' [] _) as [[rest cs]|]; [|discriminate].
    intros [= <-]. simpl. now rewrite length_map, length_seq. }
  induction s as [|c s IH]; simpl.
  - destruct (Re.match_here a n []) eqn:E; [|discriminate].
    intros [= ->]. eauto.
  - destruct (Re.match_here a n (c :: s)) eqn:E; [|exact IH].
    intros [= ->]. eauto.
Qed.

Lemma search_groups (p text : str) (m : Re.Match) :
  Re.search p text = Ok (Some m) ->
  pattern_has_group p = true -> 1 <= List.length (Re.groups m).
Proof.
  unfold Re.search, pattern_has_group.
  destruct (Re.compile p) as [[a n]|]; [|discriminate].
  intros [= H] Hn. apply scan_groups in H. apply Nat.leb_le in Hn. lia.
Qed.

Lemma extract_groups (text : str) (patterns : list str) (m : Re.Match) :
  forallb pattern_has_group patterns = true ->
  _extract_with_multiple_patterns text patterns = Some m ->
  1 <= List.length (Re.groups m).
Proof.
  intros Hall H. destruct (extract_found _ _ _ H) as (b & p & a & -> & _ & Hp).
  rewrite forallb_forall in Hall.
  apply (search_groups _ _ _ Hp). apply Hall. apply in_elt.
Qed.

Lemma strategies_have_groups (patterns : profile) (field : str) :
  profile_ok patterns = true ->
  forallb pattern_has_group (strategies patterns field) = true.
Proof.
  unfold profile_ok, strategies. rewrite !andb_true_iff.
  intros (_ & Hall). destruct (dict_lookup patterns field) as [l|] eqn:E;
    [|reflexivity].
  rewrite forallb_forall in Hall.
  induction patterns as [|[k v] ps IH]; simpl in E; [discriminate|].
  destruct (str_eqb k field).
  - injection E as ->. apply (Hall (k, l)). now left.
  - apply IH; [intros x Hx; apply Hall; now right | exact E].
Qed.

Lemma last_group_last (gs : list (option str)) :
  1 <= List.length gs -> last_group gs = Ok (last_of gs).
Proof.
  unfold last_group, last_of. intros H.
  destruct gs as [|g gs] using rev_ind; [simpl in H; lia|].
  rewrite rev_app_distr, last_last. reflexivity.
Qed.

Lemma select_group_last (gs : list (option str)) :
  1 <= List.length gs -> select_group gs = Ok (last_of gs).
Proof.
  intros H. unfold select_group.
  destruct (Nat.eqb (List.length gs) 1) eqn:E; [|now apply last_group_last].
  apply Nat.eqb_eq in E. destruct gs as [|g [|g' gs]]; try discriminate.
  reflexivity.
Qed.

Lemma group_one_first (m : Re.Match) :
  1 <= List.length (Re.groups m) -> Re.group m 1 = Ok (first_of (Re.groups m)).
Proof.
  unfold Re.group, first_of. destruct (Re.groups m); simpl; [lia|reflexivity].
Qed.

(** ** The record of a known institution *)

Lemma subscript_strategies (patterns : profile) (k : str) :
  has_key patterns k = true -> subscript patterns k = Ok (strategies patterns k).
Proof.
  unfold has_key, subscript, strategies.
  destruct (dict_lookup patterns k); [reflexivity | discriminate].
Qed.

Lemma parse_optional_fold (text : str) (patterns : profile) :
  profile_ok patterns = true ->
  forall fields d,
    parse_optional text patterns fields d
    = Ok (fold_left
            (fun d f =>
               set_field f
                 (_extract_with_multiple_patterns text (strategies patterns f))
                 last_of norm_amount d)
            fields d).
Proof.
  intros Hok fields. induction fields as [|f fields IH]; intros d; simpl.
  - reflexivity.
  - pose proof (strategies_have_groups patterns f Hok) as Hg.
    unfold strategies in *.
    destruct (dict_lookup patterns f) as [l|].
    + destruct (_extract_with_multiple_patterns text l) as [m|] eqn:E.
      * rewrite (select_group_last _ (extract_groups _ _ _ Hg E)).
        simpl. apply IH.
      * apply IH.
    + simpl. apply IH.
Qed.

Lemma card_choice (gs : list (option str)) (d : dict value) (k : str) :
  1 <= List.length gs ->
  (if Nat.eqb (List.length gs) 1
   then g <- item gs 0 ;; Ok (dict_set d k (of_group g))
   else if Nat.ltb 1 (List.length gs)
        then g <- last_group gs ;; Ok (dict_set d k (of_group g))
        else Ok d)
  = Ok (dict_set d k (of_group (last_of gs))).
Proof.
  intros H. destruct (Nat.eqb (List.length gs) 1) eqn:E.
  - apply Nat.eqb_eq in E. destruct gs as [|g [|g' gs]]; try discriminate.
    reflexivity.
  - apply Nat.eqb_neq in E.
    replace (Nat.ltb 1 (List.length gs)) with true
      by (symmetry; apply Nat.ltb_lt; lia).
    now rewrite last_group_last.
Qed.

Lemma parse_known (text bank : str) (patterns : profile) :
  dict_lookup catalog (lower bank) = Some patterns ->
  parse_pdf_content text bank = Ok (record_of text bank patterns).
Proof.
  intros Hl. pose proof (known_profile_ok _ _ Hl) as Hok.
  pose proof (strategies_have_groups patterns) as Hg.
  unfold parse_pdf_content. rewrite Hl.
  destruct patterns as [|e ps]; [discriminate Hok|].
  cbv beta iota. remember (e :: ps) as patterns eqn:Ep. clear Ep e ps Hl.
  pose proof Hok as Hkeys. unfold profile_ok in Hkeys.
  rewrite !andb_true_iff in Hkeys.
  destruct Hkeys as ((((_ & Hcard) & Hdue) & Htotal) & _).
  rewrite !subscript_strategies by assumption.
  unfold record_of.
  cbn [bind].
  fold (strategies patterns (txt "statement_date")).
  destruct (_extract_with_multiple_patterns text
              (strategies patterns (txt "card_number"))) as [mc|] eqn:Ec;
    [rewrite (card_choice _ _ _ (extract_groups _ _ _ (Hg _ Hok) Ec))|];
    cbn [bind set_field];
    (destruct (_extract_with_multiple_patterns text
                 (strategies patterns (txt "statement_date"))) as [ms|] eqn:Es;
     [rewrite (group_one_first _ (extract_groups _ _ _ (Hg _ Hok) Es))|]);
    cbn [bind set_field];
    (destruct (_extract_with_multiple_patterns text
                 (strategies patterns (txt "due_date"))) as [md|] eqn:Ed;
     [rewrite (select_group_last _ (extract_groups _ _ _ (Hg _ Hok) Ed))|]);
    cbn [bind set_field];
    (destruct (_extract_with_multiple_patterns text
                 (strategies patterns (txt "total_due"))) as [mt|] eqn:Et;
     [rewrite (select_group_last _ (extract_groups _ _ _ (Hg _ Hok) Et))|]);
    cbn [bind set_field];
    rewrite (parse_optional_fold text patterns Hok); reflexivity.
Qed.

Lemma lookup_set_field (key k : str) (m : option Re.Match)
      (pick : list (option str) -> option str) (norm : value -> value)
      (d : dict value) :
  dict_lookup (set_field key m pick norm d) k
  = match m with
    | Some m =>
        if str_eqb key k then Some (norm (of_group (pick (Re.groups m))))
        else dict_lookup d k
    | None => dict_lookup d k
    end.
Proof. destruct m; simpl; [apply dict_lookup_set | reflexivity]. Qed.

(** Comparison of two literal keys. *)
Ltac eval_keys :=
  repeat match goal with
         | |- context [str_eqb (txt ?a) (txt ?b)] =>
             let v := eval vm_compute in (str_eqb (txt a) (txt b)) in
             replace (str_eqb (txt a) (txt b)) with v
               by (vm_compute; reflexivity)
         end.

Ltac record_lookup :=
  unfold record_of; rewrite !lookup_set_field; eval_keys;
  repeat match goal with
         | |- context [_extract_with_multiple_patterns ?t ?l] =>
             destruct (_extract_with_multiple_patterns t l)
         end; reflexivity.

Lemma record_statement_date (text bank : str) (patterns : profile) :
  dict_lookup (record_of text bank patterns) (txt "statement_date")
  = option_map (fun m => norm_date (of_group (first_of (Re.groups m))))
      (_extract_with_multiple_patterns text
         (strategies patterns (txt "statement_date"))).
Proof. record_lookup. Qed.

Lemma record_selected (text bank : str) (patterns : profile)
      (field key : str) (norm : value -> value) :
  In (field, key, norm) selected_fields ->
  dict_lookup (record_of text bank patterns) key
  = option_map (fun m => norm (of_group (last_of (Re.groups m))))
      (_extract_with_multiple_patterns text (strategies patterns field)).
Proof.
  unfold selected_fields. intros H.
  repeat (destruct H as [[= <- <- <-]|H]; [record_lookup|]). destruct H.
Qed.

(** C5.  Group selection in [parse_pdf_content]: for the card number, the
    due date, the total due and the three optional amounts, the value
    stored under the field's key is the normalized text of the only group
    of the strategy's match when it has exactly one group, and of its last
    group when it has more than one. *)
Theorem C5_group_selection (text bank : str) (patterns : profile)
        (field key : str) (norm : value -> value) (m : Re.Match) :
  dict_lookup catalog (lower bank) = Some patterns ->
  In (field, key, norm) selected_fields ->
  _extract_with_multiple_patterns text (strategies patterns field) = Some m ->
  exists record,
    parse_pdf_content text bank = Ok record
    /\ (forall g, Re.groups m = [g] ->
          dict_lookup record key = Some (norm (of_group g)))
    /\ (1 < List.length (Re.groups m) ->
        dict_lookup record key
        = Some (norm (of_group (last (Re.groups m) None)))).
Proof.
  intros Hbank Hfield Hm. exists (record_of text bank patterns).
  split; [now apply parse_known|].
  rewrite (record_selected text bank patterns field key norm Hfield), Hm.
  simpl. split.
  - intros g ->. reflexivity.
  - intros _. reflexivity.
Qed.

(** The card strategies of Axis have two groups, the due-date strategies
    of HDFC one. *)
Lemma C5_group_selection_witness :
  (exists record,
     parse_pdf_content (txt "Card No 123456******7890") (txt "axis")
     = Ok record
     /\ dict_lookup record k_card_last4 = Some (VStr (txt "7890")))
  /\ (exists record,
        parse_pdf_content (txt "Payment Due Date: 05/02/2024") (txt "hdfc")
        = Ok record
        /\ dict_lookup record k_due_date = Some (VStr (txt "2024-02-05"))).
Proof.
  split.
  - destruct (C5_group_selection
                (txt "Card No 123456******7890") (txt "axis")
                (profile_of (txt "axis"))
                (txt "card_number") (txt "card_last4") (fun v => v)
                (Re.mkMatch [Some (txt "123456"); Some (txt "7890")]))
      as (record & Hparse & _ & Hlast).
    + vm_compute. reflexivity.
    + left. reflexivity.
    + vm_compute. reflexivity.
    + exists record. split; [exact Hparse|].
      apply Hlast. simpl. lia.
  - destruct (C5_group_selection
                (txt "Payment Due Date: 05/02/2024") (txt "hdfc")
                (profile_of (txt "hdfc"))
                (txt "due_date") (txt "due_date") norm_date
                (Re.mkMatch [Some (txt "05/02/2024")]))
      as (record & Hparse & Hone & _).
    + vm_compute. reflexivity.
    + right. left. reflexivity.
    + vm_compute. reflexivity.
    + exists record. split; [exact Hparse|].
      exact (Hone (Some (txt "05/02/2024")) eq_refl).
Defined.

(** ** The validator and the orchestrator *)

Lemma truthy_str (v : value) :
  truthy v = true ->
  (exists s, v = VStr s /\ s <> []) \/ (exists f, v = VFloat f).
Proof.
  destruct v as [|s|f]; simpl; [discriminate| |right; eauto].
  intros H. left. exists s. split; [reflexivity|].
  intros ->. discriminate.
Qed.

Lemma is_valid_date_inv (now : datetime) (due stmt : value) :
  _is_valid_date now due stmt = true ->
  exists s d,
    due = VStr s /\ s <> [] /\ strptime s iso_format = Ok d
    /\ (year d <= year now + 2)%Z
    /\ (days (sub now d) <= 550)%Z
    /\ (truthy stmt = true ->
        exists ss ds,
          stmt = VStr ss /\ strptime ss iso_format = Ok ds
          /\ ltb d ds = false).
Proof.
  unfold _is_valid_date.
  destruct (truthy due) eqn:Et; simpl negb; cbv iota; [|discriminate].
  destruct (truthy_str due Et) as [(s & -> & Hs)|(f & ->)];
    simpl strptime_value; cbv iota; [|discriminate].
  fold iso_format.
  destruct (strptime s iso_format) as [d|] eqn:Ep; [|discriminate].
  destruct (year now + 2 <? year d)%Z eqn:Ey; [discriminate|].
  destruct (550 <? days (sub now d))%Z eqn:Ed; [discriminate|].
  apply Z.ltb_ge in Ey, Ed.
  intros H. exists s, d.
  split; [reflexivity|]. split; [exact Hs|]. split; [exact Ep|].
  split; [exact Ey|]. split; [exact Ed|].
  intros Hstmt. rewrite Hstmt in H.
  destruct (truthy_str stmt Hstmt) as [(ss & -> & Hss)|(f & ->)];
    simpl strptime_value in H; [|discriminate].
  destruct (strptime ss iso_format) as [ds|] eqn:Es; [|discriminate].
  exists ss, ds. split; [reflexivity|]. split; [exact Es|].
  destruct (ltb d ds); [discriminate | reflexivity].
Qed.

Lemma parse_pdf_content_returns (text bank : str) :
  exists record, parse_pdf_content text bank = Ok record.
Proof.
  destruct (dict_lookup catalog (lower bank)) as [patterns|] eqn:E.
  - exists (record_of text bank patterns). now apply parse_known.
  - exists []. now apply parse_unknown.
Qed.

Section Orchestrator.

Variable extract : str -> str -> option str.
Variable now : datetime.
Variables pdf_path password bank : str.

Lemma analyze_pdf_returns :
  exists answer, analyze_pdf extract now pdf_path password bank = Ok answer.
Proof.
  unfold analyze_pdf.
  destruct (extract pdf_path password) as [[|c text]|]; try (eexists; reflexivity).
  destruct (str_eqb (lower bank) (txt "icici") && _); [eexists; reflexivity|].
  destruct (parse_pdf_content_returns (c :: text) bank) as [record ->].
  cbn [bind].
  destruct (filter _ _); [|eexists; reflexivity].
  destruct (negb _); [eexists; reflexivity|].
  destruct (due_before_statement _ _); eexists; reflexivity.
Qed.

Lemma analyze_accept_inv (record : dict value) :
  analyze_pdf extract now pdf_path password bank = Ok (Some record) ->
  exists text,
    extract pdf_path password = Some text
    /\ parse_pdf_content text bank = Ok record
    /\ truthy (dict_get record k_card_last4) = true
    /\ truthy (dict_get record k_due_date) = true
    /\ _is_valid_date now (dict_get record k_due_date)
         (dict_get record k_statement_date) = true.
Proof.
  unfold analyze_pdf.
  destruct (extract pdf_path password) as [[|c text]|]; try discriminate.
  destruct (str_eqb (lower bank) (txt "icici") && _); [discriminate|].
  destruct (parse_pdf_content (c :: text) bank) as [parsed|] eqn:Ep;
    [|discriminate].
  cbn [bind filter].
  fold k_card_last4 k_due_date k_statement_date.
  destruct (truthy (dict_get parsed k_card_last4)) eqn:Ec;
    destruct (truthy (dict_get parsed k_due_date)) eqn:Ed;
    simpl negb; cbv iota; try discriminate.
  destruct (_is_valid_date now _ _) eqn:Ev; simpl negb; cbv iota;
    [|discriminate].
  destruct (due_before_statement _ _); [discriminate|].
  intros [= <-]. exists (c :: text). auto.
Qed.

Lemma analyze_missing (text : str) (parsed : dict value) :
  extract pdf_path password = Some text ->
  parse_pdf_content text bank = Ok parsed ->
  truthy (dict_get parsed k_card_last4) = false
  \/ truthy (dict_get parsed k_due_date) = false ->
  analyze_pdf extract now pdf_path password bank = Ok None.
Proof.
  intros He Hp Hmissing. unfold analyze_pdf. rewrite He.
  destruct text as [|c text]; [reflexivity|].
  destruct (str_eqb (lower bank) (txt "icici") && _); [reflexivity|].
  rewrite Hp. cbn [bind filter].
  fold k_card_last4 k_due_date k_statement_date.
  destruct Hmissing as [-> | ->]; simpl negb; cbv iota.
  - reflexivity.
  - destruct (negb (truthy (dict_get parsed k_card_last4))); reflexivity.
Qed.

End Orchestrator.

(** ** What the date and identifier fields hold *)

Lemma try_formats_canonical (s : str) (fmts : list string) (iso : str) :
  try_formats s fmts = Some iso -> exists t, iso = strftime_iso t.
Proof.
  induction fmts as [|f fmts IH]; simpl; [discriminate|].
  destruct (try_format s (txt f)) as [iso'|] eqn:E; [|exact IH].
  intros [= ->]. unfold try_format in E.
  destruct (strptime s (txt f)) as [t|]; [|discriminate].
  injection E as <-. now exists t.
Qed.

Lemma clean_date_canonical (v : value) (iso : str) :
  _clean_and_convert_date v None = Some iso -> exists t, iso = strftime_iso t.
Proof.
  destruct v as [|[|c s]|f]; try discriminate.
  rewrite clean_date_str. apply try_formats_canonical.
Qed.

Lemma strftime_iso_not_empty (t : datetime) : strftime_iso t <> [].
Proof. discriminate. Qed.

Lemma norm_date_shape (v : value) :
  norm_date v = VNone \/ exists t, norm_date v = VStr (strftime_iso t).
Proof.
  unfold norm_date.
  destruct (_clean_and_convert_date v None) as [iso|] eqn:E; [|now left].
  destruct (clean_date_canonical _ _ E) as [t ->]. right. now exists t.
Qed.

Lemma of_group_shape (g : option str) :
  of_group g = VNone \/ exists s, of_group g = VStr s.
Proof. destruct g as [s|]; [right; now exists s | now left]. Qed.

(** The card and date fields of a parsed record hold a string or [None]. *)
Lemma parsed_field_shape (text bank : str) (parsed : dict value) (k : str) :
  parse_pdf_content text bank = Ok parsed ->
  In k [k_card_last4; k_due_date; k_statement_date] ->
  dict_lookup parsed k = None \/ dict_lookup parsed k = Some VNone
  \/ exists s, dict_lookup parsed k = Some (VStr s).
Proof.
  intros Hp Hk.
  destruct (dict_lookup catalog (lower bank)) as [patterns|] eqn:E.
  - rewrite (parse_known text bank patterns E) in Hp. injection Hp as <-.
    unfold k_card_last4, k_due_date, k_statement_date in Hk.
    destruct Hk as [<-|[<-|[<-|[]]]].
    + rewrite (record_selected text bank patterns
                 (txt "card_number") (txt "card_last4") (fun v => v))
        by (left; reflexivity).
      destruct (_extract_with_multiple_patterns _ _) as [m|]; [|now left].
      simpl. right.
      destruct (of_group_shape (last_of (Re.groups m))) as [->|[s ->]]; eauto.
    + rewrite (record_selected text bank patterns
                 (txt "due_date") (txt "due_date") norm_date)
        by (right; left; reflexivity).
      destruct (_extract_with_multiple_patterns _ _) as [m|]; [|now left].
      simpl. right.
      destruct (norm_date_shape (of_group (last_of (Re.groups m))))
        as [->|[t ->]]; eauto.
    + rewrite record_statement_date.
      destruct (_extract_with_multiple_patterns _ _) as [m|]; [|now left].
      simpl. right.
      destruct (norm_date_shape (of_group (first_of (Re.groups m))))
        as [->|[t ->]]; eauto.
  - rewrite (parse_unknown text bank E) in Hp. injection Hp as <-. now left.
Qed.

Lemma truthy_present (text bank : str) (parsed : dict value) (k : str) :
  parse_pdf_content text bank = Ok parsed ->
  In k [k_card_last4; k_due_date; k_statement_date] ->
  truthy (dict_get parsed k) = true <-> present parsed k.
Proof.
  intros Hp Hk. unfold present, dict_get.
  destruct (parsed_field_shape text bank parsed k Hp Hk)
    as [-> | [-> | [s ->]]]; simpl.
  - split; [discriminate | intros (s & [=] & _)].
  - split; [discriminate | intros (s & [=] & _)].
  - split.
    + intros H. exists s. split; [reflexivity|]. intros ->. discriminate.
    + intros (s' & [= <-] & Hs). destruct s; [congruence | reflexivity].
Qed.

(** The statement date of a parsed record, when a string, is the rendering
    of a date. *)
Lemma parsed_statement_canonical (text bank : str) (parsed : dict value)
      (stmt : str) :
  parse_pdf_content text bank = Ok parsed ->
  dict_lookup parsed k_statement_date = Some (VStr stmt) ->
  exists t, stmt = strftime_iso t.
Proof.
  intros Hp Hs.
  destruct (dict_lookup catalog (lower bank)) as [patterns|] eqn:E.
  - rewrite (parse_known text bank patterns E) in Hp. injection Hp as <-.
    unfold k_statement_date in Hs. rewrite record_statement_date in Hs.
    destruct (_extract_with_multiple_patterns _ _) as [m|]; [|discriminate].
    simpl in Hs.
    destruct (norm_date_shape (of_group (first_of (Re.groups m))))
      as [H|[t H]]; rewrite H in Hs; [discriminate|].
    injection Hs as <-. now exists t.
  - rewrite (parse_unknown text bank E) in Hp. injection Hp as <-.
    discriminate.
Qed.

(** ** Acceptance *)

Section Acceptance.

Variable extract : str -> str -> option str.
Variable now : datetime.
Variables pdf_path password bank : str.

Lemma essential_keys_card : In k_card_last4 [k_card_last4; k_due_date; k_statement_date].
Proof. now left. Qed.

Lemma essential_keys_due : In k_due_date [k_card_last4; k_due_date; k_statement_date].
Proof. right. now left. Qed.

Lemma essential_keys_stmt : In k_statement_date [k_card_last4; k_due_date; k_statement_date].
Proof. right. right. now left. Qed.

Lemma analyze_invalid (text : str) (parsed : dict value) :
  extract pdf_path password = Some text ->
  parse_pdf_content text bank = Ok parsed ->
  _is_valid_date now (dict_get parsed k_due_date)
    (dict_get parsed k_statement_date) = false ->
  analyze_pdf extract now pdf_path password bank = Ok None.
Proof.
  intros He Hp Hv. unfold analyze_pdf. rewrite He.
  destruct text as [|c text]; [reflexivity|].
  destruct (str_eqb (lower bank) (txt "icici") && _); [reflexivity|].
  rewrite Hp. cbn [bind].
  destruct (filter _ _); [|reflexivity].
  fold k_due_date k_statement_date. rewrite Hv. reflexivity.
Qed.

Lemma analyze_accepts (text : str) (parsed : dict value) :
  extract pdf_path password = Some text ->
  text <> [] ->
  icici_guard bank text = false ->
  parse_pdf_content text bank = Ok parsed ->
  truthy (dict_get parsed k_card_last4) = true ->
  truthy (dict_get parsed k_due_date) = true ->
  _is_valid_date now (dict_get parsed k_due_date)
    (dict_get parsed k_statement_date) = true ->
  due_before_statement (dict_get parsed k_statement_date)
    (dict_get parsed k_due_date) = false ->
  analyze_pdf extract now pdf_path password bank = Ok (Some parsed).
Proof.
  intros He Ht Hg Hp Hc Hd Hv Hb. unfold analyze_pdf. rewrite He.
  destruct text as [|c text]; [congruence|].
  unfold icici_guard in Hg. rewrite Hg, Hp. cbn [bind filter].
  fold k_card_last4 k_due_date k_statement_date.
  rewrite Hc, Hd, Hv, Hb. reflexivity.
Qed.

(** C3.  [analyze_pdf] returns for every input, and a record it accepts
    has a card identifier and a due date that are there and not empty;
    when either is missing or empty in the parsed record the answer is
    [None]. *)
Theorem C3_mandatory_fields :
  (exists answer, analyze_pdf extract now pdf_path password bank = Ok answer)
  /\ (forall record,
        analyze_pdf extract now pdf_path password bank = Ok (Some record) ->
        present record k_card_last4 /\ present record k_due_date)
  /\ (forall text parsed,
        extract pdf_path password = Some text ->
        parse_pdf_content text bank = Ok parsed ->
        ~ present parsed k_card_last4 \/ ~ present parsed k_due_date ->
        analyze_pdf extract now pdf_path password bank = Ok None).
Proof.
  split; [apply analyze_pdf_returns|]. split.
  - intros record H.
    destruct (analyze_accept_inv _ _ _ _ _ _ H)
      as (text & _ & Hp & Hc & Hd & _).
    split.
    + now apply (truthy_present text bank record _ Hp essential_keys_card).
    + now apply (truthy_present text bank record _ Hp essential_keys_due).
  - intros text parsed He Hp Hmissing.
    apply (analyze_missing extract now pdf_path password bank text parsed He Hp).
    destruct Hmissing as [H|H]; [left|right];
      apply not_true_is_false; intros Ht; apply H.
    + now apply (truthy_present text bank parsed _ Hp essential_keys_card).
    + now apply (truthy_present text bank parsed _ Hp essential_keys_due).
Qed.

Lemma is_valid_date_chronology (due stmt : str) (d_due d_stmt : datetime) :
  strptime due iso_format = Ok d_due ->
  strptime stmt iso_format = Ok d_stmt ->
  ltb d_due d_stmt = true ->
  _is_valid_date now (VStr due) (VStr stmt) = false.
Proof.
  intros Hd Hs Hlt. unfold _is_valid_date.
  destruct (negb (truthy (VStr due))); [reflexivity|].
  simpl strptime_value. fold iso_format. rewrite Hd, Hs, Hlt.
  destruct (_ <? _)%Z; [reflexivity|].
  destruct (_ <? _)%Z; [reflexivity|].
  destruct (truthy (VStr stmt)) eqn:E; [reflexivity|].
  destruct stmt; [|discriminate]. vm_compute in Hs. discriminate.
Qed.

(** C4.  A record [analyze_pdf] accepts whose statement date is a date has
    a due date that is not before it, the two read as [YYYY-MM-DD] dates
    and compared as dates; and a parsed record whose due date is before
    its statement date is rejected. *)
Theorem C4_due_not_before_statement :
  (forall record stmt,
     analyze_pdf extract now pdf_path password bank = Ok (Some record) ->
     dict_lookup record k_statement_date = Some (VStr stmt) ->
     exists due d_due d_stmt,
       dict_lookup record k_due_date = Some (VStr due)
       /\ strptime due iso_format = Ok d_due
       /\ strptime stmt iso_format = Ok d_stmt
       /\ ltb d_due d_stmt = false)
  /\ (forall text parsed due stmt d_due d_stmt,
        extract pdf_path password = Some text ->
        parse_pdf_content text bank = Ok parsed ->
        dict_lookup parsed k_due_date = Some (VStr due) ->
        dict_lookup parsed k_statement_date = Some (VStr stmt) ->
        strptime due iso_format = Ok d_due ->
        strptime stmt iso_format = Ok d_stmt ->
        ltb d_due d_stmt = true ->
        analyze_pdf extract now pdf_path password bank = Ok None).
Proof.
  split.
  - intros record stmt H Hstmt.
    destruct (analyze_accept_inv _ _ _ _ _ _ H)
      as (text & _ & Hp & _ & _ & Hv).
    destruct (parsed_statement_canonical text bank record stmt Hp Hstmt)
      as [t ->].
    destruct (is_valid_date_inv _ _ _ Hv)
      as (due & d_due & Hdue & _ & Hpd & _ & _ & Hchrono).
    unfold dict_get in Hchrono. rewrite Hstmt in Hchrono.
    destruct (Hchrono eq_refl) as (ss & d_stmt & Heq & Hps & Hlt).
    injection Heq as <-.
    exists due, d_due, d_stmt. repeat split; try assumption.
    unfold dict_get in Hdue.
    destruct (dict_lookup record k_due_date) as [v|]; [|discriminate].
    now subst v.
  - intros text parsed due stmt d_due d_stmt He Hp Hdue Hstmt Hpd Hps Hlt.
    apply (analyze_invalid text parsed He Hp).
    unfold dict_get. rewrite Hdue, Hstmt.
    now apply (is_valid_date_chronology due stmt d_due d_stmt).
Qed.

End Acceptance.

(** The statement of the first scenario is accepted with its card and its
    due date; a text without a due date is rejected. *)
Lemma C3_mandatory_fields_witness :
  (exists record,
     analyze_pdf (reads (hdfc_statement "15/01/2024" "05/02/2024"))
       mid_january_2024 (txt "statement.pdf") (txt "secret") (txt "HDFC")
     = Ok (Some record)
     /\ present record k_card_last4 /\ present record k_due_date)
  /\ analyze_pdf (reads (txt "HDFC Bank Credit Card 1234********5678"))
       mid_january_2024 (txt "statement.pdf") (txt "secret") (txt "HDFC")
     = Ok None.
Proof.
  split.
  - destruct (C3_mandatory_fields
                (reads (hdfc_statement "15/01/2024" "05/02/2024"))
                mid_january_2024 (txt "statement.pdf") (txt "secret")
                (txt "HDFC")) as (_ & Haccepted & _).
    eexists. split; [vm_compute; reflexivity|].
    apply Haccepted. vm_compute. reflexivity.
  - destruct (C3_mandatory_fields
                (reads (txt "HDFC Bank Credit Card 1234********5678"))
                mid_january_2024 (txt "statement.pdf") (txt "secret")
                (txt "HDFC")) as (_ & _ & Hmissing).
    apply (Hmissing (txt "HDFC Bank Credit Card 1234********5678")
             (record_of (txt "HDFC Bank Credit Card 1234********5678")
                (txt "HDFC") (profile_of (txt "HDFC")))).
    + reflexivity.
    + vm_compute. reflexivity.
    + right. intros (s & Hs & _). vm_compute in Hs. discriminate.
Defined.

(** The first two scenarios: a due date after the statement date is
    accepted, a due date before it is rejected. *)
Lemma C4_due_not_before_statement_witness :
  (exists record,
     analyze_pdf (reads (hdfc_statement "15/01/2024" "05/02/2024"))
       mid_january_2024 (txt "statement.pdf") (txt "secret") (txt "HDFC")
     = Ok (Some record)
     /\ dict_lookup record k_statement_date = Some (VStr (txt "2024-01-15"))
     /\ exists due d_due d_stmt,
          dict_lookup record k_due_date = Some (VStr due)
          /\ strptime due iso_format = Ok d_due
          /\ strptime (txt "2024-01-15") iso_format = Ok d_stmt
          /\ ltb d_due d_stmt = false)
  /\ analyze_pdf (reads (hdfc_statement "15/01/2024" "01/01/2023"))
       mid_january_2024 (txt "statement.pdf") (txt "secret") (txt "HDFC")
     = Ok None.
Proof.
  split.
  - destruct (C4_due_not_before_statement
                (reads (hdfc_statement "15/01/2024" "05/02/2024"))
                mid_january_2024 (txt "statement.pdf") (txt "secret")
                (txt "HDFC")) as (Haccepted & _).
    eexists. split; [vm_compute; reflexivity|].
    split; [vm_compute; reflexivity|].
    apply Haccepted; vm_compute; reflexivity.
  - destruct (C4_due_not_before_statement
                (reads (hdfc_statement "15/01/2024" "01/01/2023"))
                mid_january_2024 (txt "statement.pdf") (txt "secret")
                (txt "HDFC")) as (_ & Hrejected).
    apply (Hrejected (hdfc_statement "15/01/2024" "01/01/2023")
             (record_of (hdfc_statement "15/01/2024" "01/01/2023")
                (txt "HDFC") (profile_of (txt "HDFC")))
             (txt "2023-01-01") (txt "2024-01-15")
             (date 2023 1 1) (date 2024 1 15));
      vm_compute; reflexivity.
Defined.

(** ** A statement date that did not normalize *)

Lemma strptime_not_empty (fmt : str) (d : datetime) :
  fmt = iso_format -> strptime [] fmt <> Ok d.
Proof. intros ->. vm_compute. discriminate. Qed.

Lemma is_valid_date_no_statement (now : datetime) (due : str) (d : datetime) :
  strptime due iso_format = Ok d ->
  in_window now d ->
  _is_valid_date now (VStr due) VNone = true.
Proof.
  intros Hp [Hy Hd]. unfold _is_valid_date.
  destruct due as [|c due]; [now apply strptime_not_empty in Hp|].
  change (negb (truthy (VStr (c :: due)))) with false. cbv iota.
  simpl strptime_value. fold iso_format. rewrite Hp.
  apply Z.ltb_ge in Hy, Hd. rewrite Hy, Hd. reflexivity.
Qed.

Lemma analyze_accept_guard (extract : str -> str -> option str)
      (now : datetime) (pdf_path password bank : str) (record : dict value) :
  analyze_pdf extract now pdf_path password bank = Ok (Some record) ->
  exists text,
    extract pdf_path password = Some text /\ text <> []
    /\ icici_guard bank text = false.
Proof.
  unfold analyze_pdf, icici_guard.
  destruct (extract pdf_path password) as [[|c text]|]; try discriminate.
  destruct (str_eqb (lower bank) (txt "icici") && _) eqn:E; [discriminate|].
  intros _. exists (c :: text). repeat split; [discriminate | exact E].
Qed.

(** C10.  When a statement-date strategy matches and the text it captured
    does not normalize, the record holds [statement_date] with the value
    [None]; [analyze_pdf] can accept such a record; and for such a record
    acceptance is decided by the mandatory fields and the window alone: no
    comparison of the due date with a statement date takes part. *)
Theorem C10_null_statement_date :
  (forall text bank patterns m raw,
     dict_lookup catalog (lower bank) = Some patterns ->
     _extract_with_multiple_patterns text
       (strategies patterns (txt "statement_date")) = Some m ->
     Re.group m 1 = Ok raw ->
     _clean_and_convert_date (of_group raw) None = None ->
     exists record,
       parse_pdf_content text bank = Ok record
       /\ dict_lookup record k_statement_date = Some VNone)
  /\ (exists record,
        analyze_pdf (reads (hdfc_statement "45/01/2024" "05/02/2024"))
          mid_january_2024 (txt "statement.pdf") (txt "secret") (txt "HDFC")
        = Ok (Some record)
        /\ dict_lookup record k_statement_date = Some VNone)
  /\ (forall extract now pdf_path password bank text parsed,
        extract pdf_path password = Some text ->
        parse_pdf_content text bank = Ok parsed ->
        dict_lookup parsed k_statement_date = Some VNone ->
        (analyze_pdf extract now pdf_path password bank = Ok (Some parsed)
         <-> text <> [] /\ icici_guard bank text = false
             /\ present parsed k_card_last4
             /\ exists due d,
                  dict_lookup parsed k_due_date = Some (VStr due)
                  /\ strptime due iso_format = Ok d
                  /\ in_window now d)).
Proof.
  split; [|split].
  - intros text bank patterns m raw Hbank Hm Hraw Hclean.
    exists (record_of text bank patterns).
    split; [now apply parse_known|].
    unfold k_statement_date. rewrite record_statement_date, Hm. simpl.
    pose proof (known_profile_ok _ _ Hbank) as Hok.
    rewrite (group_one_first m
               (extract_groups _ _ _
                  (strategies_have_groups patterns _ Hok) Hm)) in Hraw.
    injection Hraw as <-. unfold norm_date. now rewrite Hclean.
  - eexists. split; vm_compute; reflexivity.
  - intros extract now pdf_path password bank text parsed He Hp Hnull.
    assert (Hget : dict_get parsed k_statement_date = VNone)
      by (unfold dict_get; now rewrite Hnull).
    split.
    + intros H.
      destruct (analyze_accept_guard _ _ _ _ _ _ H) as (t & Ht & Hne & Hg).
      rewrite He in Ht. injection Ht as <-.
      destruct (analyze_accept_inv _ _ _ _ _ _ H)
        as (t & Ht & _ & Hc & _ & Hv).
      rewrite He in Ht. injection Ht as <-.
      split; [exact Hne|]. split; [exact Hg|]. split.
      * now apply (truthy_present text bank parsed _ Hp
                     (essential_keys_card)).
      * destruct (is_valid_date_inv _ _ _ Hv)
          as (due & d & Hdue & _ & Hpd & Hy & Hd & _).
        exists due, d. split; [|split; [exact Hpd | now split]].
        unfold dict_get in Hdue.
        destruct (dict_lookup parsed k_due_date) as [v|]; [|discriminate].
        now subst v.
    + intros (Hne & Hg & Hcard & due & d & Hdue & Hpd & Hw).
      apply (analyze_accepts extract now pdf_path password bank text parsed);
        try assumption.
      * now apply (truthy_present text bank parsed _ Hp
                     (essential_keys_card)).
      * apply (truthy_present text bank parsed _ Hp (essential_keys_due)).
        exists due. split; [exact Hdue|]. intros ->.
        now apply strptime_not_empty in Hpd.
      * rewrite Hget. unfold dict_get. rewrite Hdue.
        now apply (is_valid_date_no_statement now due d).
      * rewrite Hget. reflexivity.
Qed.

(** The statement date [45/01/2024] is matched by the first HDFC strategy
    and is no date: the record is accepted with a null statement date. *)
Lemma C10_null_statement_date_witness :
  (exists record,
     parse_pdf_content (hdfc_statement "45/01/2024" "05/02/2024") (txt "HDFC")
     = Ok record
     /\ dict_lookup record k_statement_date = Some VNone)
  /\ analyze_pdf (reads (hdfc_statement "45/01/2024" "05/02/2024"))
       mid_january_2024 (txt "statement.pdf") (txt "secret") (txt "HDFC")
     = Ok (Some (record_of (hdfc_statement "45/01/2024" "05/02/2024")
                   (txt "HDFC") (profile_of (txt "HDFC")))).
Proof.
  destruct C10_null_statement_date as (Hparse & _ & Haccept).
  split.
  - apply (Hparse (hdfc_statement "45/01/2024" "05/02/2024") (txt "HDFC")
             (profile_of (txt "HDFC"))
             (Re.mkMatch [Some (txt "45/01/2024")])
             (Some (txt "45/01/2024")));
      vm_compute; reflexivity.
  - apply (Haccept (reads (hdfc_statement "45/01/2024" "05/02/2024"))
             mid_january_2024 (txt "statement.pdf") (txt "secret")
             (txt "HDFC") (hdfc_statement "45/01/2024" "05/02/2024")).
    + reflexivity.
    + vm_compute. reflexivity.
    + vm_compute. reflexivity.
    + split; [discriminate|]. split; [vm_compute; reflexivity|]. split.
      * exists (txt "5678"). split; [vm_compute; reflexivity | discriminate].
      * exists (txt "2024-02-05"), (date 2024 2 5).
        split; [vm_compute; reflexivity|].
        split; [vm_compute; reflexivity|].
        split; vm_compute; discriminate.
Defined.

(** ** The plausibility window *)

(** What acceptance guarantees about the due date: its year is at most the
    current year plus two, and it is at most 550 days old. *)
Lemma accepted_due_in_window (extract : str -> str -> option str)
      (now : datetime) (pdf_path password bank : str) (record : dict value) :
  analyze_pdf extract now pdf_path password bank = Ok (Some record) ->
  exists due d,
    dict_lookup record k_due_date = Some (VStr due)
    /\ strptime due iso_format = Ok d
    /\ in_window now d.
Proof.
  intros H.
  destruct (analyze_accept_inv _ _ _ _ _ _ H) as (t & _ & _ & _ & _ & Hv).
  destruct (is_valid_date_inv _ _ _ Hv)
    as (due & d & Hdue & _ & Hpd & Hy & Hd & _).
  exists due, d. split; [|split; [exact Hpd | now split]].
  unfold dict_get in Hdue.
  destruct (dict_lookup record k_due_date) as [v|]; [|discriminate].
  now subst v.
Qed.

(** C1.  The window of [_is_valid_date] on 2024-01-15.  On the side of the
    past it is 550 days: 2022-07-14 (550 days before) is accepted and
    2022-07-13 is rejected.  On the side of the future the source comment
    says "Date cannot be more than 2 years in the future", but the code
    compares calendar years: 2026-01-15 (two years ahead) is accepted,
    and so are 2026-01-16, one day beyond, and 2026-12-31, 1081 days
    ahead; the first date rejected is 2027-01-01.  [analyze_pdf] accepts
    the statement whose due date is 2026-01-16. *)
Theorem C1_future_bound_compares_years :
  _is_valid_date mid_january_2024 (VStr (txt "2022-07-14")) VNone = true
  /\ _is_valid_date mid_january_2024 (VStr (txt "2022-07-13")) VNone = false
  /\ _is_valid_date mid_january_2024 (VStr (txt "2026-01-15")) VNone = true
  /\ _is_valid_date mid_january_2024 (VStr (txt "2026-01-16")) VNone = true
  /\ _is_valid_date mid_january_2024 (VStr (txt "2026-12-31")) VNone = true
  /\ _is_valid_date mid_january_2024 (VStr (txt "2027-01-01")) VNone = false
  /\ (toordinal (date 2026 1 15) - toordinal mid_january_2024 = 731)%Z
  /\ (toordinal (date 2026 12 31) - toordinal mid_january_2024 = 1081)%Z
  /\ exists record,
       analyze_pdf (reads (hdfc_statement "15/01/2024" "16/01/2026"))
         mid_january_2024 (txt "statement.pdf") (txt "secret") (txt "HDFC")
       = Ok (Some record)
       /\ dict_lookup record k_due_date = Some (VStr (txt "2026-01-16")).
Proof.
  repeat (split; [vm_compute; reflexivity|]).
  eexists. split; vm_compute; reflexivity.
Qed.

(** ** Date normalization: formats that read the same string *)

(** *** Character classes are disjoint *)

Lemma digit_classes (c : N) :
  is_digit c = true ->
  is_alpha c = false /\ is_space c = false /\ is_punct c = false.
Proof.
  unfold is_digit, is_alpha, is_upper, is_lower, is_space, is_punct, in_range.
  intros H. nbool. lia.
Qed.

Lemma alpha_classes (c : N) :
  is_alpha c = true ->
  is_digit c = false /\ is_space c = false /\ is_punct c = false.
Proof.
  unfold is_digit, is_alpha, is_upper, is_lower, is_space, is_punct, in_range.
  intros H. nbool. lia.
Qed.

Lemma space_classes (c : N) :
  is_space c = true ->
  is_digit c = false /\ is_alpha c = false /\ is_punct c = false.
Proof.
  unfold is_digit, is_alpha, is_upper, is_lower, is_space, is_punct, in_range.
  intros H. nbool. lia.
Qed.

Lemma punct_classes (c : N) :
  is_punct c = true ->
  is_digit c = false /\ is_alpha c = false /\ is_space c = false.
Proof.
  unfold is_digit, is_alpha, is_upper, is_lower, is_space, is_punct, in_range.
  intros H. nbool. lia.
Qed.

Lemma is_alpha_lower_char (c : N) :
  is_alpha (lower_char c) = true -> is_alpha c = true.
Proof.
  unfold lower_char. destruct (is_upper c) eqn:E; [|auto].
  intros _. unfold is_alpha. now rewrite E.
Qed.

Lemma ieqb_punct (x c : N) : is_punct c = true -> ieqb x c = true -> x = c.
Proof.
  intros Hc. destruct (punct_classes c Hc) as (_ & Ha & _).
  unfold ieqb. rewrite N.eqb_eq.
  assert (Hl : lower_char c = c).
  { unfold lower_char. unfold is_alpha in Ha.
    apply orb_false_iff in Ha. now rewrite (proj1 Ha). }
  rewrite Hl. intros H. apply N.eqb_eq. rewrite <- (lower_char_eqb x c Ha).
  now apply N.eqb_eq.
Qed.

(** *** The pieces of a match *)

Lemma take1_sound (ok : N -> bool) (s p r : str) :
  In (p, r) (take1 ok s) -> exists a, p = [a] /\ s = a :: r /\ ok a = true.
Proof.
  unfold take1. destruct s as [|a s]; [intros []|].
  destruct (ok a) eqn:E; [|intros []].
  intros [[= <- <-]|[]]. now exists a.
Qed.

Lemma take2_sound (ok1 ok2 : N -> bool) (s p r : str) :
  In (p, r) (take2 ok1 ok2 s) ->
  exists a b, p = [a; b] /\ s = a :: b :: r /\ ok1 a = true /\ ok2 b = true.
Proof.
  unfold take2. destruct s as [|a [|b s]]; try (intros []).
  destruct (ok1 a && ok2 b) eqn:E; [|intros []].
  apply andb_true_iff in E. intros [[= <- <-]|[]]. now exists a, b.
Qed.

Lemma take_name_sound (s name p r : str) :
  In (p, r) (take_name s name) -> s = p ++ r /\ lower p = name.
Proof.
  unfold take_name.
  destruct (str_eqb (lower (firstn (List.length name) s)) name) eqn:E;
    [|intros []].
  intros [[= <- <-]|[]]. split.
  - symmetry. apply firstn_skipn.
  - now apply str_eqb_eq.
Qed.

Lemma take_names_sound (s p r : str) (names : list (str * Z)) :
  In (p, r) (flat_map (fun e => take_name s (fst e)) names) ->
  s = p ++ r /\ In (lower p) (map fst names).
Proof.
  rewrite in_flat_map. intros (e & He & H).
  destruct (take_name_sound _ _ _ _ H) as [-> Hl]. split; [reflexivity|].
  rewrite Hl. now apply in_map.
Qed.

Lemma take_spaces_sound (s p r : str) :
  In (p, r) (take_spaces s) -> s = p ++ r /\ forallb is_space p = true.
Proof.
  revert p r. induction s as [|c s IH]; simpl; intros p r; [intros []|].
  destruct (is_space c) eqn:E; [|intros []].
  rewrite in_app_iff. intros [H|[[= <- <-]|[]]].
  - apply in_map_iff in H. destruct H as ([p' r'] & [= <- <-] & H).
    destruct (IH _ _ H) as [-> Hp]. simpl. now rewrite E.
  - simpl. now rewrite E.
Qed.

Lemma in_range_digit (lo hi c : N) :
  (48 <= lo)%N -> (hi <= 57)%N -> in_range lo hi c = true -> is_digit c = true.
Proof. unfold is_digit, in_range. intros Hlo Hhi H. nbool. lia. Qed.

Lemma is_char_eq (a : ascii) (c : N) : is_char a c = true -> c = chr a.
Proof. unfold is_char. apply N.eqb_eq. Qed.

Ltac digit_range :=
  match goal with
  | H : in_range ?lo ?hi ?c = true |- is_digit ?c = true =>
      apply (in_range_digit lo hi c); [lia | lia | exact H]
  | H : is_char _ ?c = true |- is_digit ?c = true =>
      apply is_char_eq in H; subst c; reflexivity
  | H : is_digit ?c = true |- is_digit ?c = true => exact H
  end.

Lemma alts_sound (t : tok) (s p r : str) :
  In (p, r) (alts t s) -> s = p ++ r /\ piece t p.
Proof.
  destruct t; cbv beta iota delta [alts piece].
  - (* %d *)
    rewrite !in_app_iff.
    intros [H|[H|[H|[H|H]]]];
      first [ apply take2_sound in H; destruct H as (a & b & -> & -> & Ha & Hb)
            | apply take1_sound in H; destruct H as (a & -> & -> & Ha) ];
      (split; [reflexivity|]).
    + left. exists a, b. repeat split; digit_range.
    + left. exists a, b. repeat split; digit_range.
    + left. exists a, b. repeat split; digit_range.
    + right. left. exists a. repeat split; digit_range.
    + right. right. exists b. apply is_char_eq in Ha. subst a.
      repeat split; digit_range.
  - (* %m *)
    rewrite !in_app_iff.
    intros [H|[H|H]];
      first [ apply take2_sound in H; destruct H as (a & b & -> & -> & Ha & Hb)
            | apply take1_sound in H; destruct H as (a & -> & -> & Ha) ];
      (split; [reflexivity|]).
    + left. exists a, b. repeat split; digit_range.
    + left. exists a, b. repeat split; digit_range.
    + right. left. exists a. repeat split; digit_range.
  - (* %Y *)
    destruct s as [|a [|b [|c [|d s]]]]; cbv iota; try (intros []).
    destruct (_ && is_digit d) eqn:E;
      [|intros []].
    intros [[= <- <-]|[]]. split; [reflexivity|]. split; [reflexivity|].
    rewrite !andb_true_iff in E. destruct E as (((Ha & Hb) & Hc) & Hd).
    cbn [forallb]. now rewrite Ha, Hb, Hc, Hd.
  - (* %b *) apply take_names_sound.
  - (* %B *) apply take_names_sound.
  - (* white space *) apply take_spaces_sound.
  - (* literal *)
    intros H. apply take1_sound in H. destruct H as (a & -> & -> & Ha).
    split; [reflexivity|]. now exists a.
Qed.

Lemma first_some_inv {A B} (f : A -> option B) (l : list A) (y : B) :
  first_some f l = Some y -> exists x, In x l /\ f x = Some y.
Proof.
  induction l as [|x l IH]; simpl; [discriminate|].
  destruct (f x) as [y'|] eqn:E.
  - intros [= <-]. exists x. auto.
  - intros H. destruct (IH H) as (x' & Hin & Hx). exists x'. auto.
Qed.

Lemma run_sound (ts : list tok) (s : str) (ps : list str) (rest : str) :
  run ts s = Some (ps, rest) ->
  s = List.concat ps ++ rest /\ Forall2 piece ts ps.
Proof.
  revert s ps. induction ts as [|t ts IH]; simpl; intros s ps.
  - intros [= <- <-]. split; [reflexivity | constructor].
  - intros H. apply first_some_inv in H. destruct H as ([p r] & Hin & H).
    destruct (run ts r) as [[ps' rest']|] eqn:E; [|discriminate].
    injection H as <- <-.
    destruct (alts_sound _ _ _ _ Hin) as [-> Hp].
    destruct (IH _ _ E) as [-> Hps]. split.
    + simpl. now rewrite app_assoc.
    + now constructor.
Qed.

(** *** What a piece keeps of each class *)

Lemma filter_none (P Q : N -> bool) (p : str) :
  forallb P p = true -> (forall c, P c = true -> Q c = false) ->
  filter Q p = [].
Proof.
  intros Hall HPQ. induction p as [|c p IH]; [reflexivity|].
  simpl in *. apply andb_true_iff in Hall. destruct Hall as [Hc Hp].
  rewrite (HPQ c Hc). now apply IH.
Qed.

Lemma filter_all (P : N -> bool) (p : str) :
  forallb P p = true -> filter P p = p.
Proof.
  induction p as [|c p IH]; [reflexivity|]. simpl.
  intros H. apply andb_true_iff in H. destruct H as [-> Hp].
  now rewrite IH.
Qed.

Lemma month_names_alpha :
  forallb (fun e => forallb is_alpha (fst e)) (a_month ++ f_month) = true.
Proof. vm_compute. reflexivity. Qed.

Lemma month_names_not_empty :
  forallb (fun e => negb (str_eqb (fst e) [])) (a_month ++ f_month) = true.
Proof. vm_compute. reflexivity. Qed.

Lemma forallb_alpha_lower (p : str) :
  forallb is_alpha (lower p) = true -> forallb is_alpha p = true.
Proof.
  induction p as [|c p IH]; [reflexivity|]. simpl.
  rewrite !andb_true_iff. intros [Hc Hp].
  split; [now apply is_alpha_lower_char | now apply IH].
Qed.

Lemma name_piece (names : list (str * Z)) (p : str) :
  In names [a_month; f_month] ->
  In (lower p) (map fst names) ->
  forallb is_alpha p = true /\ p <> [].
Proof.
  intros Hnames Hin. apply in_map_iff in Hin. destruct Hin as (e & He & Hin).
  assert (Hall : In e (a_month ++ f_month)).
  { apply in_or_app. destruct Hnames as [<-|[<-|[]]]; auto. }
  pose proof month_names_alpha as Ha. pose proof month_names_not_empty as Hn.
  rewrite forallb_forall in Ha, Hn.
  specialize (Ha e Hall). specialize (Hn e Hall).
  destruct e as [n m]. simpl in He, Ha, Hn. subst n.
  split; [now apply forallb_alpha_lower|].
  intros ->. discriminate.
Qed.

Lemma lstrip_keep (a : N) (r : str) :
  is_space a = false -> lstrip (a :: r) = a :: r.
Proof. intros H. simpl. now rewrite H. Qed.

Lemma int_of_str_two (a b : N) :
  is_digit a = true -> is_digit b = true ->
  int_of_str [a; b] = int_digits 0 [a; b].
Proof.
  intros Ha Hb.
  destruct (digit_classes a Ha) as (_ & Hsa & _).
  destruct (digit_classes b Hb) as (_ & Hsb & _).
  unfold int_of_str, strip. rewrite (lstrip_keep a [b] Hsa).
  cbn [rev app]. rewrite (lstrip_keep b [a] Hsb). reflexivity.
Qed.

Lemma int_of_str_one (a : N) :
  is_digit a = true -> int_of_str [a] = int_digits 0 [a].
Proof.
  intros Ha. destruct (digit_classes a Ha) as (_ & Hsa & _).
  unfold int_of_str, strip. rewrite (lstrip_keep a [] Hsa).
  cbn [rev app]. rewrite (lstrip_keep a [] Hsa). reflexivity.
Qed.

Lemma int_of_str_padded (b : N) :
  is_digit b = true -> int_of_str [chr " "; b] = int_digits 0 [b].
Proof.
  intros Hb. destruct (digit_classes b Hb) as (_ & Hsb & _).
  unfold int_of_str, strip.
  change (lstrip [chr " "; b]) with (lstrip [b]).
  rewrite (lstrip_keep b [] Hsb).
  cbn [rev app]. rewrite (lstrip_keep b [] Hsb). reflexivity.
Qed.

(** A day or a month: one or two digits, which are its value. *)
Lemma number_piece (p : str) :
  piece TDay p ->
  letters_of p = [] /\ puncts_of p = []
  /\ (List.length (digits_of p) <= 2)%nat
  /\ int_of_str p = int_digits 0 (digits_of p)
  /\ (exists a r, p = a :: r /\ is_punct a = false
                  /\ forallb is_digit r = true /\ (List.length r <= 1)%nat).
Proof.
  unfold letters_of, puncts_of, digits_of.
  intros [(a & b & -> & Ha & Hb)|[(a & -> & Ha)|(b & -> & Hb)]].
  - destruct (digit_classes a Ha) as (Haa & Hsa & Hpa).
    destruct (digit_classes b Hb) as (Hab & Hsb & Hpb).
    cbn [filter]. rewrite Ha, Hb, Haa, Hab, Hpa, Hpb.
    split; [reflexivity|]. split; [reflexivity|].
    split; [simpl; lia|]. split; [now apply int_of_str_two|].
    exists a, [b]. split; [reflexivity|]. split; [exact Hpa|].
    split; [simpl; now rewrite Hb | simpl; lia].
  - destruct (digit_classes a Ha) as (Haa & Hsa & Hpa).
    cbn [filter]. rewrite Ha, Haa, Hpa.
    split; [reflexivity|]. split; [reflexivity|].
    split; [simpl; lia|]. split; [now apply int_of_str_one|].
    exists a, []. split; [reflexivity|]. split; [exact Hpa|].
    split; [reflexivity | simpl; lia].
  - destruct (digit_classes b Hb) as (Hab & Hsb & Hpb).
    cbn [filter]. rewrite Hb, Hab, Hpb.
    change (is_alpha (chr " ")) with false.
    change (is_punct (chr " ")) with false.
    change (is_digit (chr " ")) with false. cbv iota.
    split; [reflexivity|]. split; [reflexivity|].
    split; [simpl; lia|]. split; [now apply int_of_str_padded|].
    exists (chr " "), [b]. split; [reflexivity|]. split; [reflexivity|].
    split; [simpl; now rewrite Hb | simpl; lia].
Qed.

Lemma year_piece (p : str) :
  piece TYear p ->
  letters_of p = [] /\ puncts_of p = [] /\ digits_of p = p
  /\ List.length p = 4%nat /\ int_of_str p = int_digits 0 p.
Proof.
  unfold letters_of, puncts_of, digits_of. intros [Hlen Hall].
  split; [apply (filter_none is_digit); [exact Hall|]; intros c Hc;
          apply (digit_classes c Hc)|].
  split; [apply (filter_none is_digit); [exact Hall|]; intros c Hc;
          apply (digit_classes c Hc)|].
  split; [now apply filter_all|]. split; [exact Hlen|].
  destruct p as [|a [|b [|c [|d [|e p]]]]]; try discriminate.
  cbn [forallb] in Hall. rewrite !andb_true_iff in Hall.
  destruct Hall as (Ha & Hb & Hc & Hd & _).
  destruct (digit_classes a Ha) as (_ & Hsa & _).
  destruct (digit_classes d Hd) as (_ & Hsd & _).
  unfold int_of_str, strip. rewrite (lstrip_keep a _ Hsa).
  cbn [rev app]. rewrite (lstrip_keep d _ Hsd). reflexivity.
Qed.

Lemma letters_piece (names : list (str * Z)) (p : str) :
  In names [a_month; f_month] ->
  In (lower p) (map fst names) ->
  letters_of p = p /\ puncts_of p = [] /\ digits_of p = [] /\ p <> [].
Proof.
  unfold letters_of, puncts_of, digits_of. intros Hn Hin.
  destruct (name_piece names p Hn Hin) as [Hall Hne].
  split; [now apply filter_all|].
  split; [apply (filter_none is_alpha); [exact Hall|]; intros c Hc;
          apply (alpha_classes c Hc)|].
  split; [apply (filter_none is_alpha); [exact Hall|]; intros c Hc;
          apply (alpha_classes c Hc)|].
  exact Hne.
Qed.

Lemma spaces_piece (p : str) :
  piece TSpaces p ->
  letters_of p = [] /\ puncts_of p = [] /\ digits_of p = [].
Proof.
  unfold letters_of, puncts_of, digits_of. intros Hall. simpl in Hall.
  repeat split; apply (filter_none is_space); try exact Hall;
    intros c Hc; apply (space_classes c Hc).
Qed.

Lemma literal_piece (c : N) (p : str) :
  is_punct c = true -> piece (TLit c) p -> p = [c].
Proof.
  intros Hc (x & -> & Hx). now rewrite (ieqb_punct x c Hc Hx).
Qed.

(** *** The signature of a parsed string *)

Lemma strptime_pieces (s f : str) (ts : list tok) (d : datetime) :
  compile_format f = Some ts ->
  strptime s f = Ok d ->
  exists ps y m dd,
    s = List.concat ps /\ Forall2 piece ts ps
    /\ read_fields ts ps (1900, 1, 1)%Z = Some (y, m, dd)
    /\ d = date y m dd.
Proof.
  unfold strptime. intros ->.
  destruct (run ts s) as [[ps [|c rest]]|] eqn:E; try discriminate.
  destruct (read_fields ts ps (1900, 1, 1)%Z) as [[[y m] dd]|] eqn:R;
    [|discriminate].
  destruct (valid_ymd y m dd); [|discriminate].
  intros [= <-]. exists ps, y, m, dd.
  destruct (run_sound _ _ _ _ E) as [Hs Hps]. rewrite app_nil_r in Hs.
  auto.
Qed.

Lemma views_app (a b : str) :
  digits_of (a ++ b) = digits_of a ++ digits_of b
  /\ letters_of (a ++ b) = letters_of a ++ letters_of b
  /\ puncts_of (a ++ b) = puncts_of a ++ puncts_of b.
Proof.
  unfold digits_of, letters_of, puncts_of. now rewrite !filter_app.
Qed.

Lemma piece_signature (t : tok) (p : str) :
  literal_is_punct t = true ->
  piece t p ->
  puncts_of p = separators [t]
  /\ (letters_of p = [] <-> has_name [t] = false).
Proof.
  intros Hlit Hp. destruct t; simpl separators; simpl has_name.
  - destruct (number_piece p Hp) as (-> & -> & _). tauto.
  - destruct (number_piece p Hp) as (-> & -> & _). tauto.
  - destruct (year_piece p Hp) as (-> & -> & _). tauto.
  - destruct (letters_piece a_month p) as (-> & -> & _ & Hne);
      [now left | exact Hp|].
    split; [reflexivity|]. split; [contradiction | discriminate].
  - destruct (letters_piece f_month p) as (-> & -> & _ & Hne);
      [right; now left | exact Hp|].
    split; [reflexivity|]. split; [contradiction | discriminate].
  - destruct (spaces_piece p Hp) as (-> & -> & _). tauto.
  - simpl in Hlit. rewrite (literal_piece c p Hlit Hp).
    destruct (punct_classes c Hlit) as (_ & Ha & _).
    unfold puncts_of, letters_of. cbn [filter]. rewrite Hlit, Ha. tauto.
Qed.

Lemma has_name_cons (t : tok) (ts : list tok) :
  has_name (t :: ts) = has_name [t] || has_name ts.
Proof. unfold has_name. simpl. now rewrite orb_false_r. Qed.

Lemma pieces_signature (ts : list tok) (ps : list str) :
  forallb literal_is_punct ts = true ->
  Forall2 piece ts ps ->
  signature_of (List.concat ps) = signature ts.
Proof.
  unfold signature_of, signature.
  intros Hlit H. induction H as [|t p ts ps Hp Hps IH].
  - reflexivity.
  - simpl in Hlit. apply andb_true_iff in Hlit. destruct Hlit as [Ht Hts].
    specialize (IH Hts). injection IH as IHp IHl.
    destruct (piece_signature t p Ht Hp) as [Hpp Hpl].
    cbn [List.concat].
    destruct (views_app p (List.concat ps)) as (_ & -> & ->).
    rewrite Hpp, IHp. f_equal.
    + destruct t; reflexivity.
    + rewrite has_name_cons, <- IHl. destruct (has_name [t]) eqn:E.
      * destruct (letters_of p) as [|c l] eqn:El; [|reflexivity].
        destruct Hpl as [Hpl _]. now specialize (Hpl eq_refl).
      * destruct Hpl as [_ Hpl]. rewrite (Hpl eq_refl). reflexivity.
Qed.

Lemma strptime_signature (s f : str) (ts : list tok) (d : datetime) :
  compile_format f = Some ts ->
  forallb literal_is_punct ts = true ->
  strptime s f = Ok d ->
  signature_of s = signature ts.
Proof.
  intros Hc Hlit H.
  destruct (strptime_pieces s f ts d Hc H) as (ps & _ & _ & _ & -> & Hps & _).
  now apply pieces_signature.
Qed.

(** *** Formats with the same signature *)

Lemma month_tables_compatible :
  forallb (fun a =>
             forallb (fun f => implb (str_eqb (fst a) (fst f))
                                     (Z.eqb (snd a) (snd f))) f_month)
          a_month = true.
Proof. vm_compute. reflexivity. Qed.

Lemma month_index_found (names : list (str * Z)) (p : str) (m : Z) :
  month_index names p = Some m -> In (lower p, m) names.
Proof.
  unfold month_index.
  destruct (find _ names) as [[n k]|] eqn:E; [|discriminate].
  intros [= <-]. apply find_some in E. destruct E as [Hin Hn].
  simpl in Hn. apply str_eqb_eq in Hn. now subst n.
Qed.

Lemma month_tables_agree (p : str) (m m' : Z) :
  month_index a_month p = Some m -> month_index f_month p = Some m' -> m = m'.
Proof.
  intros Ha Hf. apply month_index_found in Ha, Hf.
  pose proof month_tables_compatible as H. rewrite forallb_forall in H.
  specialize (H _ Ha). rewrite forallb_forall in H. specialize (H _ Hf).
  simpl in H. rewrite str_eqb_refl in H. now apply Z.eqb_eq in H.
Qed.

Lemma app_same_length_tail {A} (a b a' b' : list A) :
  a ++ b = a' ++ b' -> List.length b = List.length b' -> a = a' /\ b = b'.
Proof.
  intros H Hlen.
  assert (Hl : List.length a = List.length a').
  { apply (f_equal (@List.length A)) in H. rewrite !length_app in H. lia. }
  revert a' H Hl. induction a as [|x a IH]; intros [|x' a'] H Hl;
    simpl in *; try discriminate.
  - now split.
  - injection H as -> H. destruct (IH a' H) as [-> ->]; [lia | now split].
Qed.

(** What the formats [%d %b %Y] and [%d %B %Y] read in a string, in terms
    of the string alone: the year is its last four digits, the day the
    digits before them, the month the name its letters spell. *)
Lemma day_name_year_reading (t : tok) (names : list (str * Z))
      (ps : list str) (y m dd : Z) :
  (t = TAbbr /\ names = a_month) \/ (t = TFull /\ names = f_month) ->
  Forall2 piece [TDay; TSpaces; t; TSpaces; TYear] ps ->
  read_fields [TDay; TSpaces; t; TSpaces; TYear] ps (1900, 1, 1)%Z
  = Some (y, m, dd) ->
  exists D Y,
    digits_of (List.concat ps) = D ++ Y /\ List.length Y = 4%nat
    /\ int_digits 0 D = Some dd /\ int_digits 0 Y = Some y
    /\ month_index names (letters_of (List.concat ps)) = Some m.
Proof.
  intros Ht Hps Hread.
  inversion Hps as [|? pD ? ps1 HD H1]; subst; clear Hps.
  inversion H1 as [|? pW ? ps2 HW H2]; subst; clear H1.
  inversion H2 as [|? pN ? ps3 HN H3]; subst; clear H2.
  inversion H3 as [|? pV ? ps4 HV H4]; subst; clear H3.
  inversion H4 as [|? pY ? ps5 HY H5]; subst; clear H4.
  inversion H5; subst; clear H5.
  destruct (number_piece pD HD) as (HDl & _ & _ & HDi & _).
  destruct (spaces_piece pW HW) as (HWl & _ & HWd).
  destruct (spaces_piece pV HV) as (HVl & _ & HVd).
  destruct (year_piece pY HY) as (HYl & _ & HYd & HYn & HYi).
  assert (HNv : letters_of pN = pN /\ digits_of pN = []).
  { destruct Ht as [[-> ->]|[-> ->]].
    - destruct (letters_piece a_month pN) as (? & _ & ? & _);
        [now left | exact HN | now split].
    - destruct (letters_piece f_month pN) as (? & _ & ? & _);
        [right; now left | exact HN | now split]. }
  destruct HNv as [HNl HNd].
  exists (digits_of pD), pY.
  cbn [List.concat].
  repeat match goal with
         | |- context [digits_of (?a ++ ?b)] =>
             destruct (views_app a b) as (-> & _ & _)
         | |- context [letters_of (?a ++ ?b)] =>
             destruct (views_app a b) as (_ & -> & _)
         end.
  rewrite HDl, HWl, HVl, HYl, HNl, HWd, HVd, HYd, HNd.
  change (digits_of []) with (@nil N). change (letters_of []) with (@nil N).
  rewrite !app_nil_r. cbn [app].
  split; [reflexivity|]. split; [exact HYn|].
  cbn [read_fields] in Hread. rewrite HDi, HYi in Hread.
  destruct (int_digits 0 (digits_of pD)) as [vd|]; [|discriminate].
  cbn [option_map] in Hread.
  assert (Hm : exists vm, month_index names pN = Some vm
                          /\ option_map (fun v => (v, vm, vd)) (int_digits 0 pY)
                             = Some (y, m, dd)).
  { destruct Ht as [[-> ->]|[-> ->]]; cbn [read_fields] in Hread;
      (destruct (month_index _ pN) as [vm|]; [|discriminate]);
      cbn [option_map] in Hread; exists vm; (split; [reflexivity|]);
      (destruct (int_digits 0 pY); [|discriminate]); exact Hread. }
  destruct Hm as (vm & Hvm & Hy).
  destruct (int_digits 0 pY) as [vy|]; [|discriminate].
  injection Hy as <- <- <-. auto.
Qed.

Lemma name_formats_agree (s : str) (d d' : datetime) :
  strptime s (txt "%d %b %Y") = Ok d ->
  strptime s (txt "%d %B %Y") = Ok d' ->
  d = d'.
Proof.
  intros H1 H2.
  destruct (strptime_pieces s (txt "%d %b %Y")
              [TDay; TSpaces; TAbbr; TSpaces; TYear] d
              eq_refl H1) as (ps & y & m & dd & Hs & Hps & Hr & ->).
  destruct (strptime_pieces s (txt "%d %B %Y")
              [TDay; TSpaces; TFull; TSpaces; TYear] d'
              eq_refl H2) as (qs & y' & m' & dd' & Hs' & Hqs & Hr' & ->).
  destruct (day_name_year_reading TAbbr a_month ps y m dd
              (or_introl (conj eq_refl eq_refl)) Hps Hr)
    as (D & Y & HD & HY & Hdd & Hy & Hm).
  destruct (day_name_year_reading TFull f_month qs y' m' dd'
              (or_intror (conj eq_refl eq_refl)) Hqs Hr')
    as (D' & Y' & HD' & HY' & Hdd' & Hy' & Hm').
  rewrite <- Hs in HD, Hm. rewrite <- Hs' in HD', Hm'.
  rewrite HD in HD'.
  destruct (app_same_length_tail D Y D' Y' HD') as [-> ->]; [congruence|].
  rewrite (month_tables_agree _ _ _ Hm Hm'). congruence.
Qed.

Lemma day_first_not_year_first (ts ts' : list tok) (ps qs : list str) :
  Forall2 piece (TDay :: TLit (chr "-") :: ts) ps ->
  Forall2 piece (TYear :: ts') qs ->
  List.concat ps <> List.concat qs.
Proof.
  intros Hps Hqs.
  inversion Hps as [|? pD ? ps1 HD H1]; subst; clear Hps.
  inversion H1 as [|? pL ? ps2 HL H2]; subst; clear H1.
  inversion Hqs as [|? pY ? qs1 HY H3]; subst; clear Hqs.
  destruct (number_piece pD HD) as (_ & _ & _ & _ & a & r & -> & _ & Hr & Hlen).
  rewrite (literal_piece (chr "-") pL eq_refl HL).
  destruct HY as [HYn HYd].
  destruct pY as [|y1 [|y2 [|y3 [|y4 [|y5 pY]]]]]; try discriminate.
  cbn [forallb] in HYd. rewrite !andb_true_iff in HYd.
  destruct HYd as (_ & Hy2 & Hy3 & _).
  cbn [List.concat app].
  destruct r as [|b [|c r]]; cbn [app]; [| |simpl in Hlen; lia].
  - intros [= _ E _]. subst y2. discriminate.
  - intros [= _ _ E _]. subst y3. discriminate.
Qed.

Lemma dash_formats_exclusive (s : str) (d d' : datetime) :
  strptime s (txt "%d-%m-%Y") = Ok d ->
  strptime s (txt "%Y-%m-%d") = Ok d' ->
  False.
Proof.
  intros H1 H2.
  destruct (strptime_pieces s (txt "%d-%m-%Y")
              [TDay; TLit (chr "-"); TMonth; TLit (chr "-"); TYear] d
              eq_refl H1) as (ps & _ & _ & _ & Hs & Hps & _).
  destruct (strptime_pieces s (txt "%Y-%m-%d")
              [TYear; TLit (chr "-"); TMonth; TLit (chr "-"); TDay] d'
              eq_refl H2) as (qs & _ & _ & _ & Hs' & Hqs & _).
  apply (day_first_not_year_first _ _ ps qs Hps Hqs). congruence.
Qed.

(** *** Two formats on one string *)

(** Two formats with different signatures do not parse the same string. *)
Ltac signature_clash H1 H2 :=
  match type of H1 with
  | strptime ?s (txt ?f) = Ok ?d =>
      match type of H2 with
      | strptime s (txt ?g) = Ok ?d' =>
          let tf := eval vm_compute in (compile_format (txt f)) in
          let tg := eval vm_compute in (compile_format (txt g)) in
          match tf with
          | Some ?lf =>
              match tg with
              | Some ?lg =>
                  let S1 := fresh "S" in
                  let S2 := fresh "S" in
                  pose proof (strptime_signature s (txt f) lf d
                                eq_refl eq_refl H1) as S1;
                  pose proof (strptime_signature s (txt g) lg d'
                                eq_refl eq_refl H2) as S2;
                  rewrite S1 in S2; vm_compute in S2; discriminate S2
              end
          end
      end
  end.

(** The formats of [DATE_FORMATS] that parse one string read the same date
    in it, the two slash formats apart. *)
Lemma formats_agree (s : str) (f g : string) (d d' : datetime) :
  In f DATE_FORMATS -> In g DATE_FORMATS ->
  strptime s (txt f) = Ok d -> strptime s (txt g) = Ok d' ->
  d = d'
  \/ (f = day_first /\ g = month_first)
  \/ (f = month_first /\ g = day_first).
Proof.
  unfold DATE_FORMATS. intros Hf Hg.
  repeat (destruct Hf as [<-|Hf]; [|]); try contradiction;
    repeat (destruct Hg as [<-|Hg]; [|]); try contradiction;
    intros H1 H2;
    first
      [ left; congruence
      | right; left; split; reflexivity
      | right; right; split; reflexivity
      | exfalso; signature_clash H1 H2
      | left; exact (name_formats_agree s d d' H1 H2)
      | left; symmetry; exact (name_formats_agree s d' d H2 H1)
      | exfalso; exact (dash_formats_exclusive s d d' H1 H2)
      | exfalso; exact (dash_formats_exclusive s d' d H2 H1) ].
Qed.

Lemma try_formats_app (s : str) (l1 l2 : list string) (iso : str) :
  try_formats s l1 = Some iso -> try_formats s (l1 ++ l2) = Some iso.
Proof.
  induction l1 as [|f l1 IH]; simpl; [discriminate|].
  destruct (try_format s (txt f)); auto.
Qed.

Lemma try_formats_agree (s : str) (fmts : list string) (d : datetime) :
  (forall g d', In g fmts -> strptime s (txt g) = Ok d' -> d' = d) ->
  (exists f, In f fmts /\ strptime s (txt f) = Ok d) ->
  try_formats s fmts = Some (strftime_iso d).
Proof.
  induction fmts as [|g fmts IH]; intros Hall (f & Hin & Hf).
  - destruct Hin.
  - simpl. unfold try_format at 1.
    destruct (strptime s (txt g)) as [d'|] eqn:E.
    + now rewrite (Hall g d' (or_introl eq_refl) E).
    + apply IH.
      * intros g' d' Hg'. apply Hall. now right.
      * exists f. split; [|exact Hf].
        destruct Hin as [<-|Hin]; [congruence | exact Hin].
Qed.

(** Normalization returns the date a format reads in the string, unless
    the day-first slash format reads another date in it. *)
Lemma clean_date_reads (s : str) (f : string) (d : datetime) :
  In f DATE_FORMATS ->
  strptime s (txt f) = Ok d ->
  (forall d', strptime s (txt day_first) = Ok d' -> d' = d) ->
  _clean_and_convert_date (VStr s) None = Some (strftime_iso d).
Proof.
  intros Hf H Hday.
  destruct s as [|c s]; [now rewrite (strptime_empty f Hf) in H|].
  rewrite clean_date_str.
  destruct (strptime (c :: s) (txt day_first)) as [d'|] eqn:E.
  - rewrite (Hday d' eq_refl) in E.
    change DATE_FORMATS
      with (["%d %b %Y"; day_first]%string
              ++ ["%d-%m-%Y"; "%d-%b-%Y"; "%B %d, %Y"; "%d %B %Y";
                  "%Y-%m-%d"; "%m/%d/%Y"; "%d.%m.%Y"]%string).
    apply try_formats_app. apply try_formats_agree.
    + intros g d2 Hg Hgd.
      assert (Hin : In g DATE_FORMATS)
        by (destruct Hg as [<-|[<-|[]]]; [left | right; left]; reflexivity).
      destruct (formats_agree _ g day_first d2 d Hin
                  (or_intror (or_introl eq_refl)) Hgd E)
        as [Heq|[[_ Habs]|[Habs _]]]; [exact Heq | discriminate Habs|].
      destruct Hg as [<-|[<-|[]]]; discriminate Habs.
    + exists day_first. split; [right; now left | exact E].
  - apply try_formats_agree.
    + intros g d' Hg Hgd.
      destruct (formats_agree _ g f d' d Hg Hf Hgd H)
        as [Heq|[[-> _]|[_ ->]]]; [exact Heq | congruence | congruence].
    + now exists f.
Qed.

(** C2, as amended.  Two strings that formats of [DATE_FORMATS] read as
    the same date are normalized to the same [YYYY-MM-DD] string, the
    rendering of that date, provided the day-first slash format
    [%d/%m/%Y] reads a different date in neither of them.  (The formats
    are tried in order and [%d/%m/%Y] comes before [%m/%d/%Y]: a string
    with slashes that both read is normalized by its day-first reading.) *)
Theorem C2_same_date_same_output
        (s1 s2 : str) (f1 f2 : string) (d : datetime) :
  In f1 DATE_FORMATS -> In f2 DATE_FORMATS ->
  strptime s1 (txt f1) = Ok d ->
  strptime s2 (txt f2) = Ok d ->
  (forall d', strptime s1 (txt day_first) = Ok d' -> d' = d) ->
  (forall d', strptime s2 (txt day_first) = Ok d' -> d' = d) ->
  _clean_and_convert_date (VStr s1) None = Some (strftime_iso d)
  /\ _clean_and_convert_date (VStr s2) None = Some (strftime_iso d).
Proof.
  intros Hf1 Hf2 H1 H2 Hd1 Hd2. split.
  - exact (clean_date_reads s1 f1 d Hf1 H1 Hd1).
  - exact (clean_date_reads s2 f2 d Hf2 H2 Hd2).
Qed.

(** 15 January 2024 written month-first and with the month's name. *)
Lemma C2_same_date_same_output_witness :
  _clean_and_convert_date (VStr (txt "01/15/2024")) None
  = Some (txt "2024-01-15")
  /\ _clean_and_convert_date (VStr (txt "January 15, 2024")) None
     = Some (txt "2024-01-15").
Proof.
  apply (C2_same_date_same_output
           (txt "01/15/2024") (txt "January 15, 2024")
           month_first "%B %d, %Y"%string (date 2024 1 15)).
  - unfold DATE_FORMATS, month_first. simpl. tauto.
  - unfold DATE_FORMATS. simpl. tauto.
  - vm_compute. reflexivity.
  - vm_compute. reflexivity.
  - intros d' H. vm_compute in H. discriminate.
  - intros d' H. vm_compute in H. discriminate.
Defined.

(** C2, as stated, fails: [01/02/2024] is 2 January 2024 in the format
    [%m/%d/%Y], and so is [02 Jan 2024] in the format [%d %b %Y], but the
    first is normalized to 1 February. *)
Lemma C2_same_date_counterexample :
  In month_first DATE_FORMATS
  /\ In "%d %b %Y"%string DATE_FORMATS
  /\ strptime (txt "01/02/2024") (txt month_first) = Ok (date 2024 1 2)
  /\ strptime (txt "02 Jan 2024") (txt "%d %b %Y") = Ok (date 2024 1 2)
  /\ _clean_and_convert_date (VStr (txt "01/02/2024")) None
     = Some (txt "2024-02-01")
  /\ _clean_and_convert_date (VStr (txt "02 Jan 2024")) None
     = Some (txt "2024-01-02")
  /\ ~ (forall (s1 s2 : str) (f1 f2 : string) (d : datetime),
          In f1 DATE_FORMATS -> In f2 DATE_FORMATS ->
          strptime s1 (txt f1) = Ok d ->
          strptime s2 (txt f2) = Ok d ->
          _clean_and_convert_date (VStr s1) None
          = _clean_and_convert_date (VStr s2) None).
Proof.
  assert (Hm : In month_first DATE_FORMATS)
    by (unfold DATE_FORMATS, month_first; simpl; tauto).
  assert (Hb : In "%d %b %Y"%string DATE_FORMATS) by (now left).
  split; [exact Hm|]. split; [exact Hb|].
  repeat (split; [vm_compute; reflexivity|]).
  intros H.
  specialize (H (txt "01/02/2024") (txt "02 Jan 2024")
                month_first "%d %b %Y"%string (date 2024 1 2) Hm Hb
                eq_refl eq_refl).
  vm_compute in H. discriminate.
Qed.

(** ** The catalog and the scenarios of the specification *)

(** Every strategy of the catalog is in the modelled subset of [re]. *)
Example catalog_compiles :
  forallb (fun b =>
             forallb (fun f =>
                        forallb (fun p => match Re.compile p with
                                          | Some _ => true
                                          | None => false
                                          end) (snd f)) (snd b))
          catalog = true.
Proof. vm_compute. reflexivity. Qed.

(** Scenario 1: the record of an accepted statement. *)
Example scenario_accepted :
  analyze_pdf (reads (hdfc_statement "15/01/2024" "05/02/2024"))
    mid_january_2024 (txt "statement.pdf") (txt "secret") (txt "hdfc")
  = Ok (Some [ (txt "bank_name", VStr (txt "HDFC"));
               (txt "card_last4", VStr (txt "5678"));
               (txt "statement_date", VStr (txt "2024-01-15"));
               (txt "due_date", VStr (txt "2024-02-05"));
               (txt "total_due", VFloat (Finite false 1234500 (-2))) ]).
Proof. vm_compute. reflexivity. Qed.

(** Scenario 3: a due date 600 days in the past. *)
Example scenario_stale_due_date :
  (toordinal mid_january_2024 - toordinal (date 2022 5 25) = 600)%Z
  /\ analyze_pdf (reads (hdfc_statement "15/05/2022" "25/05/2022"))
       mid_january_2024 (txt "statement.pdf") (txt "secret") (txt "hdfc")
     = Ok None.
Proof. split; vm_compute; reflexivity. Qed.

(** The content guard of ICICI. *)
Example scenario_amortization_schedule :
  analyze_pdf
    (reads (txt "Amortization Schedule 1234XXXXXXXX5678 Due Date 05/02/2024"))
    mid_january_2024 (txt "loan.pdf") (txt "secret") (txt "ICICI")
  = Ok None.
Proof. vm_compute. reflexivity. Qed.

(* ================================================================== *)
(** * Further properties *)
(* ================================================================== *)

(** ** Canonical dates are read back *)

Lemma strptime_is_date (s f : str) (t : datetime) :
  strptime s f = Ok t -> is_date t.
Proof.
  unfold strptime, is_date.
  destruct (compile_format f) as [ts|]; [|discriminate].
  destruct (run ts s) as [[ps [|c rest]]|]; try discriminate.
  destruct (read_fields ts ps _) as [[[y m] d]|]; [|discriminate].
  destruct (valid_ymd y m d) eqn:E; [|discriminate].
  intros [= <-]. simpl. now split.
Qed.

Lemma digit_chr_digit (x : Z) : is_digit (digit_chr x) = true.
Proof.
  unfold is_digit, digit_chr, in_range.
  pose proof (Z.mod_pos_bound x 10 ltac:(lia)) as H.
  apply andb_true_iff. split; apply N.leb_le; lia.
Qed.

Lemma digit_chr_val (x : Z) : digit_val (digit_chr x) = (x mod 10)%Z.
Proof.
  unfold digit_val, digit_chr.
  pose proof (Z.mod_pos_bound x 10 ltac:(lia)) as H. lia.
Qed.

Lemma pad4_value (y : Z) :
  (0 <= y <= 9999)%Z -> int_of_str (pad4 y) = Some y.
Proof.
  intros Hy. unfold pad4.
  assert (Hs : forall x, is_space (digit_chr x) = false).
  { intros x. apply (digit_classes _ (digit_chr_digit x)). }
  unfold int_of_str, strip. rewrite (lstrip_keep _ _ (Hs _)).
  cbn [rev app]. rewrite (lstrip_keep _ _ (Hs _)).
  cbn [rev app int_digits]. rewrite !digit_chr_digit, !digit_chr_val.
  f_equal. Z.div_mod_to_equations. lia.
Qed.

Lemma run_year (ts : list tok) (a b c d : N) (r : str) :
  is_digit a = true -> is_digit b = true ->
  is_digit c = true -> is_digit d = true ->
  run (TYear :: ts) (a :: b :: c :: d :: r)
  = match run ts r with
    | Some (ps, rest) => Some ([a; b; c; d] :: ps, rest)
    | None => None
    end.
Proof.
  intros Ha Hb Hc Hd. cbn [run alts]. rewrite Ha, Hb, Hc, Hd.
  cbn [andb first_some]. destruct (run ts r) as [[ps rest]|]; reflexivity.
Qed.

Lemma tails_read_back :
  forallb (fun m => forallb (tail_reads_back m) (zrange 1 31)) (zrange 1 12)
  = true.
Proof. vm_compute. reflexivity. Qed.

Lemma in_zrange (lo x : Z) (n : nat) :
  (lo <= x < lo + Z.of_nat n)%Z -> In x (zrange lo n).
Proof.
  intros H. unfold zrange. apply in_map_iff.
  exists (Z.to_nat (x - lo)). split; [lia|]. apply in_seq. lia.
Qed.

Lemma days_in_month_le (y m : Z) : (days_in_month y m <= 31)%Z.
Proof.
  unfold days_in_month.
  repeat match goal with |- context [if ?b then _ else _] => destruct b end;
    lia.
Qed.

(** [strptime(t.strftime('%Y-%m-%d'), '%Y-%m-%d')] is [t]. *)
Lemma iso_round_trip (t : datetime) :
  is_date t -> strptime (strftime_iso t) iso_format = Ok t.
Proof.
  intros [Hvalid Ht]. rewrite Ht at 2.
  destruct t as [y m d hh mi ss us]. simpl in Hvalid. simpl year; simpl month;
    simpl day. clear Ht.
  pose proof Hvalid as Hv. unfold valid_ymd in Hv.
  rewrite !andb_true_iff, !Z.leb_le in Hv.
  destruct Hv as (((((Hy1 & Hy2) & Hm1) & Hm2) & Hd1) & Hd2).
  pose proof (days_in_month_le y m) as Hd3.
  assert (Htail : tail_reads_back m d = true).
  { pose proof tails_read_back as H. rewrite forallb_forall in H.
    specialize (H m (in_zrange 1 m 12 ltac:(lia))).
    rewrite forallb_forall in H. apply H. apply in_zrange. lia. }
  unfold tail_reads_back in Htail.
  unfold strptime, strftime_iso.
  replace (compile_format iso_format)
    with (Some [TYear; TLit (chr "-"); TMonth; TLit (chr "-"); TDay])
    by (vm_compute; reflexivity).
  cbn [year month day]. unfold pad4 at 1. cbn [app].
  rewrite run_year by apply digit_chr_digit.
  change (chr "-" :: pad2 m ++ chr "-" :: pad2 d)
    with ([chr "-"] ++ pad2 m ++ [chr "-"] ++ pad2 d).
  destruct (run _ ([chr "-"] ++ pad2 m ++ [chr "-"] ++ pad2 d))
    as [[[|p1 [|pm [|p2 [|pd [|p5 ps]]]]] [|c rest]]|]; try discriminate.
  destruct (int_of_str pm) as [vm|] eqn:Em; [|discriminate].
  destruct (int_of_str pd) as [vd|] eqn:Ed; [|discriminate].
  apply andb_true_iff in Htail. destruct Htail as [Hvm Hvd].
  apply Z.eqb_eq in Hvm, Hvd. subst vm vd.
  cbn [read_fields].
  change [digit_chr (y / 1000); digit_chr (y / 100); digit_chr (y / 10);
          digit_chr y] with (pad4 y).
  rewrite (pad4_value y) by lia. cbn [option_map].
  rewrite Em. cbn [option_map]. rewrite Ed. cbn [option_map].
  now rewrite Hvalid.
Qed.

Lemma clean_date_source (v : value) (fmt : option str) (iso : str) :
  _clean_and_convert_date v fmt = Some iso ->
  exists s f t, strptime s f = Ok t /\ iso = strftime_iso t.
Proof.
  assert (Hone : forall s f, try_format s f = Some iso ->
                             exists t, strptime s f = Ok t
                                       /\ iso = strftime_iso t).
  { intros s f. unfold try_format.
    destruct (strptime s f) as [t|]; [|discriminate].
    intros [= <-]. now exists t. }
  assert (Hall : forall s l, try_formats s l = Some iso ->
                             exists f t, strptime s f = Ok t
                                         /\ iso = strftime_iso t).
  { intros s l. induction l as [|g l IH]; simpl; [discriminate|].
    destruct (try_format s (txt g)) as [x|] eqn:E; [|exact IH].
    intros [= ->]. destruct (Hone _ _ E) as (t & Ht & ->).
    now exists (txt g), t. }
  unfold _clean_and_convert_date.
  destruct v as [|s|f]; try discriminate.
  destruct (negb (truthy (VStr s))); [discriminate|].
  destruct fmt as [fmt|].
  - destruct (str_eqb fmt []).
    + intros H. destruct (Hall _ _ H) as (f & t & Ht & ->). now exists s, f, t.
    + destruct (try_format s fmt) as [x|] eqn:E.
      * intros [= ->]. destruct (Hone _ _ E) as (t & Ht & ->).
        now exists s, fmt, t.
      * intros H. destruct (Hall _ _ H) as (f & t & Ht & ->).
        now exists s, f, t.
  - intros H. destruct (Hall _ _ H) as (f & t & Ht & ->). now exists s, f, t.
Qed.

Lemma normalized_date_source (v : value) (fmt : option str) (iso : str) :
  _clean_and_convert_date v fmt = Some iso ->
  exists t, is_date t /\ iso = strftime_iso t.
Proof.
  intros H. destruct (clean_date_source v fmt iso H) as (s & f & t & Ht & ->).
  exists t. split; [exact (strptime_is_date s f t Ht) | reflexivity].
Qed.

Lemma iso_in_formats : In "%Y-%m-%d"%string DATE_FORMATS.
Proof. unfold DATE_FORMATS. simpl. tauto. Qed.



(** ** The validator in calendar terms *)

Lemma days_since_date (now d : datetime) :
  valid_time now -> is_date d ->
  days (sub now d) = (toordinal now - toordinal d)%Z.
Proof.
  intros (Hh & Hm & Hs & Hu) [_ Hd].
  destruct d as [y m dd h mi s us]. unfold date in Hd. simpl in Hd.
  injection Hd as -> -> -> ->.
  unfold sub, days, time_us, day_us.
  cbn [second minute hour microsecond].
  rewrite Z.div_small; lia.
Qed.

(** X2.  With a real time of day as [now], [_is_valid_date] accepts a due
    date exactly when it is a [YYYY-MM-DD] date whose year is at most the
    current year plus two, that lies at most 550 calendar days before the
    current day, and that is not before the statement date when there is
    one: the time of day of the run does not matter. *)
Theorem is_valid_date_by_calendar (now : datetime) (due stmt : value) :
  valid_time now ->
  (_is_valid_date now due stmt = true
   <-> exists s d,
         due = VStr s /\ strptime s iso_format = Ok d
         /\ (year d <= year now + 2)%Z
         /\ (toordinal now - toordinal d <= 550)%Z
         /\ (truthy stmt = true ->
             exists ss ds,
               stmt = VStr ss /\ strptime ss iso_format = Ok ds
               /\ ltb d ds = false)).
Proof.
  intros Hnow. split.
  - intros H.
    destruct (is_valid_date_inv now due stmt H)
      as (s & d & -> & _ & Hp & Hy & Hd & Hstmt).
    exists s, d. rewrite <- (days_since_date now d Hnow
                               (strptime_is_date _ _ _ Hp)).
    auto.
  - intros (s & d & -> & Hp & Hy & Hd & Hstmt).
    rewrite <- (days_since_date now d Hnow (strptime_is_date _ _ _ Hp)) in Hd.
    unfold _is_valid_date.
    destruct s as [|c s]; [now apply strptime_not_empty in Hp|].
    change (negb (truthy (VStr (c :: s)))) with false. cbv iota.
    simpl strptime_value. fold iso_format. rewrite Hp.
    apply Z.ltb_ge in Hy, Hd. rewrite Hy, Hd.
    destruct (truthy stmt) eqn:Et; [|reflexivity].
    destruct (Hstmt eq_refl) as (ss & ds & -> & Hps & Hlt).
    simpl strptime_value. rewrite Hps, Hlt. reflexivity.
Qed.

Lemma is_valid_date_by_calendar_witness :
  _is_valid_date (mkDatetime 2024 1 15 23 59 59 999999)
    (VStr (txt "2022-07-14")) (VStr (txt "2022-07-01")) = true.
Proof.
  apply (is_valid_date_by_calendar (mkDatetime 2024 1 15 23 59 59 999999)).
  - unfold valid_time. simpl. lia.
  - exists (txt "2022-07-14"), (date 2022 7 14).
    split; [reflexivity|]. split; [vm_compute; reflexivity|].
    split; [simpl; lia|]. split; [vm_compute; discriminate|].
    intros _. exists (txt "2022-07-01"), (date 2022 7 1).
    split; [reflexivity|]. split; vm_compute; reflexivity.
Defined.

(** ** The second comparison of the dates in [analyze_pdf] *)

Lemma valid_date_not_before_statement (now : datetime) (due stmt : value) :
  _is_valid_date now due stmt = true ->
  due_before_statement stmt due = false.
Proof.
  intros H.
  destruct (is_valid_date_inv now due stmt H)
    as (s & d & -> & Hs & Hp & _ & _ & Hstmt).
  unfold due_before_statement.
  destruct (truthy stmt) eqn:Et; [|reflexivity].
  destruct (Hstmt eq_refl) as (ss & ds & -> & Hps & Hlt).
  destruct (truthy (VStr s)); [|reflexivity]. cbn [andb].
  simpl strptime_value. fold iso_format. now rewrite Hps, Hp.
Qed.

(** X3.  The comparison of the due date with the statement date that
    [analyze_pdf] makes after [_is_valid_date] never rejects a record:
    once a text is there and is not caught by the ICICI guard, the answer
    is decided by the two mandatory fields and [_is_valid_date] alone. *)
Theorem second_date_check_never_rejects
        (extract : str -> str -> option str) (now : datetime)
        (pdf_path password bank text : str) (parsed : dict value) :
  extract pdf_path password = Some text ->
  text <> [] ->
  icici_guard bank text = false ->
  parse_pdf_content text bank = Ok parsed ->
  analyze_pdf extract now pdf_path password bank
  = Ok (accept_or_reject now parsed).
Proof.
  intros He Hne Hg Hp. unfold analyze_pdf, accept_or_reject. rewrite He.
  destruct text as [|c text]; [congruence|].
  unfold icici_guard in Hg. rewrite Hg, Hp. cbn [bind filter].
  fold k_card_last4 k_due_date k_statement_date.
  destruct (truthy (dict_get parsed k_card_last4));
    destruct (truthy (dict_get parsed k_due_date)); try reflexivity.
  cbn [negb andb].
  destruct (_is_valid_date now _ _) eqn:Ev; [|reflexivity].
  now rewrite (valid_date_not_before_statement _ _ _ Ev).
Qed.

Lemma second_date_check_never_rejects_witness :
  analyze_pdf (reads (hdfc_statement "15/01/2024" "01/01/2023"))
    mid_january_2024 (txt "statement.pdf") (txt "secret") (txt "HDFC")
  = Ok (accept_or_reject mid_january_2024
          (record_of (hdfc_statement "15/01/2024" "01/01/2023")
             (txt "HDFC") (profile_of (txt "HDFC")))).
Proof.
  apply (second_date_check_never_rejects
           (reads (hdfc_statement "15/01/2024" "01/01/2023"))
           mid_january_2024 (txt "statement.pdf") (txt "secret") (txt "HDFC")
           (hdfc_statement "15/01/2024" "01/01/2023")).
  - reflexivity.
  - discriminate.
  - vm_compute. reflexivity.
  - vm_compute. reflexivity.
Defined.

(** ** The shape of a parsed record *)

Lemma dict_set_entry {V} (d : dict V) (k k' : str) (v v' : V) :
  In (k', v') (dict_set d k v) -> (k' = k /\ v' = v) \/ In (k', v') d.
Proof.
  induction d as [|[k0 v0] d IH]; simpl.
  - intros [[= <- <-]|[]]. now left.
  - destruct (str_eqb k0 k) eqn:E.
    + apply str_eqb_eq in E. subst k0.
      intros [[= <- <-]|H]; [now left | right; now right].
    + intros [H|H]; [right; now left|].
      destruct (IH H) as [?|?]; [now left | right; now right].
Qed.

Lemma dict_set_keys {V} (d : dict V) (k : str) (v : V) :
  map fst (dict_set d k v)
  = if existsb (str_eqb k) (map fst d) then map fst d else map fst d ++ [k].
Proof.
  induction d as [|[k0 v0] d IH]; simpl; [reflexivity|].
  destruct (str_eqb k0 k) eqn:E.
  - apply str_eqb_eq in E. subst k0. now rewrite str_eqb_refl.
  - assert (E' : str_eqb k k0 = false).
    { apply str_eqb_neq. apply str_eqb_neq in E. congruence. }
    rewrite E'. simpl. rewrite IH.
    destruct (existsb (str_eqb k) (map fst d)); reflexivity.
Qed.

Lemma nodup_snoc {A} (l : list A) (x : A) :
  NoDup l -> ~ In x l -> NoDup (l ++ [x]).
Proof.
  induction 1 as [|y l Hy Hl IH]; simpl; intros Hx.
  - constructor; [intros [] | constructor].
  - constructor.
    + rewrite in_app_iff. intros [H|[<-|[]]]; [now apply Hy | apply Hx; now left].
    + apply IH. intros H. apply Hx. now right.
Qed.

Lemma dict_set_nodup {V} (d : dict V) (k : str) (v : V) :
  NoDup (map fst d) -> NoDup (map fst (dict_set d k v)).
Proof.
  intros H. rewrite dict_set_keys.
  destruct (existsb (str_eqb k) (map fst d)) eqn:E; [exact H|].
  apply nodup_snoc; [exact H|]. intros Hin.
  assert (Habs : existsb (str_eqb k) (map fst d) = true).
  { apply existsb_exists. exists k. split; [exact Hin | apply str_eqb_refl]. }
  congruence.
Qed.

Lemma typed_record_set (bank : str) (d : dict value) (k : str) (v : value) :
  typed_record bank d -> well_typed_entry bank k v ->
  typed_record bank (dict_set d k v).
Proof.
  intros [Hn Ht] Hv. split; [now apply dict_set_nodup|].
  intros k' v' H. destruct (dict_set_entry _ _ _ _ _ H) as [[-> ->]|H'];
    [exact Hv | now apply Ht].
Qed.

Lemma norm_date_typed (v : value) :
  norm_date v = VNone
  \/ exists t, is_date t /\ norm_date v = VStr (strftime_iso t).
Proof.
  unfold norm_date.
  destruct (_clean_and_convert_date v None) as [iso|] eqn:E; [|now left].
  destruct (normalized_date_source v None iso E) as (t & Ht & ->).
  right. now exists t.
Qed.

Lemma norm_amount_typed (v : value) :
  norm_amount v = VNone \/ exists f, norm_amount v = VFloat f.
Proof.
  unfold norm_amount. destruct (_clean_and_convert_amount v) as [f|];
    [right; now exists f | now left].
Qed.

Lemma typed_record_set_field (bank key : str) (m : option Re.Match)
      (pick : list (option str) -> option str) (norm : value -> value)
      (d : dict value) :
  (forall g, well_typed_entry bank key (norm (of_group g))) ->
  typed_record bank d -> typed_record bank (set_field key m pick norm d).
Proof.
  intros Hv Hd. destruct m as [m|]; simpl; [|exact Hd].
  apply typed_record_set; [exact Hd | apply Hv].
Qed.

Lemma amount_entry_typed (bank key : str) (v : value) :
  In key amount_keys -> well_typed_entry bank key (norm_amount v).
Proof.
  intros H. right; right; right. split; [exact H | apply norm_amount_typed].
Qed.

Lemma date_entry_typed (bank key : str) (v : value) :
  In key date_keys -> well_typed_entry bank key (norm_date v).
Proof.
  intros H. right; right; left. split; [exact H | apply norm_date_typed].
Qed.

Lemma card_entry_typed (bank : str) (g : option str) :
  well_typed_entry bank (txt "card_last4") (of_group g).
Proof. right; left. split; [reflexivity | apply of_group_shape]. Qed.

Lemma record_of_typed (text bank : str) (patterns : profile) :
  typed_record bank (record_of text bank patterns).
Proof.
  unfold record_of.
  repeat (apply typed_record_set_field;
          [intros g;
           first [ apply card_entry_typed
                 | apply amount_entry_typed; unfold amount_keys; simpl; tauto
                 | apply date_entry_typed; unfold date_keys; simpl; tauto ] |]).
  split; [repeat constructor; intros [] |].
  intros k v [[= <- <-]|[]]. left. now split.
Qed.

(** X4.  [parse_pdf_content] returns a mapping for every text and every
    institution (no strategy list is missing from a profile and no
    strategy is without a group).  Its keys are distinct; [bank_name] is
    the identifier in upper case, [card_last4] a string or [None], a date a
    canonical calendar date or [None], an amount a number or [None]. *)
Theorem parsed_record_is_well_typed (text bank : str) :
  exists record,
    parse_pdf_content text bank = Ok record
    /\ NoDup (map fst record)
    /\ forall k v, In (k, v) record -> well_typed_entry bank k v.
Proof.
  destruct (dict_lookup catalog (lower bank)) as [patterns|] eqn:E.
  - exists (record_of text bank patterns).
    split; [now apply parse_known | apply record_of_typed].
  - exists []. split; [now apply parse_unknown|].
    split; [constructor | intros k v []].
Qed.

(** ** The due date of an accepted record *)

Lemma dict_lookup_entry {V} (d : dict V) (k : str) (v : V) :
  dict_lookup d k = Some v -> In (k, v) d.
Proof.
  induction d as [|[k0 v0] d IH]; simpl; [discriminate|].
  destruct (str_eqb k0 k) eqn:E.
  - apply str_eqb_eq in E. subst k0. intros [= ->]. now left.
  - intros H. right. now apply IH.
Qed.

Lemma parse_typed (text bank : str) (parsed : dict value) :
  parse_pdf_content text bank = Ok parsed -> typed_record bank parsed.
Proof.
  intros Hp. destruct (dict_lookup catalog (lower bank)) as [patterns|] eqn:E.
  - rewrite (parse_known text bank patterns E) in Hp. injection Hp as <-.
    apply record_of_typed.
  - rewrite (parse_unknown text bank E) in Hp. injection Hp as <-.
    split; [constructor | intros k v []].
Qed.

Lemma typed_due_date (bank : str) (d : dict value) (due : str) :
  typed_record bank d ->
  dict_lookup d k_due_date = Some (VStr due) ->
  exists t, is_date t /\ due = strftime_iso t.
Proof.
  intros [_ Ht] Hl. apply dict_lookup_entry in Hl.
  destruct (Ht _ _ Hl) as [[Hk _]|[[Hk _]|[[_ Hv]|[Hk _]]]].
  - vm_compute in Hk. discriminate.
  - vm_compute in Hk. discriminate.
  - destruct Hv as [Hv|(t & Hdate & [= ->])]; [discriminate|]. now exists t.
  - vm_compute in Hk. repeat (destruct Hk as [Hk|Hk]; [discriminate|]).
    destruct Hk.
Qed.

(** X5.  The due date of a record [analyze_pdf] accepts is a canonical
    calendar date whose year is at most the current year plus two and
    that lies at most 550 days before the current time. *)
Theorem accepted_due_date_in_window
        (extract : str -> str -> option str) (now : datetime)
        (pdf_path password bank : str) (record : dict value) :
  analyze_pdf extract now pdf_path password bank = Ok (Some record) ->
  exists d,
    is_date d
    /\ dict_lookup record k_due_date = Some (VStr (strftime_iso d))
    /\ (year d <= year now + 2)%Z
    /\ (days (sub now d) <= 550)%Z.
Proof.
  intros H.
  destruct (accepted_due_in_window _ _ _ _ _ _ H)
    as (due & d & Hl & Hp & Hy & Hd).
  destruct (analyze_accept_inv _ _ _ _ _ _ H) as (text & _ & Hparse & _).
  destruct (typed_due_date bank record due (parse_typed _ _ _ Hparse) Hl)
    as (t & Ht & ->).
  rewrite (iso_round_trip t Ht) in Hp. injection Hp as <-.
  now exists t.
Qed.

Lemma accepted_due_date_in_window_witness :
  exists d,
    is_date d
    /\ dict_lookup
         (record_of (hdfc_statement "15/01/2024" "16/01/2026")
            (txt "HDFC") (profile_of (txt "HDFC")))
         k_due_date = Some (VStr (strftime_iso d))
    /\ (year d <= year mid_january_2024 + 2)%Z
    /\ (days (sub mid_january_2024 d) <= 550)%Z.
Proof.
  apply (accepted_due_date_in_window
           (reads (hdfc_statement "15/01/2024" "16/01/2026"))
           mid_january_2024 (txt "statement.pdf") (txt "secret") (txt "HDFC")).
  vm_compute. reflexivity.
Defined.

(** ** Text extraction *)

Lemma read_pages_lines (ps : list Adapter.page) (text : str) :
  Adapter.read_pages ps text = (text ++ lines_of ps, raises ps).
Proof.
  revert text. induction ps as [|[[[|c t]|]|] ps IH]; intros text; simpl.
  - now rewrite app_nil_r.
  - apply IH.
  - rewrite IH. f_equal. rewrite <- app_assoc. f_equal. simpl.
    rewrite <- app_assoc. reflexivity.
  - apply IH.
  - now rewrite app_nil_r.
Qed.



(** ** Substrings *)

Lemma starts_with_iff (p s : str) :
  starts_with p s = true <-> exists post, s = p ++ post.
Proof.
  revert s. induction p as [|a p IH]; intros s; simpl.
  - split; [intros _; now exists s | reflexivity].
  - destruct s as [|b s].
    + split; [discriminate | intros (post & H); discriminate].
    + rewrite andb_true_iff, N.eqb_eq, IH. split.
      * intros [-> (post & ->)]. now exists post.
      * intros (post & [= -> ->]). split; [reflexivity | now exists post].
Qed.

Lemma contains_iff (needle hay : str) :
  contains needle hay = true <-> exists pre post, hay = pre ++ needle ++ post.
Proof.
  induction hay as [|c hay IH].
  - simpl. rewrite orb_false_r, starts_with_iff. split.
    + intros (post & H). now exists [], post.
    + intros (pre & post & H). destruct pre; [|discriminate].
      now exists post.
  - simpl. rewrite orb_true_iff, IH, starts_with_iff. split.
    + intros [(post & H)|(pre & post & ->)].
      * now exists [], post.
      * now exists (c :: pre), post.
    + intros ([|x pre] & post & H).
      * left. now exists post.
      * right. injection H as -> ->. now exists pre, post.
Qed.

Lemma contains_trans (a b c : str) :
  contains a b = true -> contains b c = true -> contains a c = true.
Proof.
  rewrite !contains_iff. intros (p1 & q1 & ->) (p2 & q2 & ->).
  exists (p2 ++ p1), (q1 ++ q2). now rewrite <- !app_assoc.
Qed.

Lemma starts_with_contains (p s : str) :
  starts_with p s = true -> contains p s = true.
Proof. intros H. destruct s; simpl; now rewrite H. Qed.

Lemma contains_or_starts (bank domain : str) :
  contains bank domain || starts_with bank domain = contains bank domain.
Proof.
  destruct (contains bank domain) eqn:E; [reflexivity|].
  destruct (starts_with bank domain) eqn:S; [|reflexivity].
  apply starts_with_contains in S. congruence.
Qed.

(** ** The bank of a sender *)

Lemma domain_loop_lookup (bank : str) (senders : list str) (d : dict str)
      (domain : str) :
  dict_lookup
    (fold_left
       (fun d x =>
          if contains bank x || starts_with bank x
          then dict_set d x bank else d)
       senders d) domain
  = if existsb (str_eqb domain) senders && contains bank domain
    then Some bank else dict_lookup d domain.
Proof.
  revert d. induction senders as [|x senders IH]; intros d.
  - reflexivity.
  - cbn [fold_left existsb]. rewrite IH, contains_or_starts.
    destruct (str_eqb domain x) eqn:E.
    + apply str_eqb_eq in E. subst x. cbn [orb].
      destruct (contains bank domain) eqn:C.
      * rewrite andb_true_r.
        destruct (existsb (str_eqb domain) senders); [reflexivity|].
        now rewrite dict_lookup_set, str_eqb_refl.
      * now rewrite andb_false_r.
    + cbn [orb].
      destruct (existsb (str_eqb domain) senders && contains bank domain);
        [reflexivity|].
      destruct (contains bank x); [|reflexivity].
      rewrite dict_lookup_set.
      assert (E' : str_eqb x domain = false).
      { apply str_eqb_neq. apply str_eqb_neq in E. congruence. }
      now rewrite E'.
Qed.

Lemma domain_to_bank_snoc (banks : list str) (bank : str)
      (senders : list str) :
  Main.domain_to_bank (banks ++ [bank]) senders
  = fold_left
      (fun d x =>
         if contains bank x || starts_with bank x
         then dict_set d x bank else d)
      senders (Main.domain_to_bank banks senders).
Proof. unfold Main.domain_to_bank. now rewrite fold_left_app. Qed.

Lemma domain_to_bank_lookup (banks senders : list str) (domain : str) :
  dict_lookup (Main.domain_to_bank banks senders) domain
  = if existsb (str_eqb domain) senders then last_bank_in banks domain
    else None.
Proof.
  unfold last_bank_in.
  induction banks as [|bank banks IH] using rev_ind.
  - cbn. now destruct (existsb _ _).
  - rewrite domain_to_bank_snoc, domain_loop_lookup, IH, rev_app_distr.
    cbn [rev app find].
    destruct (existsb (str_eqb domain) senders); cbn [andb]; [|reflexivity].
    now destruct (contains bank domain).
Qed.

Lemma domain_loop_nodup (bank : str) (senders : list str) (d : dict str) :
  NoDup (map fst d) ->
  NoDup (map fst
           (fold_left
              (fun d x =>
                 if contains bank x || starts_with bank x
                 then dict_set d x bank else d)
              senders d)).
Proof.
  revert d. induction senders as [|x senders IH]; intros d H; [exact H|].
  cbn [fold_left]. apply IH.
  destruct (contains bank x || starts_with bank x); [|exact H].
  now apply dict_set_nodup.
Qed.

Lemma domain_to_bank_nodup (banks senders : list str) :
  NoDup (map fst (Main.domain_to_bank banks senders)).
Proof.
  induction banks as [|bank banks IH] using rev_ind.
  - constructor.
  - rewrite domain_to_bank_snoc. now apply domain_loop_nodup.
Qed.

Lemma nodup_lookup {V} (d : dict V) (k : str) (v : V) :
  NoDup (map fst d) -> In (k, v) d -> dict_lookup d k = Some v.
Proof.
  induction d as [|[k0 v0] d IH]; simpl; [intros _ []|].
  intros Hn [[= -> ->]|Hin].
  - now rewrite str_eqb_refl.
  - inversion Hn as [|? ? Hk Hd]; subst.
    destruct (str_eqb k0 k) eqn:E.
    + apply str_eqb_eq in E. subst k0. exfalso. apply Hk.
      change k with (fst (k, v)). now apply in_map.
    + now apply IH.
Qed.

Lemma find_bank_entry (items : dict str) (sender_lower bank : str) :
  Main.find_bank items sender_lower = Some bank ->
  exists domain,
    In (domain, bank) items /\ contains domain sender_lower = true.
Proof.
  induction items as [|[domain b] items IH]; simpl; [discriminate|].
  destruct (contains domain sender_lower) eqn:E.
  - intros [= ->]. exists domain. split; [now left | exact E].
  - intros H. destruct (IH H) as (dom & Hin & Hc).
    exists dom. split; [now right | exact Hc].
Qed.

(** X7.  In the table [domain_to_bank] a domain of the list of senders
    has the last bank (in the order of the passwords of the first user)
    whose name occurs in the domain; a domain in which no bank occurs,
    and a string that is not in the list, have no entry. *)
Theorem domain_to_bank_last_bank_wins (banks senders : list str)
        (domain : str) :
  dict_lookup (Main.domain_to_bank banks senders) domain
  = if existsb (str_eqb domain) senders
    then find (fun bank => contains bank domain) (rev banks)
    else None.
Proof. exact (domain_to_bank_lookup banks senders domain). Qed.

(** X8.  The bank chosen for a sender is a bank of the table whose
    name occurs in a listed domain that occurs in the sender, so the
    name of the bank itself occurs in the sender. *)
Theorem chosen_bank_occurs_in_sender (banks senders : list str)
        (sender_lower bank : str) :
  Main.find_bank (Main.domain_to_bank banks senders) sender_lower
  = Some bank ->
  In bank banks
  /\ exists domain,
       In domain senders
       /\ contains bank domain = true
       /\ contains domain sender_lower = true
       /\ contains bank sender_lower = true.
Proof.
  intros H. destruct (find_bank_entry _ _ _ H) as (domain & Hin & Hc).
  apply (nodup_lookup _ _ _ (domain_to_bank_nodup banks senders)) in Hin.
  rewrite domain_to_bank_lookup in Hin. unfold last_bank_in in Hin.
  destruct (existsb (str_eqb domain) senders) eqn:E; [|discriminate].
  apply existsb_exists in E. destruct E as (x & Hx & Ex).
  apply str_eqb_eq in Ex. subst x.
  apply find_some in Hin. destruct Hin as [Hb Hbd].
  split; [now apply in_rev|].
  exists domain. repeat split; try assumption.
  exact (contains_trans _ _ _ Hbd Hc).
Qed.

Lemma chosen_bank_occurs_in_sender_witness :
  In (txt "hdfc") [txt "sbi"; txt "hdfc"]
  /\ exists domain,
       In domain [txt "hdfcbank.net"; txt "sbicard.com"]
       /\ contains (txt "hdfc") domain = true
       /\ contains domain (txt "hdfc bank <statements@hdfcbank.net>") = true
       /\ contains (txt "hdfc") (txt "hdfc bank <statements@hdfcbank.net>")
          = true.
Proof.
  apply (chosen_bank_occurs_in_sender
           [txt "sbi"; txt "hdfc"] [txt "hdfcbank.net"; txt "sbicard.com"]
           (txt "hdfc bank <statements@hdfcbank.net>") (txt "hdfc")).
  vm_compute. reflexivity.
Defined.

(** ** The table of bills *)

Lemma fold_max_ge (l : list Z) (a : Z) :
  (a <= fold_left Z.max l a)%Z
  /\ forall x, In x l -> (x <= fold_left Z.max l a)%Z.
Proof.
  revert a. induction l as [|y l IH]; intros a; simpl.
  - split; [lia | intros x []].
  - destruct (IH (Z.max a y)) as [H1 H2]. split; [lia|].
    intros x [<-|Hx]; [lia | now apply H2].
Qed.

Lemma next_id_fresh (conn : Main.database) :
  ~ In (Main.next_id conn) (map Main.id (Main.bills conn)).
Proof.
  unfold Main.next_id. intros H.
  apply (proj2 (fold_max_ge _ (Main.sequence conn))) in H. lia.
Qed.

Lemma next_id_above (conn : Main.database) :
  (Main.sequence conn < Main.next_id conn)%Z.
Proof.
  unfold Main.next_id.
  pose proof (proj1 (fold_max_ge (map Main.id (Main.bills conn))
                       (Main.sequence conn))). lia.
Qed.

Lemma same_text_sym (a b : option str) :
  Main.same_text a b = Main.same_text b a.
Proof.
  destruct a as [a|], b as [b|]; simpl; try reflexivity.
  destruct (str_eqb a b) eqn:E.
  - apply str_eqb_eq in E. subst. now rewrite str_eqb_refl.
  - symmetry. apply str_eqb_neq. apply str_eqb_neq in E. congruence.
Qed.

Lemma str_eqb_sym (a b : str) : str_eqb a b = str_eqb b a.
Proof.
  destruct (str_eqb a b) eqn:E.
  - apply str_eqb_eq in E. subst. now rewrite str_eqb_refl.
  - symmetry. apply str_eqb_neq. apply str_eqb_neq in E. congruence.
Qed.

Lemma conflicts_sym (a b : Main.bill) :
  Main.conflicts a b = Main.conflicts b a.
Proof.
  unfold Main.conflicts.
  now rewrite (str_eqb_sym (Main.user a)), (same_text_sym (Main.card_last4 a)),
    (same_text_sym (Main.statement_date a)).
Qed.

Lemma unique_keys_snoc (rows : list Main.bill) (new : Main.bill) :
  unique_keys rows ->
  existsb (Main.conflicts new) rows = false ->
  unique_keys (rows ++ [new]).
Proof.
  unfold unique_keys. induction 1 as [|a rows Ha Hrows IH]; intros Hn.
  - repeat constructor.
  - cbn [existsb] in Hn. apply orb_false_iff in Hn. destruct Hn as [Hna Hn].
    cbn [app]. constructor.
    + apply Forall_app. split; [exact Ha|].
      constructor; [|constructor]. now rewrite conflicts_sym.
    + now apply IH.
Qed.

Lemma insert_or_ignore_cases (conn : Main.database) (row : Z -> Main.bill) :
  let new := row (Main.next_id conn) in
  let conn' := Main.insert_or_ignore conn row in
  Main.sequence conn' = Main.next_id conn
  /\ (existsb (Main.conflicts new) (Main.bills conn) = true
      /\ Main.bills conn' = Main.bills conn
      \/ existsb (Main.conflicts new) (Main.bills conn) = false
         /\ Main.bills conn' = Main.bills conn ++ [new]).
Proof.
  unfold Main.insert_or_ignore. cbv zeta.
  destruct (existsb _ _); cbn; auto.
Qed.

(** X9.  [insert_bill] keeps the table sound: the ids stay distinct and
    no two rows share a key; the rows there are stay as they are, in
    their order, and at most one row is added, for the user given, with
    an id above every id used so far.  An insert that is ignored uses
    up an id as well. *)
Theorem insert_bill_keeps_the_table_sound
        (real_as_text : pyfloat -> str)
        (text_as_real : str -> Main.sqlvalue)
        (conn : Main.database) (bill_data : dict value) (user : str) :
  NoDup (map Main.id (Main.bills conn)) ->
  unique_keys (Main.bills conn) ->
  let conn' :=
    Main.insert_bill real_as_text text_as_real conn bill_data user in
  NoDup (map Main.id (Main.bills conn'))
  /\ unique_keys (Main.bills conn')
  /\ (Main.bills conn' = Main.bills conn
      \/ exists row,
           Main.bills conn' = Main.bills conn ++ [row]
           /\ Main.user row = user
           /\ Main.card_last4 row = card_of real_as_text bill_data
           /\ Main.statement_date row = statement_of real_as_text bill_data
           /\ (Main.sequence conn < Main.id row)%Z
           /\ Forall (fun old => (Main.id old < Main.id row)%Z)
                (Main.bills conn))
  /\ (Main.sequence conn < Main.sequence conn')%Z.
Proof.
  intros Hids Hkeys conn'. subst conn'. unfold Main.insert_bill.
  match goal with
  | |- context [Main.insert_or_ignore conn ?r] =>
      destruct (insert_or_ignore_cases conn r) as [Hs [[_ Hb]|[Hc Hb]]];
        set (row := r) in *
  end; cbv zeta in *; rewrite Hb, Hs.
  - repeat split; auto using next_id_above.
  - repeat split.
    + rewrite map_app. apply nodup_snoc; [exact Hids | apply next_id_fresh].
    + now apply unique_keys_snoc.
    + right. exists (row (Main.next_id conn)).
      repeat split; try reflexivity; [apply next_id_above|].
      apply Forall_forall. intros old Hold. cbn.
      pose proof (proj2 (fold_max_ge (map Main.id (Main.bills conn))
                           (Main.sequence conn)) (Main.id old)
                    (in_map _ _ _ Hold)).
      unfold Main.next_id. lia.
    + apply next_id_above.
Qed.

Lemma insert_bill_keeps_the_table_sound_witness :
  let conn :=
    Main.mkDatabase
      [Main.mkBill 1 (txt "rahul") (Some (txt "HDFC")) (Some (txt "1234"))
         (Some (txt "2024-01-15")) Main.SNull (Some (txt "2024-02-04"))
         Main.SNull Main.SNull Main.SNull] 3 in
  let conn' :=
    Main.insert_bill (fun _ => []) (fun _ => Main.SNull) conn
      [(txt "card_last4", VStr (txt "1234"));
       (txt "due_date", VStr (txt "2024-03-04"))] (txt "rahul") in
  NoDup (map Main.id (Main.bills conn'))
  /\ unique_keys (Main.bills conn')
  /\ (Main.bills conn' = Main.bills conn
      \/ exists row,
           Main.bills conn' = Main.bills conn ++ [row]
           /\ Main.user row = txt "rahul"
           /\ Main.card_last4 row
              = card_of (fun _ => [])
                  [(txt "card_last4", VStr (txt "1234"));
                   (txt "due_date", VStr (txt "2024-03-04"))]
           /\ Main.statement_date row
              = statement_of (fun _ => [])
                  [(txt "card_last4", VStr (txt "1234"));
                   (txt "due_date", VStr (txt "2024-03-04"))]
           /\ (Main.sequence conn < Main.id row)%Z
           /\ Forall (fun old => (Main.id old < Main.id row)%Z)
                (Main.bills conn))
  /\ (Main.sequence conn < Main.sequence conn')%Z.
Proof.
  apply (insert_bill_keeps_the_table_sound
           (fun _ => []) (fun _ => Main.SNull)
           (Main.mkDatabase
              [Main.mkBill 1 (txt "rahul") (Some (txt "HDFC"))
                 (Some (txt "1234")) (Some (txt "2024-01-15")) Main.SNull
                 (Some (txt "2024-02-04")) Main.SNull Main.SNull Main.SNull]
              3)).
  - repeat constructor. intros [].
  - repeat constructor.
Defined.

Lemma same_text_refl (a : option str) :
  a <> None -> Main.same_text a a = true.
Proof. destruct a as [a|]; [intros _; apply str_eqb_refl | congruence]. Qed.

Lemma existsb_snoc {A} (f : A -> bool) (l : list A) (x : A) :
  existsb f (l ++ [x]) = existsb f l || f x.
Proof. rewrite existsb_app. cbn. now rewrite orb_false_r. Qed.

Lemma conflicts_null_card (a b : Main.bill) :
  Main.card_last4 a = None -> Main.conflicts a b = false.
Proof.
  intros H. unfold Main.conflicts. rewrite H. cbn.
  now rewrite andb_false_r.
Qed.

Lemma conflicts_null_statement (a b : Main.bill) :
  Main.statement_date a = None -> Main.conflicts a b = false.
Proof.
  intros H. unfold Main.conflicts. rewrite H. cbn.
  now rewrite andb_false_r.
Qed.

Lemma existsb_none {A} (f : A -> bool) (l : list A) :
  (forall x, f x = false) -> existsb f l = false.
Proof. intros H. induction l; simpl; [reflexivity | now rewrite H]. Qed.

(** X10.  A bill inserted a second time adds no row when its card and
    its statement date (or, without one, its due date) are there: the
    table after the second insert has the rows it had after the first.
    When the card is missing, or both dates are, the key holds a NULL,
    nothing is in conflict with it, and every insert adds a row. *)
Theorem insert_bill_twice
        (real_as_text : pyfloat -> str)
        (text_as_real : str -> Main.sqlvalue)
        (conn : Main.database) (bill_data : dict value) (user : str) :
  let once :=
    Main.insert_bill real_as_text text_as_real conn bill_data user in
  let twice :=
    Main.insert_bill real_as_text text_as_real once bill_data user in
  (card_of real_as_text bill_data <> None ->
   statement_of real_as_text bill_data <> None ->
   Main.bills twice = Main.bills once)
  /\ (card_of real_as_text bill_data = None
      \/ statement_of real_as_text bill_data = None ->
      exists first second,
        Main.bills twice = Main.bills conn ++ [first; second]
        /\ Main.id first <> Main.id second
        /\ second
           = Main.mkBill (Main.id second) (Main.user first)
               (Main.bank_name first) (Main.card_last4 first)
               (Main.statement_date first) (Main.total_due first)
               (Main.due_date first) (Main.min_due first)
               (Main.credit_limit first) (Main.available_limit first)).
Proof.
  cbv zeta. unfold Main.insert_bill, card_of, statement_of.
  match goal with
  | |- context [Main.insert_or_ignore conn ?r] => set (row := r)
  end.
  split.
  - intros Hcard Hstmt.
    destruct (insert_or_ignore_cases conn row) as [Hs [[Hc Hb]|[Hc Hb]]];
      cbv zeta in *;
      destruct (insert_or_ignore_cases (Main.insert_or_ignore conn row) row)
        as [_ [[_ Hb2]|[Hc2 _]]]; cbv zeta in *; try exact Hb2; exfalso.
    + rewrite Hb in Hc2.
      change (existsb (Main.conflicts (row (Main.next_id conn)))
                (Main.bills conn) = false) in Hc2.
      congruence.
    + rewrite Hb, existsb_snoc in Hc2. apply orb_false_iff in Hc2.
      destruct Hc2 as [_ Hc2]. unfold Main.conflicts in Hc2. subst row.
      cbn in Hc2.
      rewrite str_eqb_refl, !same_text_refl in Hc2 by assumption.
      discriminate.
  - intros Hnull.
    assert (Hfree : forall i b, Main.conflicts (row i) b = false).
    { intros i b. destruct Hnull as [H|H];
        [apply conflicts_null_card | apply conflicts_null_statement];
        exact H. }
    destruct (insert_or_ignore_cases conn row) as [Hs [[Hc _]|[_ Hb]]];
      cbv zeta in *;
      [rewrite (existsb_none _ _ (Hfree _)) in Hc; discriminate|].
    destruct (insert_or_ignore_cases (Main.insert_or_ignore conn row) row)
      as [_ [[Hc _]|[_ Hb2]]]; cbv zeta in *;
      [rewrite (existsb_none _ _ (Hfree _)) in Hc; discriminate|].
    exists (row (Main.next_id conn)),
           (row (Main.next_id (Main.insert_or_ignore conn row))).
    rewrite Hb2, Hb, <- app_assoc. repeat split.
    pose proof (next_id_fresh (Main.insert_or_ignore conn row)) as Hf.
    rewrite Hb, map_app, in_app_iff in Hf. intros E.
    apply Hf. right. left. exact E.
Qed.

(** A record without a card is stored as often as it is inserted. *)
Lemma insert_bill_twice_witness :
  let conn := Main.mkDatabase [] 0 in
  let bill_data := [(txt "due_date", VStr (txt "2024-03-04"))] in
  exists first second,
    Main.bills
      (Main.insert_bill (fun _ => []) (fun _ => Main.SNull)
         (Main.insert_bill (fun _ => []) (fun _ => Main.SNull)
            conn bill_data (txt "rahul"))
         bill_data (txt "rahul"))
    = Main.bills conn ++ [first; second]
    /\ Main.id first <> Main.id second
    /\ second
       = Main.mkBill (Main.id second) (Main.user first)
           (Main.bank_name first) (Main.card_last4 first)
           (Main.statement_date first) (Main.total_due first)
           (Main.due_date first) (Main.min_due first)
           (Main.credit_limit first) (Main.available_limit first).
Proof.
  apply (insert_bill_twice (fun _ => []) (fun _ => Main.SNull)
           (Main.mkDatabase [] 0)
           [(txt "due_date", VStr (txt "2024-03-04"))] (txt "rahul")).
  left. reflexivity.
Defined.

(** ** The records [analyze_pdf] accepts *)

Lemma lex_ltb_irrefl (a : list Z) : lex_ltb a a = false.
Proof.
  induction a as [|x a IH]; simpl; [reflexivity|].
  now rewrite Z.ltb_irrefl, Z.eqb_refl, IH.
Qed.

Lemma ltb_irrefl (t : datetime) : ltb t t = false.
Proof. apply lex_ltb_irrefl. Qed.

Lemma typed_get (bank : str) (d : dict value) (k : str) :
  typed_record bank d ->
  dict_get d k = VNone \/ well_typed_entry bank k (dict_get d k).
Proof.
  intros [_ Ht]. unfold dict_get.
  destruct (dict_lookup d k) as [v|] eqn:E; [|now left].
  right. apply Ht. now apply dict_lookup_entry.
Qed.

Lemma strftime_iso_truthy (t : datetime) :
  truthy (VStr (strftime_iso t)) = true.
Proof. reflexivity. Qed.

Lemma accepted_record_shape
      (extract : str -> str -> option str) (now : datetime)
      (pdf_path password bank : str) (parsed : dict value) :
  analyze_pdf extract now pdf_path password bank = Ok (Some parsed) ->
  accepted_shape bank parsed.
Proof.
  intros H.
  destruct (analyze_accept_inv _ _ _ _ _ _ H)
    as (text & _ & Hp & Hc & Hd & Hv).
  pose proof (parse_typed _ _ _ Hp) as Ht.
  unfold k_card_last4, k_due_date, k_statement_date in *.
  repeat split.
  - destruct (dict_lookup catalog (lower bank)) as [patterns|] eqn:E.
    + rewrite (parse_known text bank patterns E) in Hp. injection Hp as <-.
      unfold dict_get.
      assert (Hl : dict_lookup (record_of text bank patterns)
                     (txt "bank_name") = Some (VStr (upper bank)))
        by record_lookup.
      now rewrite Hl.
    + rewrite (parse_unknown text bank E) in Hp. injection Hp as <-.
      discriminate.
  - destruct (truthy_str _ Hc) as [(s & Hs & Hne)|(f & Hf)];
      [now exists s|].
    destruct (typed_get bank parsed (txt "card_last4") Ht) as [Hn|Hw];
      [congruence|].
    rewrite Hf in Hw.
    destruct Hw as [[_ Hw]|[[_ Hw]|[[Hk _]|[Hk _]]]].
    + discriminate.
    + destruct Hw as [Hw|[s Hw]]; discriminate.
    + vm_compute in Hk. repeat (destruct Hk as [Hk|Hk]; [discriminate|]).
      destruct Hk.
    + vm_compute in Hk. repeat (destruct Hk as [Hk|Hk]; [discriminate|]).
      destruct Hk.
  - destruct (is_valid_date_inv _ _ _ Hv)
      as (s & d & Hs & _ & Hps & _ & _ & Hstmt).
    exists d. split; [exact (strptime_is_date _ _ _ Hps)|].
    assert (Hdue : forall k v t,
               dict_get parsed k = VStr v ->
               In k date_keys ->
               strptime v iso_format = Ok t -> v = strftime_iso t).
    { intros k v t Hg Hk Hpv.
      destruct (typed_get bank parsed k Ht) as [Hn|Hw]; [congruence|].
      rewrite Hg in Hw.
      destruct Hw as [[Hk' _]|[[Hk' _]|[[_ Hw]|[Hk' _]]]].
      - subst k. vm_compute in Hk.
        repeat (destruct Hk as [Hk|Hk]; [discriminate|]). destruct Hk.
      - subst k. vm_compute in Hk.
        repeat (destruct Hk as [Hk|Hk]; [discriminate|]). destruct Hk.
      - destruct Hw as [Hw|(t' & Ht' & [= ->])]; [discriminate|].
        rewrite (iso_round_trip t' Ht') in Hpv. now injection Hpv as ->.
      - exfalso. revert Hk Hk'. clear. vm_compute.
        intros Hk Hk'.
        repeat (destruct Hk as [Hk|Hk];
                [subst k;
                 repeat (destruct Hk' as [Hk'|Hk']; [discriminate|]);
                 destruct Hk'|]).
        destruct Hk. }
    split.
    + rewrite Hs. f_equal.
      apply (Hdue (txt "due_date") s d Hs); [vm_compute; auto | exact Hps].
    + destruct (truthy (dict_get parsed (txt "statement_date"))) eqn:Et.
      * right. destruct (Hstmt eq_refl) as (ss & ds & Hss & Hpss & Hlt).
        exists ds. split; [exact (strptime_is_date _ _ _ Hpss)|].
        split; [|exact Hlt].
        rewrite Hss. f_equal.
        apply (Hdue (txt "statement_date") ss ds Hss);
          [vm_compute; auto | exact Hpss].
      * left.
        destruct (typed_get bank parsed (txt "statement_date") Ht)
          as [Hn|Hw]; [exact Hn|].
        destruct Hw as [[Hk _]|[[Hk _]|[[_ Hw]|[Hk _]]]].
        -- vm_compute in Hk. discriminate.
        -- vm_compute in Hk. discriminate.
        -- destruct Hw as [Hw|(t' & _ & Hw)]; [exact Hw|].
           rewrite Hw in Et. discriminate.
        -- vm_compute in Hk.
           repeat (destruct Hk as [Hk|Hk]; [discriminate|]). destruct Hk.
  - intros k Hk.
    destruct (typed_get bank parsed k Ht) as [Hn|Hw]; [now left|].
    destruct Hw as [[Hk' _]|[[Hk' _]|[[Hk' _]|[_ Hw]]]].
    + exfalso. subst k. vm_compute in Hk.
      repeat (destruct Hk as [Hk|Hk]; [discriminate|]). destruct Hk.
    + exfalso. subst k. vm_compute in Hk.
      repeat (destruct Hk as [Hk|Hk]; [discriminate|]). destruct Hk.
    + exfalso. revert Hk Hk'. clear. vm_compute.
      intros Hk Hk'.
      repeat (destruct Hk as [Hk|Hk];
              [subst k;
               repeat (destruct Hk' as [Hk'|Hk']; [discriminate|]);
               destruct Hk'|]).
      destruct Hk.
    + exact Hw.
Qed.

(** ** One user's messages *)

Section Messages.

Variable real_as_text : pyfloat -> str.
Variable text_as_real : str -> Main.sqlvalue.
Variable write_file : str -> list N -> outcome unit.
Variable remove_file : str -> outcome unit.
Variable read_document : list N -> str -> str -> option str.
Variable now : datetime.

Local Abbreviation analyze e pwd bank :=
  (analyze_pdf (read_document (Gmail.pdf_data e)) now
     (txt "temp_" ++ Gmail.filename e) pwd bank).

Local Abbreviation try_passwords :=
  (Main.try_passwords write_file remove_file read_document now).

Local Abbreviation process_email :=
  (Main.process_email real_as_text text_as_real write_file remove_file
     read_document now).

Local Abbreviation process_emails :=
  (Main.process_emails real_as_text text_as_real write_file remove_file
     read_document now).

Lemma accepted_true (parsed_data : option (dict value)) :
  Main.accepted parsed_data = true ->
  exists entry entries, parsed_data = Some (entry :: entries).
Proof. destruct parsed_data as [[|x xs]|]; try discriminate; eauto. Qed.

Lemma analyze_accepted (e : Gmail.email) (pwd bank : str)
      (parsed : dict value) :
  analyze e pwd bank = Ok (Some parsed) ->
  Main.accepted (Some parsed) = true.
Proof.
  intros H. apply accepted_record_shape in H.
  destruct H as (_ & (card & Hc & _) & _).
  destruct parsed; [discriminate | reflexivity].
Qed.

Lemma try_passwords_result (e : Gmail.email) (bank : str)
      (passwords : list str) (init answer : option (dict value)) :
  try_passwords e bank passwords init = Ok answer ->
  Main.accepted answer = true ->
  answer = init
  \/ exists pwd parsed,
       In pwd passwords /\ answer = Some parsed
       /\ analyze e pwd bank = Ok (Some parsed).
Proof.
  revert init. induction passwords as [|pwd rest IH]; intros init.
  - cbn. intros [= ->] _. now left.
  - cbn [Main.try_passwords].
    destruct (write_file _ _); [|discriminate]. cbn [bind].
    destruct (analyze e pwd bank) as [parsed_data|] eqn:Ea; [|discriminate].
    cbn [bind]. destruct (remove_file _); [|discriminate]. cbn [bind].
    destruct (Main.accepted parsed_data) eqn:Eacc.
    + intros [= <-] _. right.
      destruct (accepted_true _ Eacc) as (x & xs & ->).
      exists pwd, (x :: xs). split; [now left | auto].
    + intros H Hacc. destruct (IH _ H Hacc) as [->|(p & parsed & Hin & Hp)];
        [congruence|].
      right. exists p, parsed. split; [now right | exact Hp].
Qed.

(** X11.  The loop over the passwords of a bank stops at the first
    password with which [analyze_pdf] accepts the statement and gives
    its record, whatever the passwords after it would give; when every
    password is rejected the message has no record.  (The temporary
    file is written and removed each time.) *)
Theorem first_working_password_wins (e : Gmail.email) (bank : str) :
  write_file (txt "temp_" ++ Gmail.filename e) (Gmail.pdf_data e) = Ok tt ->
  remove_file (txt "temp_" ++ Gmail.filename e) = Ok tt ->
  (forall before pwd after record,
     (forall p, In p before -> analyze e p bank = Ok None) ->
     analyze e pwd bank = Ok (Some record) ->
     try_passwords e bank (before ++ pwd :: after) None = Ok (Some record))
  /\ (forall passwords,
        (forall p, In p passwords -> analyze e p bank = Ok None) ->
        try_passwords e bank passwords None = Ok None).
Proof.
  intros Hw Hr.
  assert (Hrej : forall passwords rest init,
             (forall p, In p passwords -> analyze e p bank = Ok None) ->
             try_passwords e bank (passwords ++ rest) init
             = match passwords with
               | [] => try_passwords e bank rest init
               | _ :: _ => try_passwords e bank rest None
               end).
  { induction passwords as [|p passwords IH]; intros rest init Hall;
      [reflexivity|].
    cbn [app Main.try_passwords]. rewrite Hw, (Hall p (or_introl eq_refl)).
    cbn [bind]. rewrite Hr. cbn [bind Main.accepted].
    rewrite IH by (intros q Hq; apply Hall; now right).
    now destruct passwords. }
  split.
  - intros before pwd after record Hbefore Hpwd.
    rewrite (Hrej before _ None Hbefore).
    assert (Hgo : try_passwords e bank (pwd :: after) None
                  = Ok (Some record)).
    { cbn [Main.try_passwords]. rewrite Hw, Hpwd. cbn [bind].
      rewrite Hr. cbn [bind]. now rewrite (analyze_accepted _ _ _ _ Hpwd). }
    now destruct before.
  - intros passwords Hall.
    rewrite <- (app_nil_r passwords), (Hrej passwords [] None Hall).
    now destruct passwords.
Qed.

Lemma process_email_cases (domains : dict str)
      (user_passwords : dict Main.secret) (user : str) (e : Gmail.email) :
  exists r : outcome (option (dict value)),
    (forall state,
       process_email domains user_passwords user state e
       = match r with
         | Raise => Raise
         | Ok None => Ok state
         | Ok (Some parsed) =>
             Ok (Main.insert_bill real_as_text text_as_real
                   (fst state) parsed user,
                 snd state ++ [shown parsed])
         end)
    /\ (forall parsed,
          r = Ok (Some parsed) ->
          exists bank pwd, analyze e pwd bank = Ok (Some parsed)).
Proof.
  unfold Main.process_email.
  destruct (Main.find_bank domains (lower (Gmail.sender e)))
    as [[|c bank]|];
    try (exists (Ok None); split; [now intros [conn cards] | discriminate]).
  destruct (dict_lookup user_passwords (c :: bank)) as [password|];
    try (exists (Ok None); split; [now intros [conn cards] | discriminate]).
  destruct (negb (Main.secret_truthy password));
    try (exists (Ok None); split; [now intros [conn cards] | discriminate]).
  destruct (try_passwords e (c :: bank)
              match password with
              | Main.One p => [p]
              | Main.Several l => l
              end None) as [[[|x xs]|]|] eqn:Et;
    try (exists (Ok None); split; [now intros [conn cards] | discriminate]).
  - exists (Ok (Some (x :: xs))). split; [now intros [conn cards]|].
    intros parsed [= <-].
    destruct (try_passwords_result _ _ _ _ _ Et eq_refl)
      as [H|(pwd & parsed & _ & [= <-] & Hp)]; [discriminate|].
    now exists (c :: bank), pwd.
  - exists Raise. split; [now intros [conn cards] | discriminate].
Qed.

Lemma process_emails_inserts (domains : dict str)
      (user_passwords : dict Main.secret) (user : str)
      (emails : list Gmail.email) :
  (forall state,
     process_emails domains user_passwords user state emails = Raise)
  \/ exists records,
       Forall (fun parsed => exists bank, accepted_shape bank parsed) records
       /\ (List.length records <= List.length emails)%nat
       /\ forall state,
            process_emails domains user_passwords user state emails
            = Ok (insert_all real_as_text text_as_real user records
                    (fst state),
                  snd state ++ map shown records).
Proof.
  induction emails as [|e emails IH].
  - right. exists []. split; [constructor|]. split; [constructor|].
    intros [conn cards]. cbn. now rewrite app_nil_r.
  - cbn [Main.process_emails].
    destruct (process_email_cases domains user_passwords user e)
      as ([[parsed|]|] & Hr & Hacc).
    + destruct IH as [IH|(records & Hall & Hlen & IH)].
      * left. intros state. rewrite Hr. cbn [bind]. apply IH.
      * right. exists (parsed :: records). split; [|split].
        -- constructor; [|exact Hall].
           destruct (Hacc parsed eq_refl) as (bank & pwd & Hp).
           exists bank. exact (accepted_record_shape _ _ _ _ _ _ Hp).
        -- cbn. lia.
        -- intros state. rewrite Hr. cbn [bind]. rewrite IH.
           cbn [fst snd insert_all fold_left map].
           now rewrite <- app_assoc.
    + destruct IH as [IH|(records & Hall & Hlen & IH)].
      * left. intros state. rewrite Hr. cbn [bind]. apply IH.
      * right. exists records. split; [exact Hall|]. split; [cbn; lia|].
        intros state. rewrite Hr. cbn [bind]. apply IH.
    + left. intros state. now rewrite Hr.
Qed.

Lemma to_real_number (v : value) :
  v = VNone \/ (exists f, v = VFloat f) ->
  is_number (Main.to_real text_as_real v).
Proof.
  intros [->|(f & ->)]; cbn; [exact I|]. now destruct f.
Qed.

Lemma insert_bill_cases (conn : Main.database) (parsed : dict value)
      (user : str) :
  let conn' := Main.insert_bill real_as_text text_as_real conn parsed user in
  stored real_as_text user parsed (Main.bills conn) = true
  /\ Main.bills conn' = Main.bills conn
  \/ stored real_as_text user parsed (Main.bills conn) = false
     /\ exists row,
          Main.bills conn' = Main.bills conn ++ [row]
          /\ Main.user row = user
          /\ Main.bank_name row
             = Main.to_text real_as_text (dict_get parsed (txt "bank_name"))
          /\ Main.card_last4 row = card_of real_as_text parsed
          /\ Main.statement_date row = statement_of real_as_text parsed
          /\ Main.due_date row
             = Main.to_text real_as_text (dict_get parsed (txt "due_date"))
          /\ Main.total_due row
             = Main.to_real text_as_real (dict_get parsed (txt "total_due"))
          /\ Main.min_due row
             = Main.to_real text_as_real (dict_get parsed (txt "min_due"))
          /\ Main.credit_limit row
             = Main.to_real text_as_real
                 (dict_get parsed (txt "credit_limit"))
          /\ Main.available_limit row
             = Main.to_real text_as_real
                 (dict_get parsed (txt "available_limit")).
Proof.
  cbv zeta. unfold Main.insert_bill.
  match goal with
  | |- context [Main.insert_or_ignore conn ?r] =>
      destruct (insert_or_ignore_cases conn r) as [_ [[Hc Hb]|[Hc Hb]]]
  end; cbv zeta in *.
  - left. split; [exact Hc | exact Hb].
  - right. split; [exact Hc|]. eexists. split; [exact Hb|].
    repeat split.
Qed.

Lemma accepted_keys (bank : str) (parsed : dict value) :
  accepted_shape bank parsed ->
  card_of real_as_text parsed <> None
  /\ statement_of real_as_text parsed <> None.
Proof.
  intros (_ & (card & Hc & _) & (due & _ & Hd & Hs) & _).
  unfold card_of, statement_of, Main.or_else. rewrite Hc, Hd. split.
  - discriminate.
  - destruct Hs as [->|(s & _ & -> & _)]; discriminate.
Qed.

Lemma accepted_row (bank user : str) (parsed : dict value)
      (row : Main.bill) :
  accepted_shape bank parsed ->
  Main.user row = user ->
  Main.bank_name row
  = Main.to_text real_as_text (dict_get parsed (txt "bank_name")) ->
  Main.card_last4 row = card_of real_as_text parsed ->
  Main.statement_date row = statement_of real_as_text parsed ->
  Main.due_date row
  = Main.to_text real_as_text (dict_get parsed (txt "due_date")) ->
  Main.total_due row
  = Main.to_real text_as_real (dict_get parsed (txt "total_due")) ->
  Main.min_due row
  = Main.to_real text_as_real (dict_get parsed (txt "min_due")) ->
  Main.credit_limit row
  = Main.to_real text_as_real (dict_get parsed (txt "credit_limit")) ->
  Main.available_limit row
  = Main.to_real text_as_real (dict_get parsed (txt "available_limit")) ->
  complete_row user row.
Proof.
  intros (Hb & (card & Hc & Hne) & (due & Hdue & Hd & Hs) & Ha)
         Hu Hbank Hcard Hstmt Hdd Ht Hm Hcl Hal.
  unfold complete_row. split; [exact Hu|]. split; [|split; [|split]].
  - exists bank. now rewrite Hbank, Hb.
  - exists card. unfold card_of in Hcard. now rewrite Hcard, Hc.
  - unfold statement_of, Main.or_else in Hstmt. rewrite Hd in Hdd, Hstmt.
    destruct Hs as [Hs|(s & Hsd & Hs & Hlt)]; rewrite Hs in Hstmt.
    + exists due, due. split; [exact Hdue|]. split; [exact Hdue|].
      split; [exact Hdd|]. split; [exact Hstmt | apply ltb_irrefl].
    + exists due, s. split; [exact Hdue|]. split; [exact Hsd|].
      split; [exact Hdd|]. split; [exact Hstmt | exact Hlt].
  - rewrite Ht, Hm, Hcl, Hal.
    repeat constructor; apply to_real_number; apply Ha; vm_compute; auto.
Qed.

Lemma insert_all_rows (user : str) (records : list (dict value))
      (conn : Main.database) :
  Forall (fun parsed => exists bank, accepted_shape bank parsed) records ->
  exists rows,
    Main.bills (insert_all real_as_text text_as_real user records conn)
    = Main.bills conn ++ rows
    /\ Forall (complete_row user) rows
    /\ (List.length rows <= List.length records)%nat.
Proof.
  intros Hall. revert conn.
  induction Hall as [|parsed records (bank & Hshape) _ IH]; intros conn.
  - exists []. cbn. rewrite app_nil_r. repeat constructor.
  - cbn [insert_all fold_left].
    destruct (IH (Main.insert_bill real_as_text text_as_real conn parsed user))
      as (rows & Hrows & Hc & Hlen).
    unfold insert_all in Hrows. rewrite Hrows.
    destruct (insert_bill_cases conn parsed user)
      as [[_ ->]|[_ (row & -> & Hu & Hb & Hcard & Hs & Hd & Ht & Hm & Hcl & Hal)]].
    + exists rows. split; [reflexivity|]. split; [exact Hc | cbn; lia].
    + exists (row :: rows). rewrite <- app_assoc. split; [reflexivity|].
      split; [|cbn; lia]. constructor; [|exact Hc].
      exact (accepted_row bank user parsed row Hshape
               Hu Hb Hcard Hs Hd Ht Hm Hcl Hal).
Qed.

(** X12.  Every row a run over the messages of a user adds is complete:
    it is a row of that user with a bank, a card, a due date in the form
    [YYYY-MM-DD] and a statement date in that form that is not after the
    due date (the due date itself when the statement has none), and its
    amounts are numbers or NULL.  The rows that were in the table stay,
    and there is at most one new row for each message. *)
Theorem stored_rows_are_complete (domains : dict str)
        (user_passwords : dict Main.secret) (user : str)
        (conn conn' : Main.database) (cards cards' : list (value * value))
        (emails : list Gmail.email) :
  process_emails domains user_passwords user (conn, cards) emails
  = Ok (conn', cards') ->
  exists rows,
    Main.bills conn' = Main.bills conn ++ rows
    /\ Forall (complete_row user) rows
    /\ (List.length rows <= List.length emails)%nat.
Proof.
  intros H.
  destruct (process_emails_inserts domains user_passwords user emails)
    as [Hr|(records & Hall & Hlen & Hrun)].
  - rewrite Hr in H. discriminate.
  - rewrite Hrun in H. injection H as <- _. cbn [fst].
    destruct (insert_all_rows user records conn Hall)
      as (rows & Hrows & Hc & Hl).
    exists rows. split; [exact Hrows|]. split; [exact Hc | lia].
Qed.

Lemma stored_grows (user : str) (parsed : dict value)
      (rows more : list Main.bill) :
  stored real_as_text user parsed rows = true ->
  stored real_as_text user parsed (rows ++ more) = true.
Proof.
  unfold stored. rewrite existsb_app. now intros ->.
Qed.

Lemma insert_bill_stores (bank user : str) (parsed : dict value)
      (conn : Main.database) :
  accepted_shape bank parsed ->
  stored real_as_text user parsed
    (Main.bills (Main.insert_bill real_as_text text_as_real conn parsed user))
  = true.
Proof.
  intros Hshape. destruct (accepted_keys bank parsed Hshape) as [Hc Hs].
  destruct (insert_bill_cases conn parsed user)
    as [[Hst ->]|[_ (row & -> & Hu & _ & Hcard & Hstmt & _)]];
    [exact Hst|].
  unfold stored. rewrite existsb_snoc. apply orb_true_iff. right.
  rewrite Hu, Hcard, Hstmt, str_eqb_refl.
  now rewrite !same_text_refl.
Qed.

Lemma insert_bill_keeps_stored (user : str) (parsed other : dict value)
      (conn : Main.database) :
  stored real_as_text user parsed (Main.bills conn) = true ->
  stored real_as_text user parsed
    (Main.bills (Main.insert_bill real_as_text text_as_real conn other user))
  = true.
Proof.
  intros H. destruct (insert_bill_cases conn other user)
    as [[_ ->]|[_ (row & -> & _)]]; [exact H | now apply stored_grows].
Qed.

Lemma insert_all_keeps_stored (user : str) (parsed : dict value)
      (records : list (dict value)) (conn : Main.database) :
  stored real_as_text user parsed (Main.bills conn) = true ->
  stored real_as_text user parsed
    (Main.bills (insert_all real_as_text text_as_real user records conn))
  = true.
Proof.
  revert conn. induction records as [|d records IH]; intros conn H;
    [exact H|].
  cbn [insert_all fold_left]. apply IH. now apply insert_bill_keeps_stored.
Qed.

Lemma insert_all_stores (user : str) (records : list (dict value))
      (conn : Main.database) :
  Forall (fun parsed => exists bank, accepted_shape bank parsed) records ->
  Forall
    (fun parsed =>
       stored real_as_text user parsed
         (Main.bills (insert_all real_as_text text_as_real user records conn))
       = true)
    records.
Proof.
  intros Hall. revert conn.
  induction Hall as [|parsed records (bank & Hshape) _ IH]; intros conn;
    constructor.
  - cbn [insert_all fold_left]. apply insert_all_keeps_stored.
    exact (insert_bill_stores bank user parsed conn Hshape).
  - apply IH.
Qed.

Lemma insert_all_absorbed (user : str) (records : list (dict value))
      (conn : Main.database) :
  Forall
    (fun parsed => stored real_as_text user parsed (Main.bills conn) = true)
    records ->
  Main.bills (insert_all real_as_text text_as_real user records conn)
  = Main.bills conn.
Proof.
  revert conn. induction records as [|d records IH]; intros conn Hall;
    [reflexivity|].
  inversion Hall as [|? ? Hd Hrest]; subst.
  cbn [insert_all fold_left].
  destruct (insert_bill_cases conn d user) as [[_ Hb]|[Hn _]];
    [|congruence].
  unfold insert_all in IH. rewrite IH; [exact Hb|]. now rewrite Hb.
Qed.

(** X13.  A second run over the same messages, with the same clock and
    the same answers of the libraries, adds no row to the table: every
    record it inserts has its card and its statement date (or its due
    date) in the key, and is ignored.  The run ends as the first did
    and reports the same cards. *)
Theorem second_run_adds_no_row (domains : dict str)
        (user_passwords : dict Main.secret) (user : str)
        (conn conn' : Main.database) (cards' : list (value * value))
        (emails : list Gmail.email) :
  process_emails domains user_passwords user (conn, []) emails
  = Ok (conn', cards') ->
  exists conn'',
    process_emails domains user_passwords user (conn', []) emails
    = Ok (conn'', cards')
    /\ Main.bills conn'' = Main.bills conn'.
Proof.
  intros H.
  destruct (process_emails_inserts domains user_passwords user emails)
    as [Hr|(records & Hall & _ & Hrun)].
  - rewrite Hr in H. discriminate.
  - rewrite Hrun in H. injection H as <- <-. cbn [fst snd app].
    eexists. split; [apply Hrun|]. cbn [fst].
    apply insert_all_absorbed. now apply insert_all_stores.
Qed.

End Messages.

(** The second of three passwords opens the statement. *)
Lemma first_working_password_wins_witness :
  Main.try_passwords (fun _ _ => Ok tt) (fun _ => Ok tt)
    (locked (txt "secret") (hdfc_statement "15/01/2024" "04/02/2024"))
    mid_january_2024 hdfc_message (txt "hdfc")
    ([txt "wrong"] ++ txt "secret" :: [txt "other"]) None
  = Ok (Some (record_of (hdfc_statement "15/01/2024" "04/02/2024")
                (txt "hdfc") (profile_of (txt "hdfc")))).
Proof.
  destruct (first_working_password_wins
              (fun _ _ => Ok tt) (fun _ => Ok tt)
              (locked (txt "secret")
                 (hdfc_statement "15/01/2024" "04/02/2024"))
              mid_january_2024 hdfc_message (txt "hdfc") eq_refl eq_refl)
    as [H _].
  apply H.
  - intros p [<-|[]]. vm_compute. reflexivity.
  - vm_compute. reflexivity.
Defined.

Lemma stored_rows_are_complete_witness :
  exists rows,
    Main.bills
      (Main.insert_bill (fun _ => []) (fun _ => Main.SNull)
         (Main.mkDatabase [] 0)
         (record_of (hdfc_statement "15/01/2024" "04/02/2024")
            (txt "hdfc") (profile_of (txt "hdfc")))
         (txt "rahul"))
    = Main.bills (Main.mkDatabase [] 0) ++ rows
    /\ Forall (complete_row (txt "rahul")) rows
    /\ (List.length rows <= List.length [hdfc_message])%nat.
Proof.
  apply (stored_rows_are_complete
           (fun _ => []) (fun _ => Main.SNull)
           (fun _ _ => Ok tt) (fun _ => Ok tt)
           (locked (txt "secret")
              (hdfc_statement "15/01/2024" "04/02/2024"))
           mid_january_2024 hdfc_domains hdfc_passwords (txt "rahul")
           (Main.mkDatabase [] 0) _ []
           [shown (record_of (hdfc_statement "15/01/2024" "04/02/2024")
                     (txt "hdfc") (profile_of (txt "hdfc")))]
           [hdfc_message]).
  vm_compute. reflexivity.
Defined.

Lemma second_run_adds_no_row_witness :
  exists conn'',
    Main.process_emails (fun _ => []) (fun _ => Main.SNull)
      (fun _ _ => Ok tt) (fun _ => Ok tt)
      (locked (txt "secret") (hdfc_statement "15/01/2024" "04/02/2024"))
      mid_january_2024 hdfc_domains hdfc_passwords (txt "rahul")
      (Main.insert_bill (fun _ => []) (fun _ => Main.SNull)
         (Main.mkDatabase [] 0)
         (record_of (hdfc_statement "15/01/2024" "04/02/2024")
            (txt "hdfc") (profile_of (txt "hdfc")))
         (txt "rahul"), [])
      [hdfc_message]
    = Ok (conn'',
          [shown (record_of (hdfc_statement "15/01/2024" "04/02/2024")
                    (txt "hdfc") (profile_of (txt "hdfc")))])
    /\ Main.bills conn''
       = Main.bills
           (Main.insert_bill (fun _ => []) (fun _ => Main.SNull)
              (Main.mkDatabase [] 0)
              (record_of (hdfc_statement "15/01/2024" "04/02/2024")
                 (txt "hdfc") (profile_of (txt "hdfc")))
              (txt "rahul")).
Proof.
  apply (second_run_adds_no_row
           (fun _ => []) (fun _ => Main.SNull)
           (fun _ _ => Ok tt) (fun _ => Ok tt)
           (locked (txt "secret")
              (hdfc_statement "15/01/2024" "04/02/2024"))
           mid_january_2024 hdfc_domains hdfc_passwords (txt "rahul")
           (Main.mkDatabase [] 0)).
  vm_compute. reflexivity.
Defined.

(** ** The mailbox *)

Section Mailbox.

Variable list_messages : str -> outcome (list str).
Variable get_message : str -> outcome Gmail.message.
Variable get_attachment : str -> str -> outcome str.
Variable urlsafe_b64decode : str -> outcome (list N).

Local Abbreviation read_parts :=
  (Gmail.read_parts get_attachment urlsafe_b64decode).

Local Abbreviation read_messages :=
  (Gmail.read_messages get_message get_attachment urlsafe_b64decode).

Local Abbreviation get_statement_emails :=
  (Gmail.get_statement_emails list_messages get_message get_attachment
     urlsafe_b64decode).

Local Abbreviation attachments :=
  (attachments_of get_message get_attachment urlsafe_b64decode).

Lemma read_parts_app (msg_id sender : str) (ps : list Gmail.part)
      (emails : list Gmail.email) :
  read_parts msg_id sender ps emails
  = (emails ++ fst (read_parts msg_id sender ps []),
     snd (read_parts msg_id sender ps [])).
Proof.
  revert emails. induction ps as [|p ps IH]; intros emails.
  - cbn. now rewrite app_nil_r.
  - cbn [Gmail.read_parts].
    destruct (Gmail.ends_with _ _); [|apply IH].
    destruct (Gmail.part_attachment_id p) as [[|c a]|]; try apply IH.
    destruct (get_attachment msg_id (c :: a)) as [data|];
      [|cbn; now rewrite app_nil_r].
    destruct (urlsafe_b64decode data) as [pdf|];
      [|cbn; now rewrite app_nil_r].
    rewrite IH, (IH ([] ++ _)). cbn [fst snd app].
    now rewrite <- app_assoc.
Qed.

Lemma read_messages_app (ids : list str) (emails : list Gmail.email) :
  read_messages ids emails = emails ++ List.concat (map attachments ids).
Proof.
  revert emails. induction ids as [|msg_id ids IH]; intros emails.
  - cbn. now rewrite app_nil_r.
  - cbn [Gmail.read_messages map List.concat]. unfold attachments_of at 1.
    destruct (get_message msg_id) as [msg_data|]; [|apply IH].
    rewrite IH, read_parts_app. cbn [fst]. now rewrite <- app_assoc.
Qed.

Lemma read_parts_source (msg_id sender : str) (ps : list Gmail.part)
      (e : Gmail.email) :
  In e (fst (read_parts msg_id sender ps [])) ->
  Gmail.message_id e = msg_id
  /\ Gmail.sender e = sender
  /\ Gmail.ends_with (txt ".pdf") (lower (Gmail.filename e)) = true
  /\ exists p attachment_id data,
       In p ps
       /\ Gmail.part_filename p = Some (Gmail.filename e)
       /\ Gmail.part_attachment_id p = Some attachment_id
       /\ attachment_id <> []
       /\ get_attachment msg_id attachment_id = Ok data
       /\ urlsafe_b64decode data = Ok (Gmail.pdf_data e).
Proof.
  induction ps as [|p ps IH]; [intros []|].
  assert (Hrest :
            In e (fst (read_parts msg_id sender ps [])) ->
            Gmail.message_id e = msg_id
            /\ Gmail.sender e = sender
            /\ Gmail.ends_with (txt ".pdf") (lower (Gmail.filename e)) = true
            /\ exists p0 attachment_id data,
                 In p0 (p :: ps)
                 /\ Gmail.part_filename p0 = Some (Gmail.filename e)
                 /\ Gmail.part_attachment_id p0 = Some attachment_id
                 /\ attachment_id <> []
                 /\ get_attachment msg_id attachment_id = Ok data
                 /\ urlsafe_b64decode data = Ok (Gmail.pdf_data e)).
  { intros H. destruct (IH H) as (Hm & Hs & Hf & p0 & a & data & Hin & Hrest).
    repeat (split; [assumption|]). exists p0, a, data.
    split; [now right | exact Hrest]. }
  cbn [Gmail.read_parts].
  match goal with
  | |- In e (fst (if ?c then _ else _)) -> _ => destruct c eqn:Hpdf
  end; [|exact Hrest].
  destruct (Gmail.part_attachment_id p) as [[|c a]|] eqn:Ha;
    try exact Hrest.
  destruct (get_attachment msg_id (c :: a)) as [data|] eqn:Hg; [|intros []].
  destruct (urlsafe_b64decode data) as [pdf|] eqn:Hd; [|intros []].
  rewrite read_parts_app. cbn [fst app]. intros [<-|H]; [|exact (Hrest H)].
  cbn [Gmail.message_id Gmail.sender Gmail.filename Gmail.pdf_data].
  destruct (Gmail.part_filename p) as [f|] eqn:Hf; [|discriminate].
  repeat (split; [reflexivity || assumption|]).
  exists p, (c :: a), data. split; [now left|].
  repeat (split; [reflexivity || assumption || discriminate|]).
  exact Hd.
Qed.

(** X14.  The messages of a search are read independently of each
    other: the attachments returned are those of the first message,
    then those of the second, and so on, each as if the message were
    read alone.  A message that cannot be fetched gives none, and a
    message one of whose attachments cannot be fetched or decoded gives
    the attachments before that one.  When the search itself fails the
    list is empty. *)
Theorem messages_are_read_independently (now since : datetime)
        (sender_list : list str) (days_to_search : Z) :
  Gmail.minus_days now days_to_search = Ok since ->
  (forall ids,
     list_messages
       (Gmail.search_query sender_list (Gmail.strftime_slashes since))
     = Ok ids ->
     get_statement_emails now sender_list days_to_search
     = Ok (List.concat (map attachments ids)))
  /\ (list_messages
        (Gmail.search_query sender_list (Gmail.strftime_slashes since))
      = Raise ->
      get_statement_emails now sender_list days_to_search = Ok []).
Proof.
  intros Hsince. unfold Gmail.get_statement_emails. rewrite Hsince. split.
  - intros ids ->. now rewrite read_messages_app.
  - now intros ->.
Qed.

(** X15.  Every attachment [get_statement_emails] returns comes from a
    message of the search: its file name ends in [.pdf] (in any case),
    it is the file name of a part of that message with an attachment
    id, its bytes are the decoded data fetched for that id, and its
    sender is the value of the first [From] header of the message. *)
Theorem attachments_come_from_the_search (now since : datetime)
        (sender_list : list str) (days_to_search : Z) (ids : list str)
        (emails : list Gmail.email) :
  Gmail.minus_days now days_to_search = Ok since ->
  list_messages
    (Gmail.search_query sender_list (Gmail.strftime_slashes since))
  = Ok ids ->
  get_statement_emails now sender_list days_to_search = Ok emails ->
  Forall (fetched_from get_message get_attachment urlsafe_b64decode ids)
    emails.
Proof.
  intros Hsince Hids. unfold Gmail.get_statement_emails.
  rewrite Hsince, Hids, read_messages_app. cbn [app]. intros [= <-].
  apply Forall_forall. intros e He.
  apply in_concat in He. destruct He as (l & Hl & He).
  apply in_map_iff in Hl. destruct Hl as (msg_id & <- & Hid).
  unfold attachments_of in He.
  destruct (get_message msg_id) as [msg_data|] eqn:Hm; [|destruct He].
  apply read_parts_source in He.
  destruct He as (<- & Hs & Hf & p & a & data & Hin & Hpf & Hpa & Hne & Hg & Hd).
  unfold fetched_from. split; [exact Hid|]. split; [exact Hf|].
  exists msg_data, p, a, data. auto 10.
Qed.

End Mailbox.

(** Of two messages the first cannot be fetched; the second gives its
    first attachment. *)
Lemma messages_are_read_independently_witness :
  Gmail.get_statement_emails (fun _ => Ok [txt "m0"; txt "m1"])
    inbox inbox_attachment inbox_decode
    mid_january_2024 [txt "hdfcbank.net"; txt "sbicard.com"] 45
  = Ok ([]
        ++ [Gmail.mkEmail [37; 80; 68; 70; 45]%N (txt "Statement.PDF")
              (txt "HDFC Bank <statements@hdfcbank.net>") (txt "m1")]).
Proof.
  assert (Hsince : Gmail.minus_days mid_january_2024 45
                   = Ok (mkDatetime 2023 12 1 10 0 0 0))
    by (vm_compute; reflexivity).
  rewrite (proj1 (messages_are_read_independently
                    (fun _ => Ok [txt "m0"; txt "m1"])
                    inbox inbox_attachment inbox_decode
                    mid_january_2024 (mkDatetime 2023 12 1 10 0 0 0)
                    [txt "hdfcbank.net"; txt "sbicard.com"] 45 Hsince)
             [txt "m0"; txt "m1"] eq_refl).
  vm_compute. reflexivity.
Defined.

Lemma attachments_come_from_the_search_witness :
  Forall (fetched_from inbox inbox_attachment inbox_decode
            [txt "m0"; txt "m1"])
    [Gmail.mkEmail [37; 80; 68; 70; 45]%N (txt "Statement.PDF")
       (txt "HDFC Bank <statements@hdfcbank.net>") (txt "m1")].
Proof.
  apply (attachments_come_from_the_search
           (fun _ => Ok [txt "m0"; txt "m1"])
           inbox inbox_attachment inbox_decode
           mid_january_2024 (mkDatetime 2023 12 1 10 0 0 0)
           [txt "hdfcbank.net"; txt "sbicard.com"] 45).
  - vm_compute. reflexivity.
  - reflexivity.
  - vm_compute. reflexivity.
Defined.

(** The query of a search on 2024-01-15 over 45 days. *)
Example search_query_of_mid_january :
  option_map
    (fun since =>
       Gmail.search_query [txt "hdfcbank.net"; txt "sbicard.com"]
         (Gmail.strftime_slashes since))
    (match Gmail.minus_days mid_january_2024 45 with
     | Ok since => Some since
     | Raise => None
     end)
  = Some (txt "(from:hdfcbank.net OR from:sbicard.com) has:attachment filename:pdf after:2023/12/01").
Proof. vm_compute. reflexivity. Qed.

(** ** The day the search starts at *)

Lemma days_before_year_split (a b c e : Z) :
  (0 <= a -> 0 <= b <= 3 -> 0 <= c <= 24 -> 0 <= e <= 3 ->
   days_before_year (400 * a + 100 * b + 4 * c + e + 1)
   = 146097 * a + 36524 * b + 1461 * c + 365 * e)%Z.
Proof.
  intros Ha Hb Hc He. unfold days_before_year. cbv zeta.
  replace (400 * a + 100 * b + 4 * c + e + 1 - 1)%Z
    with (400 * a + 100 * b + 4 * c + e)%Z by lia.
  Z.div_mod_to_equations. lia.
Qed.

Lemma is_leap_split (a b c e : Z) :
  (0 <= a -> 0 <= b <= 3 -> 0 <= c <= 24 -> 0 <= e <= 3 ->
   is_leap (400 * a + 100 * b + 4 * c + e + 1)
   = ((e =? 3) && (negb (c =? 24) || (b =? 3)))%bool)%Z.
Proof.
  intros Ha Hb Hc He. unfold is_leap.
  destruct (Z.eqb_spec e 3) as [E|E];
    destruct (Z.eqb_spec c 24) as [C|C];
    destruct (Z.eqb_spec b 3) as [B|B]; cbn [negb andb orb];
    repeat match goal with
           | |- context [(?x mod ?k =? 0)%Z] =>
               destruct (Z.eqb_spec (x mod k) 0)
           end; cbn [negb andb orb]; try reflexivity; exfalso;
    Z.div_mod_to_equations; lia.
Qed.

Lemma month_day_checked :
  forallb (fun n => month_day_ok n true && month_day_ok n false)
    (zrange 0 365) = true.
Proof. vm_compute. reflexivity. Qed.

Lemma month_day_sound (n : Z) (leapyear : bool) :
  (0 <= n <= 364)%Z -> month_day_ok n leapyear = true.
Proof.
  intros H. pose proof month_day_checked as Hc.
  rewrite forallb_forall in Hc.
  assert (Hin : In n (zrange 0 365)) by (apply in_zrange; lia).
  apply Hc in Hin. apply andb_true_iff in Hin.
  destruct leapyear; tauto.
Qed.

Lemma last_day_of_leap_year (y : Z) :
  is_leap y = true -> ymd2ord y 12 31 = (days_before_year y + 366)%Z.
Proof.
  intros H. unfold ymd2ord, days_before_month. rewrite H.
  change (days_before_month_table 12) with 334%Z.
  change (2 <? 12)%Z with true. cbv beta iota delta [andb]. lia.
Qed.

Lemma ord2ymd_sound (o : Z) :
  (1 <= o)%Z ->
  let '(y, m, d) := Gmail.ord2ymd o in
  (1 <= y /\ 1 <= m <= 12 /\ 1 <= d <= days_in_month y m
   /\ ymd2ord y m d = o)%Z.
Proof.
  intros Ho. unfold Gmail.ord2ymd, Gmail.DI400Y, Gmail.DI100Y, Gmail.DI4Y.
  cbv zeta.
  pose proof (Z.div_mod (o - 1) 146097 ltac:(lia)) as E1.
  pose proof (Z.mod_pos_bound (o - 1) 146097 ltac:(lia)) as B1.
  assert (A0 : (0 <= (o - 1) / 146097)%Z) by (apply Z.div_pos; lia).
  set (a := ((o - 1) / 146097)%Z) in *.
  set (r400 := ((o - 1) mod 146097)%Z) in *.
  pose proof (Z.div_mod r400 36524 ltac:(lia)) as E2.
  pose proof (Z.mod_pos_bound r400 36524 ltac:(lia)) as B2.
  set (b := (r400 / 36524)%Z) in *.
  set (r100 := (r400 mod 36524)%Z) in *.
  pose proof (Z.div_mod r100 1461 ltac:(lia)) as E3.
  pose proof (Z.mod_pos_bound r100 1461 ltac:(lia)) as B3.
  set (c := (r100 / 1461)%Z) in *.
  set (r4 := (r100 mod 1461)%Z) in *.
  pose proof (Z.div_mod r4 365 ltac:(lia)) as E4.
  pose proof (Z.mod_pos_bound r4 365 ltac:(lia)) as B4.
  set (e := (r4 / 365)%Z) in *.
  set (r := (r4 mod 365)%Z) in *.
  clearbody a r400 b r100 c r4 e r.
  assert (Hb : (0 <= b <= 4)%Z) by lia.
  assert (Hc : (0 <= c <= 24)%Z) by lia.
  assert (He : (0 <= e <= 4)%Z) by lia.
  destruct (Z.eqb_spec e 4) as [E|E]; [|destruct (Z.eqb_spec b 4) as [B|B]];
    cbn [orb].
  - (* the last day of a leap year *)
    assert (Hc' : (c <= 23)%Z) by lia.
    assert (Hb' : (b <= 3)%Z) by lia.
    replace (a * 400 + 1 + b * 100 + c * 4 + e - 1)%Z
      with (400 * a + 100 * b + 4 * c + 3 + 1)%Z by lia.
    assert (Hl : is_leap (400 * a + 100 * b + 4 * c + 3 + 1) = true).
    { rewrite is_leap_split by lia.
      destruct (Z.eqb_spec c 24) as [C|C]; [lia | reflexivity]. }
    rewrite (last_day_of_leap_year _ Hl), days_before_year_split by lia.
    change (days_in_month (400 * a + 100 * b + 4 * c + 3 + 1) 12) with 31%Z.
    lia.
  - (* the last day of a cycle of 400 years *)
    replace (a * 400 + 1 + b * 100 + c * 4 + e - 1)%Z
      with (400 * a + 100 * 3 + 4 * 24 + 3 + 1)%Z by lia.
    assert (Hl : is_leap (400 * a + 100 * 3 + 4 * 24 + 3 + 1) = true)
      by (rewrite is_leap_split by lia; reflexivity).
    rewrite (last_day_of_leap_year _ Hl), days_before_year_split by lia.
    change (days_in_month (400 * a + 100 * 3 + 4 * 24 + 3 + 1) 12)
      with 31%Z.
    lia.
  - replace (a * 400 + 1 + b * 100 + c * 4 + e)%Z
      with (400 * a + 100 * b + 4 * c + e + 1)%Z by lia.
    set (y := (400 * a + 100 * b + 4 * c + e + 1)%Z).
    set (leapyear := ((e =? 3)%Z && (negb (c =? 24)%Z || (b =? 3)%Z))%bool).
    assert (Hl : is_leap y = leapyear) by (apply is_leap_split; lia).
    assert (Hy : days_before_year y
                 = (146097 * a + 36524 * b + 1461 * c + 365 * e)%Z)
      by (apply days_before_year_split; lia).
    pose proof (month_day_sound r leapyear ltac:(lia)) as Hm.
    unfold month_day_ok, month_day in Hm. cbv zeta in Hm.
    destruct (if (r <? _)%Z then _ else _) as [m p].
    apply andb_true_iff in Hm. destruct Hm as [Hm H5].
    apply andb_true_iff in Hm. destruct Hm as [Hm H4].
    apply andb_true_iff in Hm. destruct Hm as [Hm H3].
    apply andb_true_iff in Hm. destruct Hm as [H1 H2].
    apply Z.leb_le in H1, H2, H3, H4. apply Z.eqb_eq in H5.
    unfold ymd2ord, days_before_month, days_in_month.
    rewrite Hl, Hy. subst y. lia.
Qed.

Lemma days_before_next_year (y : Z) :
  days_before_year (y + 1)
  = (days_before_year y + 365 + (if is_leap y then 1 else 0))%Z.
Proof.
  unfold days_before_year, is_leap. cbv zeta.
  replace (y + 1 - 1)%Z with y by lia.
  repeat match goal with
         | |- context [(?x mod ?k =? 0)%Z] =>
             destruct (Z.eqb_spec (x mod k) 0)
         end; cbn [negb andb orb]; Z.div_mod_to_equations; lia.
Qed.

Lemma day_of_year_bounds (y m d : Z) :
  (1 <= m <= 12 -> 1 <= d <= days_in_month y m ->
   1 <= days_before_month y m + d
     <= 365 + (if is_leap y then 1 else 0))%Z.
Proof.
  intros Hm. unfold days_before_month, days_in_month.
  generalize (is_leap y). intros leap Hd.
  assert (Hc : forallb
                 (fun m =>
                    forallb
                      (fun leap : bool =>
                         (0 <=? days_before_month_table m
                                + (if (2 <? m) && leap then 1 else 0))
                         && (days_before_month_table m
                             + (if (2 <? m) && leap then 1 else 0)
                             + (if m =? 2 then (if leap then 29 else 28)
                                else if (m =? 4) || (m =? 6) || (m =? 9)
                                        || (m =? 11) then 30
                                else 31)
                             <=? 365 + (if leap then 1 else 0)))%Z
                      [true; false])
                 (zrange 1 12) = true) by (vm_compute; reflexivity).
  rewrite forallb_forall in Hc.
  assert (Hin : In m (zrange 1 12)) by (apply in_zrange; lia).
  apply Hc in Hin. rewrite forallb_forall in Hin.
  assert (Hl : In leap [true; false]) by (destruct leap; cbn; auto).
  apply Hin in Hl. apply andb_true_iff in Hl. destruct Hl as [H1 H2].
  apply Z.leb_le in H1, H2. lia.
Qed.

Lemma valid_ordinal (y m d : Z) :
  valid_ymd y m d = true -> (1 <= ymd2ord y m d <= Gmail.MAXORDINAL)%Z.
Proof.
  unfold valid_ymd. intros H.
  apply andb_true_iff in H. destruct H as [H H6].
  apply andb_true_iff in H. destruct H as [H H5].
  apply andb_true_iff in H. destruct H as [H H4].
  apply andb_true_iff in H. destruct H as [H H3].
  apply andb_true_iff in H. destruct H as [H1 H2].
  apply Z.leb_le in H1, H2, H3, H4, H5, H6.
  pose proof (day_of_year_bounds y m d (conj H3 H4) (conj H5 H6)) as Hb.
  pose proof (days_before_next_year y) as Hn.
  unfold ymd2ord, Gmail.MAXORDINAL.
  assert (Hlo : (0 <= days_before_year y)%Z)
    by (unfold days_before_year; cbv zeta; Z.div_mod_to_equations; lia).
  assert (Hhi : (days_before_year (y + 1) <= 3652059)%Z)
    by (unfold days_before_year; cbv zeta; Z.div_mod_to_equations; lia).
  lia.
Qed.

Lemma ord2ymd_valid (o : Z) :
  (1 <= o <= Gmail.MAXORDINAL)%Z ->
  let '(y, m, d) := Gmail.ord2ymd o in
  valid_ymd y m d = true /\ ymd2ord y m d = o.
Proof.
  intros [Hlo Hhi]. pose proof (ord2ymd_sound o Hlo) as H.
  destruct (Gmail.ord2ymd o) as [[y m] d].
  destruct H as (Hy & Hm & Hd & Ho). split; [|exact Ho].
  assert (Hy' : (y <= 9999)%Z).
  { pose proof (day_of_year_bounds y m d Hm Hd) as Hb.
    unfold ymd2ord, Gmail.MAXORDINAL in *.
    destruct (Z.le_gt_cases y 9999) as [Hle|Hgt]; [exact Hle|]. exfalso.
    assert (Hbig : (3652059 <= days_before_year y)%Z)
      by (unfold days_before_year; cbv zeta; Z.div_mod_to_equations; lia).
    lia. }
  unfold valid_ymd.
  repeat (apply andb_true_iff; split); apply Z.leb_le; lia.
Qed.

(** X16.  The search starts at the calendar day [days_to_search] days
    before the current one, at the same time of day; the day exists, and
    [get_statement_emails] returns a list, whenever that many days lie
    between the current day and 0001-01-01.  When they do not, the
    subtraction overflows and [get_statement_emails] raises: the date is
    computed outside its [try]. *)
Theorem search_starts_days_ago
        (list_messages : str -> outcome (list str))
        (get_message : str -> outcome Gmail.message)
        (get_attachment : str -> str -> outcome str)
        (urlsafe_b64decode : str -> outcome (list N))
        (now : datetime) (sender_list : list str) (days_to_search : Z) :
  valid_ymd (year now) (month now) (day now) = true ->
  (0 <= days_to_search)%Z ->
  ((days_to_search < toordinal now)%Z ->
   exists since emails,
     Gmail.minus_days now days_to_search = Ok since
     /\ valid_ymd (year since) (month since) (day since) = true
     /\ toordinal since = (toordinal now - days_to_search)%Z
     /\ [hour since; minute since; second since; microsecond since]
        = [hour now; minute now; second now; microsecond now]
     /\ Gmail.get_statement_emails list_messages get_message get_attachment
          urlsafe_b64decode now sender_list days_to_search = Ok emails)
  /\ ((toordinal now <= days_to_search)%Z ->
      Gmail.get_statement_emails list_messages get_message get_attachment
        urlsafe_b64decode now sender_list days_to_search = Raise).
Proof.
  intros Hnow Hn.
  pose proof (valid_ordinal _ _ _ Hnow) as Hord. fold (toordinal now) in Hord.
  unfold Gmail.MAXORDINAL in Hord. split.
  - intros Hlt. unfold Gmail.get_statement_emails, Gmail.minus_days.
    destruct (Z.ltb_spec 999999999 (Z.abs days_to_search)) as [Habs|_];
      [lia|].
    destruct (Z.leb_spec 1 (toordinal now - days_to_search)) as [_|H];
      [|lia].
    destruct (Z.leb_spec (toordinal now - days_to_search) Gmail.MAXORDINAL)
      as [_|H]; [|unfold Gmail.MAXORDINAL in H; lia].
    cbn [andb].
    pose proof (ord2ymd_valid (toordinal now - days_to_search)
                  ltac:(unfold Gmail.MAXORDINAL; lia)) as Hv.
    destruct (Gmail.ord2ymd (toordinal now - days_to_search)) as [[y m] d].
    destruct Hv as [Hv Ho].
    eexists. 
    destruct (list_messages _) as [ids|]; eexists;
      (split; [reflexivity|]); (split; [exact Hv|]);
      (split; [exact Ho|]); (split; reflexivity).
  - intros Hge. unfold Gmail.get_statement_emails, Gmail.minus_days.
    destruct (Z.ltb_spec 999999999 (Z.abs days_to_search)) as [_|_];
      [reflexivity|].
    destruct (Z.leb_spec 1 (toordinal now - days_to_search)) as [H|_];
      [lia | reflexivity].
Qed.

Lemma search_starts_days_ago_witness :
  exists since emails,
    Gmail.minus_days mid_january_2024 45 = Ok since
    /\ valid_ymd (year since) (month since) (day since) = true
    /\ toordinal since = (toordinal mid_january_2024 - 45)%Z
    /\ [hour since; minute since; second since; microsecond since]
       = [hour mid_january_2024; minute mid_january_2024;
          second mid_january_2024; microsecond mid_january_2024]
    /\ Gmail.get_statement_emails (fun _ => Ok [txt "m0"; txt "m1"])
         inbox inbox_attachment inbox_decode
         mid_january_2024 [txt "hdfcbank.net"] 45 = Ok emails.
Proof.
  apply (search_starts_days_ago (fun _ => Ok [txt "m0"; txt "m1"])
           inbox inbox_attachment inbox_decode
           mid_january_2024 [txt "hdfcbank.net"] 45).
  - reflexivity.
  - lia.
  - vm_compute. reflexivity.
Defined.

Lemma shown_accepted (bank : str) (parsed : dict value) :
  accepted_shape bank parsed -> names_a_card (shown parsed).
Proof.
  intros (Hb & (card & Hc & Hne) & _).
  exists bank, card. split; [|exact Hne].
  unfold shown, Main.get_default. unfold dict_get in Hb, Hc.
  destruct (dict_lookup parsed (txt "bank_name")); [|discriminate].
  destruct (dict_lookup parsed (txt "card_last4")); [|discriminate].
  now subst.
Qed.


